(** * Ghost-hunting simulation: a shallow embedding of the C sources

    The development follows the source files: [defs.h] (constants, enums and
    structs), [evidence.c] (the evidence arrays and the per-room ledger),
    [utils.c] (random numbers and movement), [hunter.c] (the hunter's tick and
    the equipment), [ghost.c] (the ghost's tick), [main.c] (the set-up and the
    verdict), [room.c] and [house.c] (the house).  The statements proved about
    these definitions come after them.

    An [int] is an integer of [Z]: the counters and indices of a game stay far
    from the limits of [int].  A [float] is a binary32 value with its
    rounding. *)

From stdpp Require Import base numbers option list strings.

Open Scope Z_scope.

(** ** defs.h: constants and enumerations *)

Definition MAX_STR : Z := 64.
Definition BOREDOM_MAX : Z := 100.
Definition C_TRUE : Z := 1.
Definition C_FALSE : Z := 0.
Definition NUM_HUNTERS : Z := 4.
Definition FEAR_MAX : Z := 10.
Definition MAX_EV : Z := 3.

(** [enum EvidenceType].  The code compares evidence values with [<] and [>=]
    and uses them as array indices, so they are kept as integers. *)
Definition EMF : Z := 0.
Definition TEMPERATURE : Z := 1.
Definition FINGERPRINTS : Z := 2.
Definition SOUND : Z := 3.
Definition EV_COUNT : Z := 4.
Definition EV_UNKNOWN : Z := 5.

(** [enum GhostClass]. *)
Inductive GhostClass : Type :=
| POLTERGEIST | BANSHEE | BULLIES | PHANTOM | GHOST_COUNT | GH_UNKNOWN.

#[global] Instance GhostClass_eq_dec : EqDecision GhostClass.
Proof. solve_decision. Defined.

(** [enum LoggerDetails]. *)
Inductive LoggerDetails : Type :=
| LOG_FEAR | LOG_BORED | LOG_EVIDENCE | LOG_SUFFICIENT | LOG_INSUFFICIENT | LOG_UNKNOWN.

(** ** Console output

    A [printf]/[fprintf] call is recorded with its format string (without the
    trailing newline) and its arguments; the calls to the logger, which is an
    external collaborator, are recorded by name. *)
Inductive Arg : Type :=
| AInt (z : Z)
| AStr (s : string).

Inductive Event : Type :=
| Stdout (fmt : string) (args : list Arg)
| Stderr (fmt : string) (args : list Arg)
| L_hunterMove (name room : string)
| L_hunterReview (name : string) (reviewResult : LoggerDetails)
| L_hunterCollect (name : string) (evidence : Z) (room : string)
| L_ghostMove (room : string)
| L_ghostEvidence (evidence : Z) (room : string)
| L_ghostExit (reason : LoggerDetails).

(** ** The monad of the embedding

    A C function that works on an object of type [St] through a pointer is a
    computation over a state of type [St].  It may draw from the calling
    thread's random number generator ([rand_r] on a thread-local seed, here the
    stream [rnd] of the values it is going to return, read at a cursor), write
    to the console, end the calling thread ([pthread_exit]) or step outside the
    behaviour C defines (an access outside the bounds of an array, a null
    pointer followed).  [OutOfFuel] is the result of a loop that was still
    running when the fuel given to its model ran out.

    An argument that points to an object of the running game (the house, the
    ghost, the shared state, an evidence or hunter array) is that object, so
    the guard against [NULL] at the head of such a function has no
    counterpart; a pointer that can be [NULL] in a running game (a field of a
    struct, the room of a query) is an [option].  A function that takes the
    semaphore of an object is one step on that object: the calls of the
    threads are taken in the order the semaphore lets them through. *)
Inductive Result (St A : Type) : Type :=
| Done (a : A) (s : St) (cursor : nat) (out : list Event)
| Exited (s : St) (cursor : nat) (out : list Event)
| Undefined
| OutOfFuel.

Arguments Done {St A} a s cursor out.
Arguments Exited {St A} s cursor out.
Arguments Undefined {St A}.
Arguments OutOfFuel {St A}.

Definition M (St A : Type) : Type := (nat → Z) → nat → St → Result St A.

Section Monad.
Context {St : Type}.

Definition ret {A} (a : A) : M St A := λ _ n s, Done a s n [].

Definition bind {A B} (m : M St A) (f : A → M St B) : M St B :=
  λ rnd n s,
    match m rnd n s with
    | Done a s1 n1 o1 =>
        match f a rnd n1 s1 with
        | Done b s2 n2 o2 => Done b s2 n2 (o1 ++ o2)
        | Exited s2 n2 o2 => Exited s2 n2 (o1 ++ o2)
        | Undefined => Undefined
        | OutOfFuel => OutOfFuel
        end
    | Exited s1 n1 o1 => Exited s1 n1 o1
    | Undefined => Undefined
    | OutOfFuel => OutOfFuel
    end.

Definition get : M St St := λ _ n s, Done s s n [].
Definition gets {A} (f : St → A) : M St A := λ _ n s, Done (f s) s n [].
Definition put (s : St) : M St unit := λ _ n _, Done tt s n [].
Definition modify (f : St → St) : M St unit := λ _ n s, Done tt (f s) n [].
Definition tell (e : Event) : M St unit := λ _ n s, Done tt s n [e].
Definition pthread_exit {A} : M St A := λ _ n s, Exited s n [].
Definition undefined {A} : M St A := λ _ _ _, Undefined.
Definition out_of_fuel {A} : M St A := λ _ _ _, OutOfFuel.

(** One call of [rand_r]: the next value of the stream. *)
Definition rand_r : M St Z := λ rnd n s, Done (rnd n) s (S n) [].

(** The value behind a pointer or an array index that must be valid. *)
Definition deref {A} (o : option A) : M St A :=
  match o with
  | Some a => ret a
  | None => undefined
  end.
End Monad.

#[global] Instance M_ret {St} : MRet (M St) := λ A, @ret St A.
#[global] Instance M_bind {St} : MBind (M St) := λ A B f m, @bind St A B m f.

(** A function called on a part [T] of the state [St] (through a pointer into
    it). *)
Definition zoom {St T A} (getT : St → T) (setT : T → St → St) (m : M T A) : M St A :=
  λ rnd n s,
    match m rnd n (getT s) with
    | Done a t n1 o => Done a (setT t s) n1 o
    | Exited t n1 o => Exited (setT t s) n1 o
    | Undefined => Undefined
    | OutOfFuel => OutOfFuel
    end.

(** ** defs.h: the evidence array *)

(** [struct EvidenceArray]: [evidence] is the allocated buffer (all of it, the
    cells at [size] and beyond included). *)
Record EvidenceArrayType : Type := mkEvidenceArray {
  evidence : list Z;
  size : Z;
  capacity : Z
}.

(** The entries in use: [evidence[0 .. size-1]]. *)
Definition collected (evidenceArray : EvidenceArrayType) : list Z :=
  take (Z.to_nat (size evidenceArray)) (evidence evidenceArray).

(** ** evidence.c *)

(** [initEvidenceArray].  [fresh] is what [malloc] returns: [None] when it
    fails, otherwise the [capacity] cells with whatever they hold.  The
    semaphore is not modelled ([sem_init] succeeds). *)
Definition initEvidenceArray (capacity : Z) (fresh : option (list Z))
  : M EvidenceArrayType unit :=
  if bool_decide (capacity ≤ 0) then
    tell (Stderr "Error: Invalid capacity for evidence array (%d)." [AInt capacity]);;
    put (mkEvidenceArray [] 0 0)
  else
    match fresh with
    | None =>
        tell (Stderr "Error: Failed to allocate memory for evidence array." []);;
        put (mkEvidenceArray [] 0 0)
    | Some cells => put (mkEvidenceArray cells 0 capacity)
    end.

(** The loop of [isEvidenceCollected], with [todo] iterations left from
    index [i]. *)
Fixpoint isEvidenceCollected_loop (buf : list Z) (evidence : Z) (i todo : nat)
  : option Z :=
  match todo with
  | O => Some 0
  | S todo' =>
      match buf !! i with
      | None => None
      | Some x =>
          if bool_decide (x = evidence) then Some 1
          else isEvidenceCollected_loop buf evidence (S i) todo'
      end
  end.

(** [isEvidenceCollected]. *)
Definition isEvidenceCollected (ev : Z) : M EvidenceArrayType Z :=
  evidenceArray ← get;
  deref (isEvidenceCollected_loop (evidence evidenceArray) ev 0
           (Z.to_nat (size evidenceArray))).

(** [collectEv].  The array argument is the state; the semaphore brackets the
    part after the range check. *)
Definition collectEv (ev : Z) : M EvidenceArrayType Z :=
  if bool_decide (EV_UNKNOWN ≤ ev) || bool_decide (ev < EMF) then
    tell (Stderr "Error: Invalid evidence type provided: %d." [AInt ev]);;
    mret (-1)
  else
    evidenceArray ← get;
    if bool_decide (MAX_EV ≤ size evidenceArray) then
      tell (Stderr "Error: Cannot collect evidence, array is full." []);;
      mret (-1)
    else
      already ← isEvidenceCollected ev;
      if bool_decide (already ≠ 0) then
        tell (Stderr "Error: Evidence type %d already collected." [AInt ev]);;
        mret (-1)
      else
        let i := size evidenceArray in
        if bool_decide (0 ≤ i < Z.of_nat (length (evidence evidenceArray))) then
          put (mkEvidenceArray (<[Z.to_nat i := ev]> (evidence evidenceArray))
                 (i + 1) (capacity evidenceArray));;
          tell (Stdout "Collected evidence type %d, total count: %d."
                  [AInt ev; AInt (i + 1)]);;
          mret 1
        else undefined.

(** ** defs.h: hunters, rooms, ghost, house

    A pointer to a room is the room's address in the heap of rooms, [None]
    for [NULL].  A linked list ([RoomList], [EvidenceList]) is the list of its
    payloads in order; [RoomList.size], which [addRoom] increments with every
    node it appends, is the length of that list. *)

(** [struct Hunter], without the thread handle and the hunter's private
    evidence array, which no function below reads. *)
Record HunterType : Type := mkHunter {
  name : string;
  equipment : Z;
  fear : Z;
  boredom : Z;
  room : option nat
}.

(** [struct HunterArray]: the buffer and the number of entries in use. *)
Record HunterArrayType : Type := mkHunterArray {
  hunter : list HunterType;
  hsize : Z;
  hcapacity : Z
}.

(** [struct Room]; its [ghost] field is never read. *)
Record RoomType : Type := mkRoom {
  rname : string;
  evidencelist : option (list Z);
  hunterArray : option HunterArrayType;
  roomlist : option (list nat)
}.

(** [struct Ghost]. *)
Record GhostType : Type := mkGhost {
  groom : option nat;
  ghostType : GhostClass;
  boredomTime : Z
}.

(** [struct House]. *)
Record HouseType : Type := mkHouse {
  house_rooms : list nat;
  house_hunterArray : HunterArrayType;
  house_evidenceArray : EvidenceArrayType;
  hunterCount : Z
}.

(** The objects the threads share: the rooms (by address), the house, the
    ghost and the [gameOver] flag of [struct sharedState]. *)
Record World : Type := mkWorld {
  heap : list RoomType;
  house : HouseType;
  ghost : GhostType;
  gameOver : Z
}.

Definition set_fear (v : Z) (h : HunterType) : HunterType :=
  mkHunter (name h) (equipment h) v (boredom h) (room h).
Definition set_boredom (v : Z) (h : HunterType) : HunterType :=
  mkHunter (name h) (equipment h) (fear h) v (room h).
Definition set_room (r : option nat) (h : HunterType) : HunterType :=
  mkHunter (name h) (equipment h) (fear h) (boredom h) r.
Definition set_equipment (e : Z) (h : HunterType) : HunterType :=
  mkHunter (name h) e (fear h) (boredom h) (room h).

Definition set_hunterArray (a : HunterArrayType) (r : RoomType) : RoomType :=
  mkRoom (rname r) (evidencelist r) (Some a) (roomlist r).

Definition set_groom (r : option nat) (g : GhostType) : GhostType :=
  mkGhost r (ghostType g) (boredomTime g).

Definition set_house_hunterArray (a : HunterArrayType) (h : HouseType) : HouseType :=
  mkHouse (house_rooms h) a (house_evidenceArray h) (hunterCount h).
Definition set_house_evidenceArray (a : EvidenceArrayType) (h : HouseType) : HouseType :=
  mkHouse (house_rooms h) (house_hunterArray h) a (hunterCount h).
Definition set_hunterCount (c : Z) (h : HouseType) : HouseType :=
  mkHouse (house_rooms h) (house_hunterArray h) (house_evidenceArray h) c.

Definition set_heap (rs : list RoomType) (w : World) : World :=
  mkWorld rs (house w) (ghost w) (gameOver w).
Definition set_house (h : HouseType) (w : World) : World :=
  mkWorld (heap w) h (ghost w) (gameOver w).
Definition set_ghost (g : GhostType) (w : World) : World :=
  mkWorld (heap w) (house w) g (gameOver w).

(** The shared evidence array, [house->evidenceArray], as a part of the
    world. *)
Definition sharedEvidence {A} (m : M EvidenceArrayType A) : M World A :=
  zoom (λ w, house_evidenceArray (house w))
       (λ a w, set_house (set_house_evidenceArray a (house w)) w) m.

(** The hunter at [&house->hunterArray->hunter[i]]. *)
Definition read_hunter (i : nat) : M World HunterType :=
  w ← get; deref (hunter (house_hunterArray (house w)) !! i).

Definition write_hunter (i : nat) (h : HunterType) : M World unit :=
  w ← get;
  let arr := house_hunterArray (house w) in
  if bool_decide (i < length (hunter arr))%nat then
    put (set_house (set_house_hunterArray
           (mkHunterArray (<[i := h]> (hunter arr)) (hsize arr) (hcapacity arr))
           (house w)) w)
  else undefined.

(** The room at an address. *)
Definition read_room (r : nat) : M World RoomType :=
  w ← get; deref (heap w !! r).

(** ** evidence.c, continued *)

(** The loop of [doesEvidenceExist] over the nodes of the ledger. *)
Fixpoint doesEvidenceExist_loop (node : list Z) (hunterEquipment : Z) : Z :=
  match node with
  | [] => EV_UNKNOWN
  | ev :: next =>
      if bool_decide (ev = hunterEquipment) then ev
      else doesEvidenceExist_loop next hunterEquipment
  end.

(** [doesEvidenceExist]. *)
Definition doesEvidenceExist (room : option nat) (hunterEquipment : Z) : M World Z :=
  match room with
  | None =>
      tell (Stderr "Error: Invalid room or evidence list." []);; mret EV_UNKNOWN
  | Some r =>
      rm ← read_room r;
      match evidencelist rm with
      | None =>
          tell (Stderr "Error: Invalid room or evidence list." []);; mret EV_UNKNOWN
      | Some ehead => mret (doesEvidenceExist_loop ehead hunterEquipment)
      end
  end.

(** The first loop of [identifyGhostFromEvidence]: it reads [evidence[i]]
    for [todo] more indices and sets the flags of the values in range. *)
Fixpoint identify_flags (evidence : list Z) (i todo : nat) (evidenceFlags : list Z)
  : option (list Z) :=
  match todo with
  | O => Some evidenceFlags
  | S todo' =>
      match evidence !! i with
      | None => None
      | Some e =>
          if bool_decide (EMF ≤ e) && bool_decide (e ≤ SOUND) then
            identify_flags evidence (S i) todo' (<[Z.to_nat e := 1]> evidenceFlags)
          else identify_flags evidence (S i) todo' evidenceFlags
      end
  end.

(** [evidenceFlags[k]] as a C condition. *)
Definition flag_set (evidenceFlags : list Z) (k : Z) : bool :=
  bool_decide (default 0 (evidenceFlags !! Z.to_nat k) ≠ 0).

(** [identifyGhostFromEvidence]; [None] when the array has fewer than the
    three cells the function reads. *)
Definition identifyGhostFromEvidence (evidence : list Z) : option GhostClass :=
  evidenceFlags ← identify_flags evidence 0 3 [0; 0; 0; 0];
  if flag_set evidenceFlags EMF && flag_set evidenceFlags TEMPERATURE
     && flag_set evidenceFlags FINGERPRINTS then Some POLTERGEIST
  else if flag_set evidenceFlags EMF && flag_set evidenceFlags TEMPERATURE
     && flag_set evidenceFlags SOUND then Some BANSHEE
  else if flag_set evidenceFlags EMF && flag_set evidenceFlags FINGERPRINTS
     && flag_set evidenceFlags SOUND then Some BULLIES
  else if flag_set evidenceFlags TEMPERATURE && flag_set evidenceFlags FINGERPRINTS
     && flag_set evidenceFlags SOUND then Some PHANTOM
  else Some GH_UNKNOWN.

(** ** utils.c *)

(** [ghostToString]. *)
Definition ghostToString (ghost : GhostClass) : string :=
  match ghost with
  | BANSHEE => "Banshee"
  | BULLIES => "Bullies"
  | PHANTOM => "Phantom"
  | POLTERGEIST => "Poltergeist"
  | _ => "Unknown"
  end.

(** [reviewEv] (evidence.c), on the shared array and the ghost. *)
Definition reviewEv : M World unit :=
  w ← get;
  let evidenceArray := house_evidenceArray (house w) in
  if bool_decide (size evidenceArray ≠ 3) then
    tell (Stdout "Not enough evidence collected." [])
  else
    identifiedGhostType ← deref (identifyGhostFromEvidence (evidence evidenceArray));
    let ghostName := ghostToString identifiedGhostType in
    if bool_decide (identifiedGhostType = ghostType (ghost w)) then
      tell (Stdout "Correctly identified the ghost type as %s!" [AStr ghostName])
    else
      tell (Stdout "Incorrect ghost type. Further investigation needed." []).

(** *** Single-precision arithmetic

    [randFloat] computes in C's [float].  A finite binary32 value is held as
    [fm * 2 ^ fe]; every operation computes the exact result and rounds it to
    the 24 significant bits of the format, ties to even (the default rounding
    mode).  The magnitudes that occur here stay far from overflow and from the
    subnormal range, which are not modelled. *)
Record float : Type := mkFloat { fm : Z; fe : Z }.

(** Rounding of [m * 2 ^ e] to 24 significant bits. *)
Definition fround (m e : Z) : float :=
  let a := Z.abs m in
  if bool_decide (a < 2 ^ 24) then mkFloat m e
  else
    let s := Z.log2 a - 23 in
    let q := a / 2 ^ s in
    let rest := a mod 2 ^ s in
    let half := 2 ^ (s - 1) in
    let q' := if bool_decide (rest < half) then q
              else if bool_decide (half < rest) then q + 1
              else if Z.even q then q else q + 1 in
    mkFloat (Z.sgn m * q') (e + s).

(** Conversion of an [int] to [float]. *)
Definition float_of_int (n : Z) : float := fround n 0.

Definition fmul (a b : float) : float := fround (fm a * fm b) (fe a + fe b).

Definition fadd (a b : float) : float :=
  let e := Z.min (fe a) (fe b) in
  fround (fm a * 2 ^ (fe a - e) + fm b * 2 ^ (fe b - e)) e.

Definition fsub (a b : float) : float :=
  let e := Z.min (fe a) (fe b) in
  fround (fm a * 2 ^ (fe a - e) - fm b * 2 ^ (fe b - e)) e.

(** Division by a nonzero value: the quotient is computed with at least 26
    bits and one more bit that records whether it is inexact, which is enough
    to round it as the exact quotient rounds. *)
Definition fdiv (a b : float) : float :=
  if bool_decide (fm a = 0) then mkFloat 0 0
  else
    let k := Z.max 0 (27 + Z.log2 (Z.abs (fm b)) - Z.log2 (Z.abs (fm a))) in
    let num := Z.abs (fm a) * 2 ^ k in
    let q := num / Z.abs (fm b) in
    let sticky := if bool_decide (num mod Z.abs (fm b) = 0) then 0 else 1 in
    fround (Z.sgn (fm a) * Z.sgn (fm b) * (2 * q + sticky)) (fe a - fe b - k - 1).

(** Conversion of a [float] to [int]: the fraction is dropped. *)
Definition int_of_float (a : float) : Z :=
  if bool_decide (0 ≤ fe a) then fm a * 2 ^ fe a
  else Z.quot (fm a) (2 ^ (- fe a)).

(** [RAND_MAX] of the C library (glibc). *)
Definition RAND_MAX : Z := 2147483647.

(** [randFloat]: one draw [rand_r(&seed)] of the thread's generator, scaled
    into the range. *)
Definition randFloat {St} (min max : float) : M St float :=
  raw ← rand_r;
  let random := fdiv (float_of_int raw) (float_of_int RAND_MAX) in
  let diff := fsub max min in
  let r := fmul random diff in
  mret (fadd min r).

(** [randInt]. *)
Definition randInt {St} (min max : Z) : M St Z :=
  f ← randFloat (float_of_int min) (float_of_int max);
  mret (int_of_float f).

(** [randInt] on the single draw [raw]. *)
Definition randInt_of (min max raw : Z) : Z :=
  match randInt (St := unit) min max (λ _, raw) 0%nat tt with
  | Done v _ _ _ => v
  | _ => 0
  end.

(** [isGhostPresent], for the hunter at index [i] of the house's array. *)
Definition isGhostPresent (i : nat) : M World Z :=
  h ← read_hunter i;
  w ← get;
  mret (if bool_decide (room h = groom (ghost w)) then 1 else 0).

(** The walk [for (i = 0; i < index && current; i++) current = current->next]
    of [getRoomAtIndex] and of [moveToRandomRoomGhost]: the room of the node it
    stops at, [None] when it ran off the list. *)
Fixpoint getRoomAtIndex_loop (current : list nat) (i index : Z) : option nat :=
  match current with
  | [] => None
  | r :: next =>
      if bool_decide (i < index) then getRoomAtIndex_loop next (i + 1) index
      else Some r
  end.

(** [getRoomAtIndex]. *)
Definition getRoomAtIndex (roomList : list nat) (index : Z) : option nat :=
  getRoomAtIndex_loop roomList 0 index.

(** [getRandomRoomIndex]. *)
Definition getRandomRoomIndex {St} (roomCount : Z) : M St Z :=
  randInt 0 (roomCount - 1).

(** [moveToRandomRoomGhost]. *)
Definition moveToRandomRoomGhost : M World unit :=
  w ← get;
  match groom (ghost w) with
  | None => tell (Stderr "Error: Invalid ghost or room in repositionGhost." [])
  | Some r =>
      rm ← read_room r;
      match roomlist rm with
      | None => tell (Stderr "Error: Invalid ghost or room in repositionGhost." [])
      | Some roomList =>
          targetIndex ← randInt 0 (Z.of_nat (length roomList) - 1);
          match getRoomAtIndex_loop roomList 0 targetIndex with
          | Some target => put (set_ghost (set_groom (Some target) (ghost w)) w)
          | None => tell (Stderr "Error: Target room not found in repositionGhost." [])
          end
      end
  end.

(** ** evidence.c: what the ghost leaves *)

(** The choice of [determineEvidenceType] once the number is
    drawn; this is the table of the kinds a ghost class leaves behind. *)
Definition determineEvidenceType_of (ghostType : GhostClass) (choice : Z) : Z :=
  match ghostType with
  | POLTERGEIST =>
      if bool_decide (choice = 0) then EMF
      else if bool_decide (choice = 1) then TEMPERATURE else FINGERPRINTS
  | BANSHEE =>
      if bool_decide (choice = 0) then EMF
      else if bool_decide (choice = 1) then TEMPERATURE else SOUND
  | BULLIES =>
      if bool_decide (choice = 0) then EMF
      else if bool_decide (choice = 1) then FINGERPRINTS else SOUND
  | PHANTOM =>
      if bool_decide (choice = 0) then TEMPERATURE
      else if bool_decide (choice = 1) then FINGERPRINTS else SOUND
  | _ => EV_UNKNOWN
  end.

(** [determineEvidenceType]. *)
Definition determineEvidenceType {St} (ghostType : GhostClass) : M St Z :=
  choice ← randInt 0 3;
  mret (determineEvidenceType_of ghostType choice).

(** [addEv]: the ghost leaves one of its kinds in the ledger of
    its room. *)
Definition addEv : M World Z :=
  w ← get;
  match groom (ghost w) with
  | None =>
      tell (Stderr "Error: Invalid ghost or room configuration." []);;
      mret EV_UNKNOWN
  | Some r =>
      rm ← read_room r;
      match evidencelist rm with
      | None =>
          tell (Stderr "Error: Invalid ghost or room configuration." []);;
          mret EV_UNKNOWN
      | Some ledger =>
          evidenceToAdd ← determineEvidenceType (ghostType (ghost w));
          put (set_heap
                 (<[r := mkRoom (rname rm) (Some (ledger ++ [evidenceToAdd]))
                           (hunterArray rm) (roomlist rm)]> (heap w)) w);;
          mret evidenceToAdd
      end
  end.

(** ** hunter.c *)

(** [addHunter]: a copy of the hunter goes into the first free cell. *)
Definition addHunter (newHunter : HunterType) : M HunterArrayType Z :=
  arr ← get;
  if bool_decide (hcapacity arr ≤ hsize arr) then
    tell (Stderr "Error: Hunter array has reached its capacity." []);;
    mret (-1)
  else if bool_decide (0 ≤ hsize arr < Z.of_nat (length (hunter arr))) then
    put (mkHunterArray (<[Z.to_nat (hsize arr) := newHunter]> (hunter arr))
           (hsize arr + 1) (hcapacity arr));;
    mret 0
  else undefined.

(** The inner loop of [removeHunter]:
    [for (j = index; j < size - 1; j++) hunter[j] = hunter[j + 1]]. *)
Fixpoint removeHunter_shift (buf : list HunterType) (j todo : nat)
  : option (list HunterType) :=
  match todo with
  | O => Some buf
  | S todo' =>
      match buf !! S j with
      | None => None
      | Some x => removeHunter_shift (<[j := x]> buf) (S j) todo'
      end
  end.

(** The outer loop of [removeHunter], which looks for the name. *)
Fixpoint removeHunter_loop (arr : HunterArrayType) (hunter_name : string)
    (index todo : nat) : option HunterArrayType :=
  match todo with
  | O => Some arr
  | S todo' =>
      match hunter arr !! index with
      | None => None
      | Some entry =>
          if bool_decide (name entry = hunter_name) then
            buf ← removeHunter_shift (hunter arr) index
                    (Z.to_nat (hsize arr - 1 - Z.of_nat index));
            Some (mkHunterArray buf (hsize arr - 1) (hcapacity arr))
          else removeHunter_loop arr hunter_name (S index) todo'
      end
  end.

(** [removeHunter]. *)
Definition removeHunter (h : HunterType) : M HunterArrayType unit :=
  arr ← get;
  arr' ← deref (removeHunter_loop arr (name h) 0 (Z.to_nat (hsize arr)));
  put arr'.

(** A function called on [room->hunterArray] of the room at address [r];
    [on_null] is what it does with a [NULL] array. *)
Definition on_roster {A} (r : nat) (m : M HunterArrayType A) (on_null : M World A)
  : M World A :=
  rm ← read_room r;
  match hunterArray rm with
  | None => on_null
  | Some arr =>
      zoom (λ _, arr)
           (λ a w, set_heap (<[r := set_hunterArray a rm]> (heap w)) w) m
  end.

(** [updateHunterLocation] (utils.c); [hunter->room] is the room at [from]. *)
Definition updateHunterLocation (i : nat) (from newRoom : nat) : M World unit :=
  h ← read_hunter i;
  on_roster from (removeHunter h)
    (tell (Stderr "Error: Invalid parameters provided to removeHunter." []));;
  write_hunter i (set_room (Some newRoom) h);;
  on_roster newRoom (addHunter (set_room (Some newRoom) h))
    (tell (Stderr "Error: Invalid parameters provided to addHunter." []);; mret (-1));;
  mret tt.

(** [moveToRandomRoomHunter] (utils.c). *)
Definition moveToRandomRoomHunter (i : nat) : M World unit :=
  h ← read_hunter i;
  match room h with
  | None =>
      tell (Stderr "Error: Invalid hunter or house reference in relocateHunter." [])
  | Some r =>
      rm ← read_room r;
      roomList ← deref (roomlist rm);
      targetRoomIndex ← getRandomRoomIndex (Z.of_nat (length roomList));
      match getRoomAtIndex roomList targetRoomIndex with
      | Some newRoom => updateHunterLocation i r newRoom
      | None => tell (Stderr "Error: Target room not found in relocateHunter." [])
      end
  end.

(** The loop of [isSufficientEvidence] over the entries in use. *)
Fixpoint isSufficientEvidence_loop (buf : list Z) (i todo : nat)
    (evidenceOccurrence : list Z) : M EvidenceArrayType (list Z) :=
  match todo with
  | O => mret evidenceOccurrence
  | S todo' =>
      evType ← deref (buf !! i);
      if bool_decide (0 ≤ evType) && bool_decide (evType < MAX_EV) then
        n ← deref (evidenceOccurrence !! Z.to_nat evType);
        isSufficientEvidence_loop buf (S i) todo'
          (<[Z.to_nat evType := n + 1]> evidenceOccurrence)
      else
        tell (Stderr "Warning: Encountered invalid evidence type: %d" [AInt evType]);;
        isSufficientEvidence_loop buf (S i) todo' evidenceOccurrence
  end.

(** The second loop of [isSufficientEvidence]: the cells that are positive. *)
Fixpoint count_positive (cells : list Z) : Z :=
  match cells with
  | [] => 0
  | c :: rest => (if bool_decide (0 < c) then 1 else 0) + count_positive rest
  end.

(** [isSufficientEvidence]: [evidenceOccurrence] has [MAX_EV] cells. *)
Definition isSufficientEvidence : M EvidenceArrayType Z :=
  sharedEv ← get;
  evidenceOccurrence ←
    isSufficientEvidence_loop (evidence sharedEv) 0 (Z.to_nat (size sharedEv))
      (replicate (Z.to_nat MAX_EV) 0);
  mret (count_positive evidenceOccurrence).

(** [reviewEvidenceAndExitIfNeeded]. *)
Definition reviewEvidenceAndExitIfNeeded (i : nat) : M World unit :=
  h ← read_hunter i;
  n ← sharedEvidence isSufficientEvidence;
  if bool_decide (3 ≤ n) then
    tell (L_hunterReview (name h) LOG_SUFFICIENT);;
    pthread_exit
  else tell (L_hunterReview (name h) LOG_INSUFFICIENT).

(** [hunter->room->name], for the logger. *)
Definition room_name_of (h : HunterType) : M World string :=
  r ← deref (room h);
  rm ← read_room r;
  mret (rname rm).

(** [addEvidenceAndLog]. *)
Definition addEvidenceAndLog (i : nat) (collectedEv : Z) : M World Z :=
  h ← read_hunter i;
  added ← sharedEvidence (collectEv collectedEv);
  (if bool_decide (added ≠ 0) then
     rn ← room_name_of h;
     tell (L_hunterCollect (name h) collectedEv rn)
   else mret tt);;
  mret added.

(** [collectEvidenceIfNeeded]. *)
Definition collectEvidenceIfNeeded (i : nat) : M World unit :=
  h ← read_hunter i;
  collectedEv ← doesEvidenceExist (room h) (equipment h);
  if bool_decide (collectedEv ≠ EV_UNKNOWN) then
    added ← addEvidenceAndLog i collectedEv;
    if bool_decide (added = 0) then
      tell (Stdout "Error: Failed to add evidence to shared array" [])
    else mret tt
  else mret tt.

(** [performHunterAction]. *)
Definition performHunterAction (i : nat) : M World unit :=
  choice ← randInt 0 3;
  if bool_decide (choice = 0) then
    moveToRandomRoomHunter i;;
    h ← read_hunter i;
    rn ← room_name_of h;
    tell (L_hunterMove (name h) rn)
  else if bool_decide (choice = 1) then collectEvidenceIfNeeded i
  else if bool_decide (choice = 2) then reviewEvidenceAndExitIfNeeded i
  else mret tt.

(** [logHunterExit]. *)
Definition logHunterExit (h : HunterType) : M World unit :=
  tell (Stdout "Hunter %s has exited the game" [AStr (name h)]).

(** [decrementHunterCount]. *)
Definition decrementHunterCount : M HouseType unit :=
  hs ← get;
  if bool_decide (0 < hunterCount hs) then
    put (set_hunterCount (hunterCount hs - 1) hs)
  else
    tell (Stderr "Warning: Attempted to decrement hunter count below zero." []).

(** [updateHunterState], for the hunter at index [i] of the house's array;
    the other arguments are the ghost, the house, its evidence array and the
    shared state of the world. *)
Definition updateHunterState (i : nat) : M World unit :=
  ghostPresence ← isGhostPresent i;
  h ← read_hunter i;
  (if bool_decide (ghostPresence ≠ 0) then
     write_hunter i
       (set_boredom 0
          (set_fear (if bool_decide (fear h < FEAR_MAX) then fear h + 1 else FEAR_MAX) h))
   else
     write_hunter i
       (set_boredom
          (if bool_decide (boredom h < BOREDOM_MAX) then boredom h + 1 else BOREDOM_MAX) h));;
  h ← read_hunter i;
  if bool_decide (FEAR_MAX ≤ fear h) || bool_decide (BOREDOM_MAX ≤ boredom h) then
    logHunterExit h;;
    zoom house set_house decrementHunterCount;;
    pthread_exit
  else performHunterAction i.

(** The [do ... while (assignedEquipment[equipmentIndex])] loop of
    [assignRandomEquipment]; it has no bound of its own, [fuel] bounds the
    number of draws of its model. *)
Fixpoint draw_equipment (fuel : nat) (assignedEquipment : list Z)
  : M HunterArrayType Z :=
  match fuel with
  | O => out_of_fuel
  | S fuel' =>
      equipmentIndex ← randInt 0 (EV_COUNT - 1);
      taken ← (if bool_decide (0 ≤ equipmentIndex)
               then deref (assignedEquipment !! Z.to_nat equipmentIndex)
               else undefined);
      if bool_decide (taken ≠ 0) then draw_equipment fuel' assignedEquipment
      else mret equipmentIndex
  end.

(** The [for] loop of [assignRandomEquipment], with [todo] hunters left from
    index [i]. *)
Fixpoint assignRandomEquipment_loop (fuel : nat) (i todo : nat)
    (assignedEquipment : list Z) : M HunterArrayType unit :=
  match todo with
  | O => mret tt
  | S todo' =>
      equipmentIndex ← draw_equipment fuel assignedEquipment;
      arr ← get;
      h ← deref (hunter arr !! i);
      put (mkHunterArray (<[i := set_equipment equipmentIndex h]> (hunter arr))
             (hsize arr) (hcapacity arr));;
      assignRandomEquipment_loop fuel (S i) todo'
        (<[Z.to_nat equipmentIndex := 1]> assignedEquipment)
  end.

(** [assignRandomEquipment].  A [NULL] array or buffer has no counterpart: a
    hunter array without a buffer has size 0, which the guard rejects
    anyway. *)
Definition assignRandomEquipment (fuel : nat) (numHunters : Z)
  : M HunterArrayType unit :=
  hunters ← get;
  if bool_decide (numHunters ≤ 0) || bool_decide (hsize hunters < numHunters) then
    tell (Stderr "Error: Invalid parameters provided to assignRandomEquipment." [])
  else if bool_decide (EV_COUNT < numHunters) then
    tell (Stderr
      "Error: Number of hunters exceeds the number of available equipment types." [])
  else
    assignRandomEquipment_loop fuel 0 (Z.to_nat numHunters)
      (replicate (Z.to_nat EV_COUNT) 0).

(** ** main.c *)

(** The loop of [evaluateGameOutcome] over the hunters' fear. *)
Fixpoint fear_loop (buf : list HunterType) (i todo : nat) (fear_count : Z)
  : M World Z :=
  match todo with
  | O => mret fear_count
  | S todo' =>
      h ← deref (buf !! i);
      tell (Stdout "%s's fear level is %d" [AStr (name h); AInt (fear h)]);;
      fear_loop buf (S i) todo'
        (if bool_decide (100 ≤ fear h) then fear_count + 1 else fear_count)
  end.

(** The loop of [evaluateGameOutcome] over the hunters' boredom. *)
Fixpoint boredom_loop (buf : list HunterType) (i todo : nat) (boredom_count_hunter : Z)
  : M World Z :=
  match todo with
  | O => mret boredom_count_hunter
  | S todo' =>
      h ← deref (buf !! i);
      tell (Stdout "%s's boredom level is %d" [AStr (name h); AInt (boredom h)]);;
      boredom_loop buf (S i) todo'
        (if bool_decide (100 ≤ boredom h) then boredom_count_hunter + 1
         else boredom_count_hunter)
  end.

Definition ghost_won_line : Event := Stdout "The ghost has won the game!" [].
Definition hunters_won_line : Event := Stdout "The hunters have won the game!" [].
Definition ghost_left_line : Event := Stdout "The ghost got bored and left." [].

(** [evaluateGameOutcome]. *)
Definition evaluateGameOutcome : M World unit :=
  tell (Stdout "=================================" []);;
  tell (Stdout "All done! Let's tally the results..." []);;
  tell (Stdout "=================================" []);;
  w ← get;
  let hunters := house_hunterArray (house w) in
  fear_count ←
    (if bool_decide (hsize hunters = 0) then
       tell (Stdout "There are no hunters left in the house." []);;
       mret NUM_HUNTERS
     else fear_loop (hunter hunters) 0 (Z.to_nat (hsize hunters)) 0);
  boredom_count_hunter ←
    boredom_loop (hunter hunters) 0 (Z.to_nat (hsize hunters)) 0;
  tell (Stdout "The ghost's boredom level is %d" [AInt (boredomTime (ghost w))]);;
  reviewEv;;
  if bool_decide (fear_count = NUM_HUNTERS)
     || bool_decide (boredom_count_hunter = NUM_HUNTERS) then
    tell ghost_won_line
  else if bool_decide (size (house_evidenceArray (house w)) = 3)
          && bool_decide (boredomTime (ghost w) < 100) then
    tell hunters_won_line
  else tell ghost_left_line.

(** ** room.c and house.c: building the house

    Allocation is taken to succeed (on failure [createRoom], [addRoom] and
    [initHouse] end the process).  [junk] stands for the contents of memory
    that [malloc] hands out and nobody has written yet. *)

(** [initHunterArray] (hunter.c), as [initEvidenceArray]. *)
Definition initHunterArray (initial_capacity : Z) (fresh : option (list HunterType))
  : M HunterArrayType unit :=
  if bool_decide (initial_capacity ≤ 0) then
    tell (Stderr "Error: Invalid initial capacity provided." []);;
    put (mkHunterArray [] 0 0)
  else
    match fresh with
    | None =>
        tell (Stderr "Error: Memory allocation for hunters failed." []);;
        put (mkHunterArray [] 0 0)
    | Some cells => put (mkHunterArray cells 0 initial_capacity)
    end.

(** A hunter array as [initHunterArray] leaves it after a successful
    [malloc]. *)
Definition new_hunterArray (junk : HunterType) : HunterArrayType :=
  mkHunterArray (replicate (Z.to_nat NUM_HUNTERS) junk) 0 NUM_HUNTERS.

(** [createRoom] with [initRoom]: the new room's address. *)
Definition createRoom (junk : HunterType) (name : string) : M World nat :=
  w ← get;
  put (set_heap
         (heap w ++ [mkRoom (String.substring 0 (Z.to_nat (MAX_STR - 1)) name) (Some [])
                       (Some (new_hunterArray junk)) None]) w);;
  mret (length (heap w)).

(** [addRoom]: a new node at the tail. *)
Definition addRoom (roomList : list nat) (room : nat) : list nat := roomList ++ [room].

(** [initializeAndConnect]. *)
Definition initializeAndConnect (room otherRoom : nat) : M World unit :=
  rm ← read_room room;
  let roomList := default [] (roomlist rm) in
  w ← get;
  put (set_heap
         (<[room := mkRoom (rname rm) (evidencelist rm) (hunterArray rm)
                      (Some (addRoom roomList otherRoom))]> (heap w)) w).

(** [connectRooms]. *)
Definition connectRooms (room1 room2 : nat) : M World unit :=
  initializeAndConnect room1 room2;;
  initializeAndConnect room2 room1.

(** [populateRooms] (house.c). *)
Definition populateRooms (junk : HunterType) : M World unit :=
  van ← createRoom junk "Van";
  hallway ← createRoom junk "Hallway";
  master_bedroom ← createRoom junk "Master Bedroom";
  boys_bedroom ← createRoom junk "Boy's Bedroom";
  bathroom ← createRoom junk "Bathroom";
  basement ← createRoom junk "Basement";
  basement_hallway ← createRoom junk "Basement Hallway";
  right_storage_room ← createRoom junk "Right Storage Room";
  left_storage_room ← createRoom junk "Left Storage Room";
  kitchen ← createRoom junk "Kitchen";
  living_room ← createRoom junk "Living Room";
  garage ← createRoom junk "Garage";
  utility_room ← createRoom junk "Utility Room";
  connectRooms van hallway;;
  connectRooms hallway master_bedroom;;
  connectRooms hallway boys_bedroom;;
  connectRooms hallway bathroom;;
  connectRooms hallway kitchen;;
  connectRooms hallway basement;;
  connectRooms basement basement_hallway;;
  connectRooms basement_hallway right_storage_room;;
  connectRooms basement_hallway left_storage_room;;
  connectRooms kitchen living_room;;
  connectRooms kitchen garage;;
  connectRooms garage utility_room;;
  modify (λ w,
    set_house
      (mkHouse
         (foldl addRoom (house_rooms (house w))
            [van; hallway; master_bedroom; boys_bedroom; bathroom; basement;
             basement_hallway; right_storage_room; left_storage_room; kitchen;
             living_room; garage; utility_room])
         (house_hunterArray (house w)) (house_evidenceArray (house w))
         (hunterCount (house w))) w).

(** [initHouse].  [cells] is the fresh buffer of the shared evidence array. *)
Definition initHouse (junk : HunterType) (cells : list Z) : M World unit :=
  modify (set_heap []);;
  modify (set_house (mkHouse [] (new_hunterArray junk) (mkEvidenceArray [] 0 0) NUM_HUNTERS));;
  sharedEvidence (initEvidenceArray MAX_EV (Some cells)).

(** [initHunter] (hunter.c) on a local variable that holds [junk]: a name
    that is too long leaves it as it was. *)
Definition initHunter (junk : HunterType) (hname : string) (equipment : Z)
    (room : option nat) : M World HunterType :=
  if bool_decide (Z.of_nat (String.length hname) < MAX_STR) then
    mret (mkHunter hname equipment 0 0 room)
  else
    tell (Stdout "Error: Name is too long in initHunter" []);;
    mret junk.

(** [initializeHunters] (main.c), one name after the other. *)
Fixpoint initializeHunters (junk : HunterType) (names : list string) : M World unit :=
  match names with
  | [] => mret tt
  | hname :: rest =>
      w ← get;
      vanRoom ← deref (head (house_rooms (house w)));
      h ← initHunter junk hname EV_UNKNOWN (Some vanRoom);
      zoom (λ w, house_hunterArray (house w))
           (λ a w, set_house (set_house_hunterArray a (house w)) w) (addHunter h);;
      on_roster vanRoom (addHunter h)
        (tell (Stderr "Error: Invalid parameters provided to addHunter." []);;
         mret (-1));;
      initializeHunters junk rest
  end.

(** [initGhost] (ghost.c), without its log line. *)
Definition initGhost (type : GhostClass) (room : option nat) : M World unit :=
  modify (set_ghost (mkGhost room type 0)).

(** The start of [main] up to the equipment: the house, a ghost of class
    [type] in [room], and the hunters in the van. *)
Definition setup (junk : HunterType) (cells : list Z) (type : GhostClass)
    (room : option nat) (names : list string) : M World unit :=
  initHouse junk cells;;
  populateRooms junk;;
  initGhost type room;;
  initializeHunters junk names.

(** ** utils.c, continued *)

(** The cast [(enum GhostClass) v] of an [int]; [randInt(0, GHOST_COUNT)]
    returns no other value than these. *)
Definition GhostClass_of_int (v : Z) : option GhostClass :=
  if bool_decide (v = 0) then Some POLTERGEIST
  else if bool_decide (v = 1) then Some BANSHEE
  else if bool_decide (v = 2) then Some BULLIES
  else if bool_decide (v = 3) then Some PHANTOM
  else if bool_decide (v = 4) then Some GHOST_COUNT
  else if bool_decide (v = 5) then Some GH_UNKNOWN
  else None.

(** [enum GhostClass] as the [int] it is. *)
Definition int_of_GhostClass (g : GhostClass) : Z :=
  match g with
  | POLTERGEIST => 0
  | BANSHEE => 1
  | BULLIES => 2
  | PHANTOM => 3
  | GHOST_COUNT => 4
  | GH_UNKNOWN => 5
  end.

(** [randomGhost]. *)
Definition randomGhost {St} : M St GhostClass :=
  v ← randInt 0 (int_of_GhostClass GHOST_COUNT);
  deref (GhostClass_of_int v).

(** [evidenceToString]. *)
Definition evidenceToString (type : Z) : string :=
  if bool_decide (type = EMF) then "EMF"
  else if bool_decide (type = TEMPERATURE) then "TEMPERATURE"
  else if bool_decide (type = FINGERPRINTS) then "FINGERPRINTS"
  else if bool_decide (type = SOUND) then "SOUND"
  else "UNKNOWN".

(** [isValidGhostAndHunterList]. *)
Definition isValidGhostAndHunterList (hunters : HunterArrayType) (numHunters : Z) : Z :=
  if bool_decide (0 < hsize hunters) && bool_decide (0 < numHunters) then 1 else 0.

(** [isSameRoom]. *)
Definition isSameRoom (room1 room2 : option nat) : Z :=
  if bool_decide (room1 ≠ None) && bool_decide (room2 ≠ None)
     && bool_decide (room1 = room2) then 1 else 0.

(** The loop of [isHunterPresent] over [list->hunter[i]], with [todo]
    iterations left from index [i]; [None] when it reads outside the
    buffer. *)
Fixpoint isHunterPresent_loop (groom : option nat) (buf : list HunterType) (i todo : nat)
  : option Z :=
  match todo with
  | O => Some 0
  | S todo' =>
      match buf !! i with
      | None => None
      | Some h =>
          if bool_decide (isSameRoom groom (room h) ≠ 0) then Some 1
          else isHunterPresent_loop groom buf (S i) todo'
      end
  end.

(** [isHunterPresent], on the ghost and the house's hunter array, which is
    the array the ghost's thread is given. *)
Definition isHunterPresent (numHunters : Z) : M World Z :=
  w ← get;
  let hunters := house_hunterArray (house w) in
  if bool_decide (isValidGhostAndHunterList hunters numHunters = 0) then mret 0
  else
    deref (isHunterPresent_loop (groom (ghost w)) (hunter hunters) 0
             (Z.to_nat (hsize hunters))).

(** [countNonVanRooms]: the loop over the nodes, with the count so far. *)
Fixpoint countNonVanRooms_loop (current : list nat) (count : Z) : M World Z :=
  match current with
  | [] => mret count
  | r :: next =>
      rm ← read_room r;
      countNonVanRooms_loop next
        (if bool_decide (rname rm ≠ "Van") then count + 1 else count)
  end.

Definition countNonVanRooms (roomList : list nat) : M World Z :=
  countNonVanRooms_loop roomList 0.

(** [findRoomByIndex]. *)
Fixpoint findRoomByIndex (current : list nat) (index : Z) : M World (option nat) :=
  match current with
  | [] => mret None
  | r :: next =>
      rm ← read_room r;
      if bool_decide (rname rm ≠ "Van") then
        if bool_decide (index = 0) then mret (Some r)
        else findRoomByIndex next (index - 1)
      else findRoomByIndex next index
  end.

(** [getRandomRoomExcludeVan]; [raw] is what its call of [rand()] returns. *)
Definition getRandomRoomExcludeVan (raw : Z) : M World (option nat) :=
  w ← get;
  match house_rooms (house w) with
  | [] =>
      tell (Stderr "Error: Invalid house structure in selectRandomNonVanRoom." []);;
      mret None
  | _ =>
      totalRooms ← countNonVanRooms (house_rooms (house w));
      if bool_decide (totalRooms ≤ 0) then
        tell (Stderr "Error: No valid rooms available apart from 'Van'." []);;
        mret None
      else findRoomByIndex (house_rooms (house w)) (Z.rem raw totalRooms)
  end.

(** ** ghost.c *)

Definition set_boredomTime (b : Z) (g : GhostType) : GhostType :=
  mkGhost (groom g) (ghostType g) b.

Definition set_gameOver (v : Z) (w : World) : World :=
  mkWorld (heap w) (house w) (ghost w) v.

(** [ghost->room->name], for the logger. *)
Definition ghost_room_name : M World string :=
  w ← get;
  r ← deref (groom (ghost w));
  rm ← read_room r;
  mret (rname rm).

(** [updateGhost]; [numHunters] is the value of the context's field of that
    name, and the hunters are those of the house's array. *)
Definition updateGhost (numHunters : Z) : M World unit :=
  isHunterInRoom ← isHunterPresent numHunters;
  modify (λ w,
    set_ghost
      (set_boredomTime
         (if bool_decide (isHunterInRoom ≠ 0) then 0 else boredomTime (ghost w) + 1)
         (ghost w)) w);;
  w ← get;
  if bool_decide (BOREDOM_MAX ≤ boredomTime (ghost w)) then
    tell (L_ghostExit LOG_BORED);;
    modify (set_gameOver 1);;
    pthread_exit
  else
    choice ← randInt 0 3;
    if bool_decide (choice = 0) then mret tt
    else if bool_decide (choice = 1) then
      match groom (ghost w) with
      | Some _ =>
          ev ← addEv;
          rn ← ghost_room_name;
          tell (L_ghostEvidence ev rn)
      | None => mret tt
      end
    else if bool_decide (choice = 2) then
      if bool_decide (isHunterInRoom = 0) && bool_decide (groom (ghost w) ≠ None) then
        moveToRandomRoomGhost;;
        rn ← ghost_room_name;
        tell (L_ghostMove rn)
      else mret tt
    else mret tt.

(** The [for] loop of [ghostBehaviour].  It has no bound of its own; [fuel]
    bounds the number of rounds of its model. *)
Fixpoint ghostBehaviour_loop (fuel : nat) (numHunters : Z) : M World unit :=
  match fuel with
  | O => out_of_fuel
  | S fuel' =>
      w ← get;
      if bool_decide (boredomTime (ghost w) < BOREDOM_MAX) && bool_decide (gameOver w = 0)
      then
        updateGhost numHunters;;
        w ← get;
        if bool_decide (BOREDOM_MAX ≤ boredomTime (ghost w)) then modify (set_gameOver 1)
        else ghostBehaviour_loop fuel' numHunters
      else mret tt
  end.

(** [ghostBehaviour], the ghost's thread with no other thread running
    between its rounds; [self] is what [pthread_self] returns. *)
Definition ghostBehaviour (fuel : nat) (self numHunters : Z) : M World unit :=
  tell (Stdout "Ghost thread id: %lu" [AInt self]);;
  ghostBehaviour_loop fuel numHunters;;
  pthread_exit.

(** ** hunter.c: the hunter's thread *)

(** The [for] loop of [hunterBehaviour] for the hunter at index [i] of the
    house's array, with [fuel] for the number of rounds. *)
Fixpoint hunterBehaviour_loop (fuel : nat) (i : nat) : M World unit :=
  match fuel with
  | O => out_of_fuel
  | S fuel' =>
      h ← read_hunter i;
      w ← get;
      if bool_decide (fear h < FEAR_MAX) && bool_decide (boredom h < BOREDOM_MAX)
         && bool_decide (gameOver w = 0)
      then
        updateHunterState i;;
        w ← get;
        if bool_decide (hunterCount (house w) = 0)
           || bool_decide (3 ≤ size (house_evidenceArray (house w)))
        then modify (set_gameOver 1)
        else hunterBehaviour_loop fuel' i
      else mret tt
  end.

(** [hunterBehaviour], the hunter's thread with no other thread running
    between its rounds. *)
Definition hunterBehaviour (fuel : nat) (i : nat) : M World unit :=
  hunterBehaviour_loop fuel i;;
  pthread_exit.

(** * Vocabulary of the statements *)

(** The shape of the shared array between calls: the buffer of [MAX_EV] cells
    that [initHouse] allocated, a size within it, no kind twice among the
    entries in use. *)
Record pool_ok (pool : EvidenceArrayType) : Prop := mk_pool_ok {
  pool_buffer : Z.of_nat (length (evidence pool)) = MAX_EV;
  pool_capacity : capacity pool = MAX_EV;
  pool_size : 0 ≤ size pool ≤ MAX_EV;
  pool_nodup : NoDup (collected pool)
}.

(** The array after [evidence[size++] = ev]. *)
Definition pushed (ev : Z) (pool : EvidenceArrayType) : EvidenceArrayType :=
  mkEvidenceArray (<[Z.to_nat (size pool) := ev]> (evidence pool))
    (size pool + 1) (capacity pool).

(** A sequence of calls, one after the other (the semaphore serialises
    them), with their results. *)
Fixpoint collect_all (kinds : list Z) : M EvidenceArrayType (list Z) :=
  match kinds with
  | [] => mret []
  | ev :: rest =>
      r ← collectEv ev;
      rs ← collect_all rest;
      mret (r :: rs)
  end.

(** The three kinds of a ghost class. *)
Definition evidence_subset (g : GhostClass) : list Z :=
  map (determineEvidenceType_of g) [0; 1; 2].

(** The four ghost classes that are ghosts. *)
Definition ghost_classes : list GhostClass := [POLTERGEIST; BANSHEE; BULLIES; PHANTOM].

(** The values of an array that are evidence kinds. *)
Definition valid_kinds (evidence : list Z) : list Z :=
  filter (λ e, EMF ≤ e ≤ SOUND) evidence.

(** Two lists hold the same kinds. *)
Definition same_kinds (l1 l2 : list Z) : Prop := ∀ k, k ∈ l1 ↔ k ∈ l2.

(** A list holds (at least) three kinds that differ from one another. *)
Definition three_distinct (l : list Z) : Prop :=
  ∃ a b c, a ≠ b ∧ a ≠ c ∧ b ≠ c ∧ a ∈ l ∧ b ∈ l ∧ c ∈ l.

(** [k] calls of [decrementHunterCount], one after the other. *)
Fixpoint decrements (k : nat) : M HouseType unit :=
  match k with
  | O => mret tt
  | S k' => decrementHunterCount;; decrements k'
  end.

(** ** Sample worlds *)

Definition junk_hunter : HunterType := mkHunter "" EV_UNKNOWN 0 0 None.

Definition blank_world : World :=
  mkWorld [] (mkHouse [] (mkHunterArray [] 0 0) (mkEvidenceArray [] 0 0) 0)
    (mkGhost None GH_UNKNOWN 0) 0.

(** The world a computation leaves when it returns. *)
Definition world_after {A} (m : M World A) (w : World) : World :=
  match m (λ _, 0) 0%nat w with
  | Done _ w' _ _ => w'
  | _ => w
  end.

(** The world at the start of a game: four hunters in the van, a banshee in
    the garage (room 11). *)
Definition start_world : World := Eval vm_compute in
  world_after
    (setup junk_hunter [0; 0; 0] BANSHEE (Some 11%nat) ["Ann"; "Bob"; "Cy"; "Di"])
    blank_world.

(** The start of a game after the hunters have collected the banshee's three
    kinds. *)
Definition banshee_world : World := Eval vm_compute in
  world_after (sharedEvidence (collect_all [EMF; TEMPERATURE; SOUND])) start_world.

(** The start of a game after the ghost has left EMF in the garage. *)
Definition haunted_world : World := Eval vm_compute in world_after addEv start_world.

(** A hunter of that name is listed in the roster of the room at [r]. *)
Definition in_roster (w : World) (r : nat) (hname : string) : Prop :=
  ∃ rm arr,
    heap w !! r = Some rm
    ∧ hunterArray rm = Some arr
    ∧ hname ∈ map name (take (Z.to_nat (hsize arr)) (hunter arr)).

(** The start of a game, but with Ann one tick away from being bored out. *)
Definition bored_world : World := Eval vm_compute in
  world_after (h ← read_hunter 0; write_hunter 0 (set_boredom (BOREDOM_MAX - 1) h))
    start_world.

(** The four hunters scared out: each with fear at [FEAR_MAX], each having
    taken itself off the house's count. *)
Definition scared_world : World := Eval vm_compute in
  world_after
    (a ← read_hunter 0; write_hunter 0 (set_fear FEAR_MAX a);;
     b ← read_hunter 1; write_hunter 1 (set_fear FEAR_MAX b);;
     c ← read_hunter 2; write_hunter 2 (set_fear FEAR_MAX c);;
     d ← read_hunter 3; write_hunter 3 (set_fear FEAR_MAX d);;
     zoom house set_house (decrements 4))
    start_world.

(** ** Random sources *)

(** The draws are values [rand_r] can return. *)
Definition valid_draws (rnd : nat → Z) : Prop := ∀ m, 0 ≤ rnd m ≤ RAND_MAX.

(** From any point on, the source has a draw that [randInt(0, EV_COUNT - 1)]
    takes to [k], for every index [k] of the equipment table. *)
Definition offers_every_index (rnd : nat → Z) : Prop :=
  ∀ n k, 0 ≤ k < EV_COUNT →
    ∃ m, (n ≤ m)%nat ∧ randInt_of 0 (EV_COUNT - 1) (rnd m) = k.

(** A source that goes round four draws, which [randInt(0, 3)] takes to 0, 1,
    2 and 3. *)
Definition cycling_source (m : nat) : Z :=
  match (m mod 4)%nat with
  | 0%nat => 0
  | 1%nat => 1073741824
  | 2%nat => 1431655766
  | _ => RAND_MAX
  end.

(** ** Values of the single-precision model *)

(** The integer that the rounding of the integer [m] stands for. *)
Definition rn (m : Z) : Z := fm (fround m 0) * 2 ^ fe (fround m 0).

(** The value of a float in units of [2 ^ -64]. *)
Definition sv (f : float) : Z := fm f * 2 ^ (fe f + 64).

(** ** The verdict in closed form *)

(** The number of hunters, among those listed, whose level [f] is at 100 or
    above. *)
Definition count_at_100 (f : HunterType → Z) (hs : list HunterType) : Z :=
  Z.of_nat (length (filter (λ h, 100 ≤ f h) hs)).

(** The hunters in use in the house's array. *)
Definition house_hunters (w : World) : list HunterType :=
  take (Z.to_nat (hsize (house_hunterArray (house w))))
    (hunter (house_hunterArray (house w))).

(** The verdict line that [evaluateGameOutcome] ends with. *)
Definition verdict_line (w : World) : Event :=
  if bool_decide (hsize (house_hunterArray (house w)) = 0
                  ∨ count_at_100 fear (house_hunters w) = NUM_HUNTERS
                  ∨ count_at_100 boredom (house_hunters w) = NUM_HUNTERS)
  then ghost_won_line
  else if bool_decide (size (house_evidenceArray (house w)) = 3
                       ∧ boredomTime (ghost w) < 100)
  then hunters_won_line
  else ghost_left_line.

(** A result with the output [o] printed before its own. *)
Definition prepend {St A} (o : list Event) (r : Result St A) : Result St A :=
  match r with
  | Done a s n o' => Done a s n (o ++ o')
  | Exited s n o' => Exited s n (o ++ o')
  | Undefined => Undefined
  | OutOfFuel => OutOfFuel
  end.

(** ** Hunter arrays *)

(** The entries in use of a hunter array: [hunter[0 .. size-1]]. *)
Definition in_use (arr : HunterArrayType) : list HunterType :=
  take (Z.to_nat (hsize arr)) (hunter arr).

(** A list of hunters without its first entry of the given name. *)
Fixpoint without_first (hname : string) (hs : list HunterType) : list HunterType :=
  match hs with
  | [] => []
  | h :: rest =>
      if bool_decide (name h = hname) then rest else h :: without_first hname rest
  end.

(** ** The rooms as a graph *)

(** The neighbours of the room at [r], in the order of its room list. *)
Definition neighbours (w : World) (r : nat) : list nat :=
  match heap w !! r with
  | Some rm => default [] (roomlist rm)
  | None => []
  end.

(** Every connection goes both ways. *)
Definition symmetric_house (w : World) : Prop :=
  ∀ a b, b ∈ neighbours w a ↔ a ∈ neighbours w b.

(** The room at [r] exists and is not the van. *)
Definition is_non_van (w : World) (r : nat) : bool :=
  match heap w !! r with
  | Some rm => bool_decide (rname rm ≠ "Van")
  | None => false
  end.

(** The rooms of the house that are not the van, in the order of the
    house's list. *)
Definition non_van_rooms (w : World) : list nat :=
  filter (λ r, is_non_van w r = true) (house_rooms (house w)).

(** ** More sample worlds *)

(** The banshee's three kinds are in the pool, the ghost has left EMF in the
    van, and Ann carries the EMF reader. *)
Definition emf_van_world : World := Eval vm_compute in
  world_after
    (modify (set_ghost (mkGhost (Some 0%nat) BANSHEE 0));;
     addEv;;
     modify (set_ghost (mkGhost (Some 11%nat) BANSHEE 0));;
     h ← read_hunter 0;
     write_hunter 0 (set_equipment EMF h))
    banshee_world.

(** ** What a run ends with *)

(** The run returned with a value and a state that satisfy [Q], or ended the
    thread in a state that satisfies [E]; it did not step outside the
    behaviour C defines and did not run out of fuel. *)
Definition outcome {St A} (Q : A → St → Prop) (E : St → Prop) (r : Result St A) : Prop :=
  match r with
  | Done a s _ _ => Q a s
  | Exited s _ _ => E s
  | Undefined => False
  | OutOfFuel => False
  end.

(** ** Well-formed worlds *)

(** A hunter array whose size is within its capacity and whose capacity is
    within its buffer. *)
Definition roster_ok (arr : HunterArrayType) : Prop :=
  0 ≤ hsize arr ≤ hcapacity arr ∧ hcapacity arr ≤ Z.of_nat (length (hunter arr)).

(** The shape of the world of a running game: the rosters and the house's
    hunter array are within their buffers, every room has a room list and its
    entries are rooms, the hunters in use stand in rooms, the ghost's room, if
    it has one, is a room, and the shared pool is as [collectEv] keeps it. *)
Record world_ok (w : World) : Prop := mk_world_ok {
  ok_rosters : ∀ r rm arr,
    heap w !! r = Some rm → hunterArray rm = Some arr → roster_ok arr;
  ok_doors : ∀ r rm,
    heap w !! r = Some rm →
    ∃ l, roomlist rm = Some l ∧ ∀ r', r' ∈ l → (r' < length (heap w))%nat;
  ok_hunters : roster_ok (house_hunterArray (house w));
  ok_placed : ∀ h,
    h ∈ house_hunters w → ∃ r, room h = Some r ∧ (r < length (heap w))%nat;
  ok_ghost : ∀ r, groom (ghost w) = Some r → (r < length (heap w))%nat;
  ok_pool : pool_ok (house_evidenceArray (house w))
}.

(** ** What a hunter's tick changes *)

(** Two states of a room that differ in the roster at most. *)
Definition same_but_roster (rm rm' : RoomType) : Prop :=
  rname rm' = rname rm ∧ evidencelist rm' = evidencelist rm ∧ roomlist rm' = roomlist rm.

(** The fear and the boredom of a hunter are as they were. *)
Definition same_levels (h h' : HunterType) : Prop :=
  fear h' = fear h ∧ boredom h' = boredom h.

(** The fear and the boredom of a hunter after a tick, with the ghost in its
    room or not. *)
Definition tick_levels (ghostPresence : bool) (h h' : HunterType) : Prop :=
  if ghostPresence then
    fear h' = (if bool_decide (fear h < FEAR_MAX) then fear h + 1 else FEAR_MAX)
    ∧ boredom h' = 0
  else
    fear h' = fear h
    ∧ boredom h'
      = (if bool_decide (boredom h < BOREDOM_MAX) then boredom h + 1 else BOREDOM_MAX).

(** What the hunter at index [i] may have changed between [w] and [w']: the
    rosters of the rooms, its own entry of the house's array (its name and
    equipment excepted, its levels as [levels] says), the shared pool, which
    has grown at most, and the count of the hunters, which has not gone up nor
    below zero. *)
Record hunter_step (levels : HunterType → HunterType → Prop) (i : nat) (w w' : World)
  : Prop := mk_hunter_step {
  hs_ghost : ghost w' = ghost w;
  hs_flag : gameOver w' = gameOver w;
  hs_rooms : house_rooms (house w') = house_rooms (house w);
  hs_heap_length : length (heap w') = length (heap w);
  hs_heap : ∀ r rm,
    heap w !! r = Some rm → ∃ rm', heap w' !! r = Some rm' ∧ same_but_roster rm rm';
  hs_hsize : hsize (house_hunterArray (house w')) = hsize (house_hunterArray (house w));
  hs_hcapacity :
    hcapacity (house_hunterArray (house w')) = hcapacity (house_hunterArray (house w));
  hs_buffer :
    length (hunter (house_hunterArray (house w')))
    = length (hunter (house_hunterArray (house w)));
  hs_others : ∀ j,
    j ≠ i →
    hunter (house_hunterArray (house w')) !! j = hunter (house_hunterArray (house w)) !! j;
  hs_self : ∀ h,
    hunter (house_hunterArray (house w)) !! i = Some h →
    ∃ h', hunter (house_hunterArray (house w')) !! i = Some h'
          ∧ name h' = name h ∧ equipment h' = equipment h ∧ levels h h';
  hs_pool :
    collected (house_evidenceArray (house w))
      `prefix_of` collected (house_evidenceArray (house w'));
  hs_count :
    hunterCount (house w') ≤ hunterCount (house w)
    ∧ (0 ≤ hunterCount (house w) → 0 ≤ hunterCount (house w'))
}.

(** The state [w'] after a step of the hunter at [i] from [w], with a
    property [I] of the world that the step has kept. *)
Definition stepped_with (I : World → Prop) (levels : HunterType → HunterType → Prop)
    (i : nat) (w w' : World) : Prop :=
  world_ok w' ∧ hunter_step levels i w w' ∧ I w'.

(** ** Rosters and the rooms of the hunters *)

(** The names on the roster of the room at [r]. *)
Definition roster_names (w : World) (r : nat) : list string :=
  match heap w !! r with
  | Some rm =>
      match hunterArray rm with
      | Some arr => map name (in_use arr)
      | None => []
      end
  | None => []
  end.

(** The names of the hunters of the house whose room is the room at [r]. *)
Definition names_in (w : World) (r : nat) : list string :=
  map name (filter (λ h, room h = Some r) (house_hunters w)).

(** The names of those hunters, the one at index [i] of the house's array
    left out. *)
Definition other_names_in (w : World) (i : nat) (r : nat) : list string :=
  map name (filter (λ h, room h = Some r) (delete i (house_hunters w))).

(** The roster of every room lists the hunters that stand in it, by name and
    as often as there are hunters of that name in the room; every room has a
    roster, with room for all the hunters of the house. *)
Record rosters_agree (w : World) : Prop := mk_rosters_agree {
  ra_names : ∀ r, (r < length (heap w))%nat → roster_names w r ≡ₚ names_in w r;
  ra_room : ∀ r rm,
    heap w !! r = Some rm →
    ∃ arr, hunterArray rm = Some arr
           ∧ hsize (house_hunterArray (house w)) ≤ hcapacity arr
}.

(** ** What the ghost sees and changes *)

(** A hunter in use stands in the room of the ghost. *)
Definition hunter_in_ghost_room (w : World) : Prop :=
  ∃ h, h ∈ house_hunters w ∧ is_Some (groom (ghost w)) ∧ room h = groom (ghost w).

(** Two states of a ledger: the second holds the entries of the first and
    then, maybe, more. *)
Definition ledger_grown (l l' : option (list Z)) : Prop :=
  match l, l' with
  | Some entries, Some entries' => entries `prefix_of` entries'
  | None, None => True
  | _, _ => False
  end.

(** Two states of a room that differ in the ledger at most, which has grown
    at most. *)
Definition same_but_ledger (rm rm' : RoomType) : Prop :=
  rname rm' = rname rm
  ∧ hunterArray rm' = hunterArray rm
  ∧ roomlist rm' = roomlist rm
  ∧ ledger_grown (evidencelist rm) (evidencelist rm').

(** What a tick of the ghost may have changed between [w] and [w']: the
    ledgers of the rooms, which have grown at most, and its own room and
    boredom. *)
Record ghost_step (w w' : World) : Prop := mk_ghost_step {
  gs_house : house w' = house w;
  gs_type : ghostType (ghost w') = ghostType (ghost w);
  gs_heap_length : length (heap w') = length (heap w);
  gs_heap : ∀ r rm,
    heap w !! r = Some rm → ∃ rm', heap w' !! r = Some rm' ∧ same_but_ledger rm rm';
  gs_room :
    groom (ghost w') = groom (ghost w)
    ∨ ∃ r r', groom (ghost w) = Some r ∧ groom (ghost w') = Some r'
              ∧ r' ∈ neighbours w r
}.

(** ** The house before the hunters come *)

(** The world that [initHouse], [populateRooms] and [initGhost] build: the
    thirteen rooms, no hunter yet, the ghost of class [type] in [room];
    [flag] is the value of [gameOver]. *)
Definition built (junk : HunterType) (cells : list Z) (type : GhostClass)
    (room : option nat) (flag : Z) : World := Eval vm_compute in
  world_after (initHouse junk cells;; populateRooms junk;; initGhost type room)
    (mkWorld [] (mkHouse [] (mkHunterArray [] 0 0) (mkEvidenceArray [] 0 0) 0)
       (mkGhost None GH_UNKNOWN 0) flag).

(** * Properties *)

(** ** The monad: what a run is made of *)

Lemma run_bind {St A B} (m : M St A) (f : A → M St B) rnd n s :
  (m ≫= f) rnd n s =
    match m rnd n s with
    | Done a s1 n1 o1 =>
        match f a rnd n1 s1 with
        | Done b s2 n2 o2 => Done b s2 n2 (o1 ++ o2)
        | Exited s2 n2 o2 => Exited s2 n2 (o1 ++ o2)
        | Undefined => Undefined
        | OutOfFuel => OutOfFuel
        end
    | Exited s1 n1 o1 => Exited s1 n1 o1
    | Undefined => Undefined
    | OutOfFuel => OutOfFuel
    end.
Proof. reflexivity. Qed.

Lemma run_ret {St A} (a : A) rnd n (s : St) :
  (mret a : M St A) rnd n s = Done a s n [].
Proof. reflexivity. Qed.

(** ** The loop of isEvidenceCollected *)

Lemma isEvidenceCollected_loop_spec (buf : list Z) ev i todo :
  (i + todo ≤ length buf)%nat →
  isEvidenceCollected_loop buf ev i todo
  = Some (if bool_decide (ev ∈ take todo (drop i buf)) then 1 else 0).
Proof.
  revert i. induction todo as [|todo IH]; intros i Hlen; simpl.
  - reflexivity.
  - destruct (buf !! i) as [x|] eqn:Hx.
    2: { apply lookup_ge_None in Hx. lia. }
    rewrite (drop_S _ _ _ Hx). simpl.
    case_bool_decide as Hxe.
    + subst x. rewrite bool_decide_eq_true_2; [done | left].
    + rewrite IH by lia.
      rewrite (bool_decide_ext (ev ∈ x :: take todo (drop (S i) buf))
                 (ev ∈ take todo (drop (S i) buf))); [done |].
      rewrite elem_of_cons. intuition congruence.
Qed.

Lemma isEvidenceCollected_spec (arr : EvidenceArrayType) ev rnd n :
  0 ≤ size arr ≤ Z.of_nat (length (evidence arr)) →
  isEvidenceCollected ev rnd n arr
  = Done (if bool_decide (ev ∈ collected arr) then 1 else 0) arr n [].
Proof.
  intros Hsz. unfold isEvidenceCollected. rewrite run_bind. simpl.
  rewrite isEvidenceCollected_loop_spec by lia.
  rewrite drop_0. reflexivity.
Qed.

(** ** collectEv on the shared pool *)

Lemma collected_pushed ev pool :
  0 ≤ size pool < Z.of_nat (length (evidence pool)) →
  collected (pushed ev pool) = collected pool ++ [ev].
Proof.
  intros Hsz. unfold collected, pushed. simpl.
  replace (Z.to_nat (size pool + 1)) with (S (Z.to_nat (size pool))) by lia.
  assert (Hlt : (Z.to_nat (size pool) < length (evidence pool))%nat) by lia.
  destruct (lookup_lt_is_Some_2 _ _ Hlt) as [old Hold].
  rewrite (take_S_r _ _ ev).
  - by rewrite take_insert_ge by lia.
  - by apply list_lookup_insert_eq.
Qed.

(** What one call does with a value that passes the range check. *)
Lemma collectEv_in_range pool ev rnd n :
  0 ≤ size pool →
  (size pool < MAX_EV → size pool < Z.of_nat (length (evidence pool))) →
  EMF ≤ ev < EV_UNKNOWN →
  collectEv ev rnd n pool =
    if bool_decide (MAX_EV ≤ size pool) then
      Done (-1) pool n [Stderr "Error: Cannot collect evidence, array is full." []]
    else if bool_decide (ev ∈ collected pool) then
      Done (-1) pool n [Stderr "Error: Evidence type %d already collected." [AInt ev]]
    else
      Done 1 (pushed ev pool) n
        [Stdout "Collected evidence type %d, total count: %d."
           [AInt ev; AInt (size pool + 1)]].
Proof.
  intros Hsz Hbuf Hev. unfold collectEv.
  rewrite bool_decide_eq_false_2 by lia.
  rewrite bool_decide_eq_false_2 by lia. simpl.
  rewrite run_bind. simpl.
  case_bool_decide as Hfull; [reflexivity |].
  rewrite run_bind, isEvidenceCollected_spec by lia.
  destruct (bool_decide (ev ∈ collected pool)).
  - rewrite (bool_decide_eq_true_2 (1 ≠ 0)) by done. reflexivity.
  - rewrite (bool_decide_eq_false_2 (0 ≠ 0)) by (intros H; by apply H).
    rewrite bool_decide_eq_true_2 by lia. reflexivity.
Qed.

(** What one call does with a value that fails the range check. *)
Lemma collectEv_out_of_range pool ev rnd n :
  EV_UNKNOWN ≤ ev ∨ ev < EMF →
  collectEv ev rnd n pool =
    Done (-1) pool n [Stderr "Error: Invalid evidence type provided: %d." [AInt ev]].
Proof.
  intros Hev. unfold collectEv.
  destruct Hev as [Hev | Hev].
  - rewrite bool_decide_eq_true_2 by done. reflexivity.
  - rewrite (bool_decide_eq_true_2 (ev < EMF)) by done.
    rewrite orb_true_r. reflexivity.
Qed.

Lemma pool_ok_pushed ev pool :
  pool_ok pool → size pool < MAX_EV → ev ∉ collected pool → pool_ok (pushed ev pool).
Proof.
  intros [Hbuf Hcap Hsz Hnd] Hlt Hnotin.
  split.
  - unfold pushed; simpl. by rewrite length_insert.
  - done.
  - unfold pushed; simpl. lia.
  - rewrite collected_pushed by lia.
    apply NoDup_app. split; [done |]. split.
    + intros x Hx Hx'. apply list_elem_of_singleton in Hx'. by subst.
    + apply NoDup_singleton.
Qed.

(** Every call keeps the shape, whatever value it is given. *)
Lemma collectEv_keeps_pool_ok pool ev rnd n :
  pool_ok pool →
  ∃ r pool' out,
    collectEv ev rnd n pool = Done r pool' n out ∧ pool_ok pool'.
Proof.
  intros Hok. pose proof Hok as [Hbuf Hcap Hsz Hnd].
  destruct (decide (EV_UNKNOWN ≤ ev ∨ ev < EMF)) as [Hout | Hin].
  - rewrite collectEv_out_of_range by done. eauto.
  - rewrite collectEv_in_range by lia.
    case_bool_decide; [eauto |].
    case_bool_decide; [eauto |].
    do 3 eexists. split; [reflexivity |]. apply pool_ok_pushed; [done | lia | done].
Qed.

Lemma collect_all_keeps_pool_ok kinds pool rnd n :
  pool_ok pool →
  ∃ rs pool' out,
    collect_all kinds rnd n pool = Done rs pool' n out ∧ pool_ok pool'.
Proof.
  revert pool. induction kinds as [|ev rest IH]; intros pool Hok; simpl.
  - do 3 eexists. split; [reflexivity | done].
  - destruct (collectEv_keeps_pool_ok pool ev rnd n Hok) as (r & pool1 & o1 & Hrun & Hok1).
    destruct (IH pool1 Hok1) as (rs & pool2 & o2 & Hrest & Hok2).
    rewrite run_bind, Hrun, run_bind, Hrest. simpl.
    do 3 eexists. split; [reflexivity | done].
Qed.

Lemma pool_ok_initial cells :
  Z.of_nat (length cells) = MAX_EV → pool_ok (mkEvidenceArray cells 0 MAX_EV).
Proof.
  intros Hlen. split; simpl.
  - done.
  - done.
  - unfold MAX_EV. lia.
  - unfold collected. simpl. rewrite take_0. apply NoDup_nil_2.
Qed.

(** The shared pool as [initHouse] creates it. *)
Lemma initEvidenceArray_shared cells rnd n pool0 :
  initEvidenceArray MAX_EV (Some cells) rnd n pool0
  = Done tt (mkEvidenceArray cells 0 MAX_EV) n [].
Proof. reflexivity. Qed.

(** C1.  Take the shared pool as [initEvidenceArray] leaves it ([MAX_EV]
    cells, none in use) and run any sequence [kinds] of [collectEv] calls on
    it.  Every call returns, and the pool [pool] that results holds at most 3
    entries and no kind twice.  In that pool a further call with one of the
    four kinds fails with -1 and changes nothing when the pool already holds 3
    entries or already holds the kind; otherwise it returns 1 and the kind is
    the new last entry. *)
Theorem shared_pool_capped_and_duplicate_free
    (cells kinds : list Z) (kind : Z) (rnd : nat → Z) (n : nat) :
  Z.of_nat (length cells) = MAX_EV →
  EMF ≤ kind ≤ SOUND →
  ∃ results pool out,
    collect_all kinds rnd n (mkEvidenceArray cells 0 MAX_EV) = Done results pool n out
    ∧ size pool ≤ 3
    ∧ Z.of_nat (length (collected pool)) = size pool
    ∧ NoDup (collected pool)
    ∧ (3 ≤ size pool ∨ kind ∈ collected pool →
         ∃ msg, collectEv kind rnd n pool = Done (-1) pool n msg)
    ∧ (¬ (3 ≤ size pool ∨ kind ∈ collected pool) →
         ∃ pool' msg,
           collectEv kind rnd n pool = Done 1 pool' n msg
           ∧ collected pool' = collected pool ++ [kind]
           ∧ size pool' = size pool + 1
           ∧ capacity pool' = capacity pool).
Proof.
  intros Hcells Hkind.
  destruct (collect_all_keeps_pool_ok kinds _ rnd n (pool_ok_initial cells Hcells))
    as (results & pool & out & Hrun & Hok).
  pose proof Hok as [Hbuf Hcap Hsz Hnd].
  exists results, pool, out.
  assert (Hcall := collectEv_in_range pool kind rnd n).
  unfold MAX_EV, EMF, SOUND, EV_UNKNOWN in *.
  split; [done |]. split; [lia |]. split.
  { unfold collected. rewrite length_take. lia. }
  split; [done |]. split.
  - intros Hrej. rewrite Hcall by lia.
    case_bool_decide; [eauto |].
    case_bool_decide; [eauto |]. destruct Hrej; [lia | done].
  - intros Hacc. rewrite Hcall by lia.
    rewrite bool_decide_eq_false_2 by (intros ?; apply Hacc; by left).
    rewrite bool_decide_eq_false_2 by (intros ?; apply Hacc; by right).
    do 2 eexists. split; [reflexivity |].
    split; [apply collected_pushed; lia |]. done.
Qed.

(** An instance of C1: after EMF, EMF again and SOUND, offered TEMPERATURE. *)
Lemma shared_pool_capped_and_duplicate_free_witness :
  ∃ results pool out,
    collect_all [EMF; EMF; SOUND] (λ _, 0) 0%nat (mkEvidenceArray [9; 9; 9] 0 MAX_EV)
      = Done results pool 0%nat out
    ∧ size pool ≤ 3
    ∧ Z.of_nat (length (collected pool)) = size pool
    ∧ NoDup (collected pool)
    ∧ (3 ≤ size pool ∨ TEMPERATURE ∈ collected pool →
         ∃ msg, collectEv TEMPERATURE (λ _, 0) 0%nat pool = Done (-1) pool 0%nat msg)
    ∧ (¬ (3 ≤ size pool ∨ TEMPERATURE ∈ collected pool) →
         ∃ pool' msg,
           collectEv TEMPERATURE (λ _, 0) 0%nat pool = Done 1 pool' 0%nat msg
           ∧ collected pool' = collected pool ++ [TEMPERATURE]
           ∧ size pool' = size pool + 1
           ∧ capacity pool' = capacity pool).
Proof.
  apply (shared_pool_capped_and_duplicate_free [9; 9; 9] [EMF; EMF; SOUND] TEMPERATURE).
  - reflexivity.
  - unfold EMF, TEMPERATURE, SOUND. lia.
Defined.

(** C8.  [EV_COUNT] is not one of the four kinds, yet it passes the range
    check of [collectEv]: offered to the empty shared pool it is stored in the
    first cell, the size becomes 1 and the call returns 1. *)
Theorem collectEv_accepts_EV_COUNT (rnd : nat → Z) (n : nat) :
  collectEv EV_COUNT rnd n (mkEvidenceArray [9; 9; 9] 0 MAX_EV)
  = Done 1 (mkEvidenceArray [EV_COUNT; 9; 9] 1 MAX_EV) n
      [Stdout "Collected evidence type %d, total count: %d." [AInt 4; AInt 1]].
Proof. reflexivity. Qed.

(** ** isSufficientEvidence *)

(** The tally after the first loop of [isSufficientEvidence]: a cell is
    positive when it was positive before or its kind is among the entries
    read. *)
Lemma isSufficientEvidence_loop_spec (buf : list Z) rnd n (s : EvidenceArrayType) todo :
  ∀ i c0 c1 c2,
    (i + todo ≤ length buf)%nat →
    0 ≤ c0 → 0 ≤ c1 → 0 ≤ c2 →
    ∃ d0 d1 d2 out,
      isSufficientEvidence_loop buf i todo [c0; c1; c2] rnd n s
      = Done [d0; d1; d2] s n out
      ∧ (0 < d0 ↔ 0 < c0 ∨ EMF ∈ take todo (drop i buf))
      ∧ (0 < d1 ↔ 0 < c1 ∨ TEMPERATURE ∈ take todo (drop i buf))
      ∧ (0 < d2 ↔ 0 < c2 ∨ FINGERPRINTS ∈ take todo (drop i buf)).
Proof.
  induction todo as [|todo IH]; intros i c0 c1 c2 Hlen H0 H1 H2.
  - exists c0, c1, c2, []. split; [reflexivity |].
    simpl. rewrite !elem_of_nil. tauto.
  - destruct (buf !! i) as [ev|] eqn:Hev.
    2: { apply lookup_ge_None in Hev. lia. }
    rewrite (drop_S _ _ _ Hev). cbn [take isSufficientEvidence_loop].
    rewrite run_bind, Hev. cbn [deref ret].
    unfold MAX_EV, EMF, TEMPERATURE, FINGERPRINTS in *.
    destruct (decide (0 ≤ ev < 3)) as [Hin | Hout].
    + rewrite (bool_decide_eq_true_2 (0 ≤ ev)) by lia.
      rewrite (bool_decide_eq_true_2 (ev < 3)) by lia. cbn [andb].
      assert (Hcases : ev = 0 ∨ ev = 1 ∨ ev = 2) by lia.
      destruct Hcases as [-> | [-> | ->]]; rewrite run_bind; simpl.
      * destruct (IH (S i) (c0 + 1) c1 c2) as (d0 & d1 & d2 & out & Hrun & D0 & D1 & D2);
          try lia.
        rewrite Hrun. exists d0, d1, d2, out. split; [reflexivity |].
        rewrite !elem_of_cons. intuition lia.
      * destruct (IH (S i) c0 (c1 + 1) c2) as (d0 & d1 & d2 & out & Hrun & D0 & D1 & D2);
          try lia.
        rewrite Hrun. exists d0, d1, d2, out. split; [reflexivity |].
        rewrite !elem_of_cons. intuition lia.
      * destruct (IH (S i) c0 c1 (c2 + 1)) as (d0 & d1 & d2 & out & Hrun & D0 & D1 & D2);
          try lia.
        rewrite Hrun. exists d0, d1, d2, out. split; [reflexivity |].
        rewrite !elem_of_cons. intuition lia.
    + assert (Hguard : bool_decide (0 ≤ ev) && bool_decide (ev < 3) = false).
      { apply andb_false_iff. rewrite !bool_decide_eq_false. lia. }
      rewrite Hguard. rewrite run_bind. cbn [tell].
      destruct (IH (S i) c0 c1 c2) as (d0 & d1 & d2 & out & Hrun & D0 & D1 & D2);
        try lia.
      rewrite Hrun. eexists d0, d1, d2, _. split; [reflexivity |].
      rewrite !elem_of_cons. intuition lia.
Qed.

(** What [isSufficientEvidence] returns: the number of the kinds EMF,
    TEMPERATURE and FINGERPRINTS that the pool holds.  SOUND is never
    counted. *)
Lemma isSufficientEvidence_counts (pool : EvidenceArrayType) rnd n :
  0 ≤ size pool ≤ Z.of_nat (length (evidence pool)) →
  ∃ out,
    isSufficientEvidence rnd n pool
    = Done ((if bool_decide (EMF ∈ collected pool) then 1 else 0)
            + (if bool_decide (TEMPERATURE ∈ collected pool) then 1 else 0)
            + (if bool_decide (FINGERPRINTS ∈ collected pool) then 1 else 0))
        pool n out.
Proof.
  intros Hsz. unfold isSufficientEvidence. rewrite run_bind. cbn [get].
  change (replicate (Z.to_nat MAX_EV) 0) with [0; 0; 0].
  destruct (isSufficientEvidence_loop_spec (evidence pool) rnd n pool
              (Z.to_nat (size pool)) 0 0 0 0)
    as (d0 & d1 & d2 & out & Hrun & D0 & D1 & D2); try lia.
  rewrite run_bind, Hrun. cbn [count_positive].
  rewrite drop_0 in D0, D1, D2. fold (collected pool) in D0, D1, D2.
  exists out. unfold mret, M_ret, ret. f_equal; [| by rewrite !app_nil_r].
  rewrite (bool_decide_ext (0 < d0) (EMF ∈ collected pool)) by (rewrite D0; intuition lia).
  rewrite (bool_decide_ext (0 < d1) (TEMPERATURE ∈ collected pool))
    by (rewrite D1; intuition lia).
  rewrite (bool_decide_ext (0 < d2) (FINGERPRINTS ∈ collected pool))
    by (rewrite D2; intuition lia).
  lia.
Qed.

(** C2.  The banshee's kinds EMF, TEMPERATURE and SOUND are three distinct
    kinds, and three [collectEv] calls put them into the shared pool; on that
    pool [isSufficientEvidence] warns about SOUND and returns 2, and a hunter
    who reviews the evidence logs an insufficient review and goes on. *)
Theorem isSufficientEvidence_misses_SOUND (rnd : nat → Z) (n : nat) :
  house_evidenceArray (house banshee_world)
    = mkEvidenceArray [EMF; TEMPERATURE; SOUND] 3 MAX_EV
  ∧ isSufficientEvidence rnd n (mkEvidenceArray [EMF; TEMPERATURE; SOUND] 3 MAX_EV)
    = Done 2 (mkEvidenceArray [EMF; TEMPERATURE; SOUND] 3 MAX_EV) n
        [Stderr "Warning: Encountered invalid evidence type: %d" [AInt SOUND]]
  ∧ reviewEvidenceAndExitIfNeeded 0 rnd n banshee_world
    = Done tt banshee_world n
        [Stderr "Warning: Encountered invalid evidence type: %d" [AInt SOUND];
         L_hunterReview "Ann" LOG_INSUFFICIENT].
Proof. split; [| split]; reflexivity. Qed.

(** ** identifyGhostFromEvidence *)

(** The flags after the first loop: four cells, and the flag of a kind is set
    when it was set before or the kind is among the cells read. *)
Lemma identify_flags_spec (evidence : list Z) i todo (flags : list Z) :
  (i + todo ≤ length evidence)%nat →
  length flags = 4%nat →
  ∃ flags',
    identify_flags evidence i todo flags = Some flags'
    ∧ length flags' = 4%nat
    ∧ ∀ k, EMF ≤ k ≤ SOUND →
        (flag_set flags' k = true
         ↔ flag_set flags k = true ∨ k ∈ take todo (drop i evidence)).
Proof.
  revert i flags. induction todo as [|todo IH]; intros i flags Hlen Hfl; simpl.
  - exists flags. split; [done |]. split; [done |].
    intros k _. rewrite elem_of_nil. tauto.
  - destruct (evidence !! i) as [e|] eqn:He.
    2: { apply lookup_ge_None in He. lia. }
    rewrite (drop_S _ _ _ He). simpl.
    destruct (bool_decide (EMF ≤ e) && bool_decide (e ≤ SOUND)) eqn:Hrange.
    + apply andb_true_iff in Hrange as [H1 H2].
      apply bool_decide_eq_true in H1, H2.
      destruct (IH (S i) (<[Z.to_nat e := 1]> flags)) as (flags' & Hrun & Hlen' & Hspec).
      { lia. } { by rewrite length_insert. }
      exists flags'. split; [done |]. split; [done |].
      intros k Hk. rewrite Hspec by done. rewrite elem_of_cons.
      unfold flag_set. rewrite !bool_decide_eq_true.
      destruct (decide (k = e)) as [-> | Hne].
      * rewrite list_lookup_insert_eq by (unfold EMF, SOUND in *; lia).
        simpl. intuition lia.
      * rewrite list_lookup_insert_ne by (unfold EMF, SOUND in *; lia).
        intuition congruence.
    + destruct (IH (S i) flags) as (flags' & Hrun & Hlen' & Hspec); [lia | done |].
      exists flags'. split; [done |]. split; [done |].
      intros k Hk. rewrite Hspec by done. rewrite elem_of_cons.
      assert (k ≠ e).
      { intros ->. apply andb_false_iff in Hrange.
        rewrite !bool_decide_eq_false in Hrange. lia. }
      intuition congruence.
Qed.

(** The flags of an array of three values. *)
Lemma identify_flags_three (e0 e1 e2 : Z) :
  ∃ flags,
    identify_flags [e0; e1; e2] 0 3 [0; 0; 0; 0] = Some flags
    ∧ ∀ k, EMF ≤ k ≤ SOUND → (flag_set flags k = true ↔ k ∈ [e0; e1; e2]).
Proof.
  destruct (identify_flags_spec [e0; e1; e2] 0 3 [0; 0; 0; 0])
    as (flags & Hrun & _ & Hspec); [simpl; lia | done |].
  exists flags. split; [done |].
  intros k Hk. rewrite (Hspec k Hk). simpl.
  assert (flag_set [0; 0; 0; 0] k = false) as ->.
  { unfold EMF, SOUND in Hk.
    assert (k = 0 ∨ k = 1 ∨ k = 2 ∨ k = 3) as [-> | [-> | [-> | ->]]] by lia;
      reflexivity. }
  intuition discriminate.
Qed.

Lemma elem_of_valid_kinds (evidence : list Z) k :
  k ∈ valid_kinds evidence ↔ k ∈ evidence ∧ EMF ≤ k ≤ SOUND.
Proof. unfold valid_kinds. rewrite list_elem_of_filter. tauto. Qed.

Lemma in_three (k e0 e1 e2 : Z) : k ∈ [e0; e1; e2] ↔ k = e0 ∨ k = e1 ∨ k = e2.
Proof. rewrite !elem_of_cons, elem_of_nil. tauto. Qed.

Lemma identify_flags_bool (e0 e1 e2 : Z) :
  ∃ flags,
    identify_flags [e0; e1; e2] 0 3 [0; 0; 0; 0] = Some flags
    ∧ ∀ k, EMF ≤ k ≤ SOUND → flag_set flags k = bool_decide (k ∈ [e0; e1; e2]).
Proof.
  destruct (identify_flags_three e0 e1 e2) as (flags & Hrun & Hspec).
  exists flags. split; [done |]. intros k Hk.
  apply eq_true_iff_eq. rewrite bool_decide_eq_true. by apply Hspec.
Qed.

Lemma evidence_subset_table :
  evidence_subset POLTERGEIST = [EMF; TEMPERATURE; FINGERPRINTS]
  ∧ evidence_subset BANSHEE = [EMF; TEMPERATURE; SOUND]
  ∧ evidence_subset BULLIES = [EMF; FINGERPRINTS; SOUND]
  ∧ evidence_subset PHANTOM = [TEMPERATURE; FINGERPRINTS; SOUND].
Proof. repeat split; reflexivity. Qed.

Ltac in_subset :=
  rewrite ?elem_of_cons, ?elem_of_nil;
  unfold EMF, TEMPERATURE, FINGERPRINTS, SOUND; lia.

(** C3.  [identifyGhostFromEvidence] is a function of the three values it
    reads and of nothing else.  When the kinds among them are exactly the
    three kinds of a ghost class, it returns that class; when they are the
    kinds of no class, and whenever fewer than three distinct kinds are among
    them, it returns [GH_UNKNOWN]. *)
Theorem identifyGhostFromEvidence_classifies (e0 e1 e2 : Z) :
  (∀ g, g ∈ ghost_classes →
        same_kinds (valid_kinds [e0; e1; e2]) (evidence_subset g) →
        identifyGhostFromEvidence [e0; e1; e2] = Some g)
  ∧ ((∀ g, g ∈ ghost_classes →
           ¬ same_kinds (valid_kinds [e0; e1; e2]) (evidence_subset g)) →
     identifyGhostFromEvidence [e0; e1; e2] = Some GH_UNKNOWN)
  ∧ (¬ three_distinct (valid_kinds [e0; e1; e2]) →
     identifyGhostFromEvidence [e0; e1; e2] = Some GH_UNKNOWN).
Proof.
  destruct (identify_flags_bool e0 e1 e2) as (flags & Hrun & Hspec).
  unfold identifyGhostFromEvidence. rewrite Hrun. simpl.
  rewrite !Hspec by (unfold EMF, TEMPERATURE, FINGERPRINTS, SOUND; lia).
  clear Hrun Hspec flags.
  assert (Hvalid : ∀ k, EMF ≤ k ≤ SOUND →
            (k ∈ valid_kinds [e0; e1; e2] ↔ k ∈ [e0; e1; e2])).
  { intros k Hk. rewrite elem_of_valid_kinds. tauto. }
  assert (V0 := Hvalid EMF ltac:(in_subset)).
  assert (V1 := Hvalid TEMPERATURE ltac:(in_subset)).
  assert (V2 := Hvalid FINGERPRINTS ltac:(in_subset)).
  assert (V3 := Hvalid SOUND ltac:(in_subset)).
  assert (Hfour : EMF ∈ [e0; e1; e2] → TEMPERATURE ∈ [e0; e1; e2] →
            FINGERPRINTS ∈ [e0; e1; e2] → SOUND ∈ [e0; e1; e2] → False).
  { rewrite !in_three. unfold EMF, TEMPERATURE, FINGERPRINTS, SOUND. lia. }
  split; [| split].
  - intros g Hg Hsame.
    assert (S0 := Hsame EMF). assert (S1 := Hsame TEMPERATURE).
    assert (S2 := Hsame FINGERPRINTS). assert (S3 := Hsame SOUND).
    rewrite V0 in S0. rewrite V1 in S1. rewrite V2 in S2. rewrite V3 in S3.
    unfold ghost_classes in Hg. rewrite !elem_of_cons, elem_of_nil in Hg.
    destruct evidence_subset_table as (T0 & T1 & T2 & T3).
    destruct Hg as [-> | [-> | [-> | [-> | []]]]];
      rewrite ?T0, ?T1, ?T2, ?T3 in *;
      repeat case_bool_decide; simpl; try reflexivity; exfalso;
      first [ apply Hfour; assumption
            | match goal with
              | H : ?k ∈ [e0; e1; e2], S : ?k ∈ [e0; e1; e2] ↔ _ |- _ =>
                  apply S in H; revert H; in_subset
              | H : ?k ∉ [e0; e1; e2], S : ?k ∈ [e0; e1; e2] ↔ _ |- _ =>
                  apply H, S; in_subset
              end ].
  - intros Hnone.
    destruct evidence_subset_table as (T0 & T1 & T2 & T3).
    assert (Hcl : ∀ g, g ∈ ghost_classes ↔
              g = POLTERGEIST ∨ g = BANSHEE ∨ g = BULLIES ∨ g = PHANTOM).
    { intros g. unfold ghost_classes. rewrite !elem_of_cons, elem_of_nil. tauto. }
    assert (N0 := Hnone POLTERGEIST ltac:(apply Hcl; tauto)).
    assert (N1 := Hnone BANSHEE ltac:(apply Hcl; tauto)).
    assert (N2 := Hnone BULLIES ltac:(apply Hcl; tauto)).
    assert (N3 := Hnone PHANTOM ltac:(apply Hcl; tauto)).
    rewrite T0 in N0. rewrite T1 in N1. rewrite T2 in N2. rewrite T3 in N3.
    clear Hnone Hcl.
    repeat case_bool_decide; simpl; try reflexivity; exfalso;
      first [ apply Hfour; assumption
            | match goal with
              | N : ¬ same_kinds _ _ |- _ =>
                  apply N; intros k;
                  rewrite elem_of_valid_kinds; split;
                  [ intros [Hk Hr]; unfold EMF, SOUND in Hr;
                    assert (k = EMF ∨ k = TEMPERATURE ∨ k = FINGERPRINTS ∨ k = SOUND)
                      as [-> | [-> | [-> | ->]]] by in_subset;
                    first [ contradiction | in_subset ]
                  | intros Hk; rewrite !elem_of_cons, elem_of_nil in Hk;
                    destruct Hk as [-> | [-> | [-> | []]]];
                    (split; [assumption | in_subset]) ]
              end ].
  - intros Hfew.
    repeat case_bool_decide; simpl; try reflexivity; exfalso; apply Hfew;
      first [ exists EMF, TEMPERATURE, FINGERPRINTS;
              rewrite V0, V1, V2; repeat split; first [assumption | in_subset]
            | exists EMF, TEMPERATURE, SOUND;
              rewrite V0, V1, V3; repeat split; first [assumption | in_subset]
            | exists EMF, FINGERPRINTS, SOUND;
              rewrite V0, V2, V3; repeat split; first [assumption | in_subset]
            | exists TEMPERATURE, FINGERPRINTS, SOUND;
              rewrite V1, V2, V3; repeat split; first [assumption | in_subset] ].
Qed.

(** An instance of C3: SOUND, EMF and TEMPERATURE, in this order, are the
    banshee's kinds. *)
Lemma identifyGhostFromEvidence_classifies_witness :
  identifyGhostFromEvidence [SOUND; EMF; TEMPERATURE] = Some BANSHEE.
Proof.
  apply (proj1 (identifyGhostFromEvidence_classifies SOUND EMF TEMPERATURE) BANSHEE).
  - unfold ghost_classes. rewrite !elem_of_cons. tauto.
  - intros k. vm_compute valid_kinds. vm_compute evidence_subset.
    rewrite !elem_of_cons, elem_of_nil. lia.
Defined.

(** ** doesEvidenceExist *)

Lemma doesEvidenceExist_loop_spec (ledger : list Z) hunterEquipment :
  doesEvidenceExist_loop ledger hunterEquipment
  = if bool_decide (hunterEquipment ∈ ledger) then hunterEquipment else EV_UNKNOWN.
Proof.
  induction ledger as [|ev next IH]; simpl.
  - reflexivity.
  - destruct (decide (ev = hunterEquipment)) as [Hev | Hev].
    + rewrite (bool_decide_eq_true_2 _ Hev). subst ev.
      rewrite bool_decide_eq_true_2; [done | left].
    + rewrite (bool_decide_eq_false_2 _ Hev), IH.
      rewrite (bool_decide_ext (hunterEquipment ∈ ev :: next) (hunterEquipment ∈ next));
        [done |].
      rewrite elem_of_cons. intuition congruence.
Qed.

(** C9.  A hunter's query of the ledger of a room for the kind of its
    equipment returns with the world, and so the ledger, as it was and prints
    nothing.  What it returns is the kind when an entry of the ledger equals
    it and [EV_UNKNOWN] when none does; the same query asked again gives the
    same answer. *)
Theorem doesEvidenceExist_reads_only
    (w : World) (r : nat) (rm : RoomType) (ledger : list Z) (hunterEquipment : Z)
    (rnd : nat → Z) (n : nat) :
  heap w !! r = Some rm →
  evidencelist rm = Some ledger →
  EMF ≤ hunterEquipment ≤ SOUND →
  ∃ found,
    doesEvidenceExist (Some r) hunterEquipment rnd n w = Done found w n []
    ∧ (found = hunterEquipment ↔ hunterEquipment ∈ ledger)
    ∧ (found = EV_UNKNOWN ↔ hunterEquipment ∉ ledger)
    ∧ (first ← doesEvidenceExist (Some r) hunterEquipment;
       second ← doesEvidenceExist (Some r) hunterEquipment;
       mret (first, second)) rnd n w = Done (found, found) w n [].
Proof.
  intros Hroom Hledger Hkind.
  assert (Hrun : doesEvidenceExist (Some r) hunterEquipment rnd n w
                 = Done (doesEvidenceExist_loop ledger hunterEquipment) w n []).
  { unfold doesEvidenceExist, read_room.
    rewrite !run_bind. simpl. rewrite Hroom. simpl. rewrite Hledger. reflexivity. }
  exists (doesEvidenceExist_loop ledger hunterEquipment).
  split; [done |].
  rewrite doesEvidenceExist_loop_spec.
  unfold EMF, SOUND, EV_UNKNOWN in *.
  split; [| split].
  - case_bool_decide; split; intros; try done; lia.
  - case_bool_decide; split; intros; try done; lia.
  - rewrite run_bind, Hrun, run_bind, Hrun. simpl.
    by rewrite doesEvidenceExist_loop_spec.
Qed.

(** An instance of C9: the garage holds the banshee's EMF, and a hunter with
    an EMF reader asks. *)
Lemma doesEvidenceExist_reads_only_witness :
  ∃ found,
    doesEvidenceExist (Some 11%nat) EMF (λ _, 0) 0%nat haunted_world
      = Done found haunted_world 0%nat []
    ∧ (found = EMF ↔ EMF ∈ [EMF])
    ∧ (found = EV_UNKNOWN ↔ EMF ∉ [EMF])
    ∧ (first ← doesEvidenceExist (Some 11%nat) EMF;
       second ← doesEvidenceExist (Some 11%nat) EMF;
       mret (first, second)) (λ _, 0) 0%nat haunted_world
      = Done (found, found) haunted_world 0%nat [].
Proof.
  apply (doesEvidenceExist_reads_only haunted_world 11
           (mkRoom "Garage" (Some [EMF]) (Some (new_hunterArray junk_hunter))
              (Some [9%nat; 12%nat]))).
  - reflexivity.
  - reflexivity.
  - unfold EMF, SOUND. lia.
Defined.

(** ** decrementHunterCount *)

Lemma decrementHunterCount_spec (hs : HouseType) rnd n :
  decrementHunterCount rnd n hs =
    if bool_decide (0 < hunterCount hs) then
      Done tt (set_hunterCount (hunterCount hs - 1) hs) n []
    else
      Done tt hs n
        [Stderr "Warning: Attempted to decrement hunter count below zero." []].
Proof.
  unfold decrementHunterCount. rewrite run_bind. simpl.
  by case_bool_decide.
Qed.

Lemma decrements_spec (k : nat) (hs : HouseType) rnd n :
  0 ≤ hunterCount hs →
  ∃ hs' out,
    decrements k rnd n hs = Done tt hs' n out
    ∧ hunterCount hs' = Z.max 0 (hunterCount hs - Z.of_nat k).
Proof.
  revert hs. induction k as [|k IH]; intros hs Hpos.
  - exists hs, []. split; [reflexivity | lia].
  - simpl. rewrite run_bind, decrementHunterCount_spec.
    case_bool_decide as Hc.
    + destruct (IH (set_hunterCount (hunterCount hs - 1) hs)) as (hs' & out & Hrun & Hcount).
      { simpl. lia. }
      rewrite Hrun. exists hs', out. split; [reflexivity |].
      rewrite Hcount. simpl. lia.
    + destruct (IH hs Hpos) as (hs' & out & Hrun & Hcount).
      rewrite Hrun. eexists hs', _. split; [reflexivity |].
      rewrite Hcount. lia.
Qed.

(** C10.  From the count [NUM_HUNTERS] that [initHouse] sets, any number [k]
    of calls of [decrementHunterCount] returns and leaves a count that is not
    negative ([NUM_HUNTERS - k], or 0 when that would be negative).  At that
    count one more call takes exactly one off and prints nothing when the
    count is positive, and changes nothing and prints the warning when it is
    zero. *)
Theorem hunterCount_never_negative (hs : HouseType) (k : nat) (rnd : nat → Z) (n : nat) :
  hunterCount hs = NUM_HUNTERS →
  ∃ hs' out,
    decrements k rnd n hs = Done tt hs' n out
    ∧ 0 ≤ hunterCount hs'
    ∧ hunterCount hs' = Z.max 0 (NUM_HUNTERS - Z.of_nat k)
    ∧ (0 < hunterCount hs' →
         decrementHunterCount rnd n hs'
         = Done tt (set_hunterCount (hunterCount hs' - 1) hs') n [])
    ∧ (hunterCount hs' = 0 →
         decrementHunterCount rnd n hs'
         = Done tt hs' n
             [Stderr "Warning: Attempted to decrement hunter count below zero." []]).
Proof.
  intros Hstart.
  destruct (decrements_spec k hs rnd n) as (hs' & out & Hrun & Hcount).
  { rewrite Hstart. unfold NUM_HUNTERS. lia. }
  exists hs', out. rewrite Hstart in Hcount.
  split; [done |]. split; [lia |]. split; [done |].
  split; intros Hc; rewrite decrementHunterCount_spec.
  - by rewrite bool_decide_eq_true_2.
  - rewrite bool_decide_eq_false_2; [done | lia].
Qed.

(** An instance of C10: six retirements reported to the house of the sample
    world. *)
Lemma hunterCount_never_negative_witness :
  ∃ hs' out,
    decrements 6 (λ _, 0) 0%nat (house start_world) = Done tt hs' 0%nat out
    ∧ 0 ≤ hunterCount hs'
    ∧ hunterCount hs' = Z.max 0 (NUM_HUNTERS - Z.of_nat 6)
    ∧ (0 < hunterCount hs' →
         decrementHunterCount (λ _, 0) 0%nat hs'
         = Done tt (set_hunterCount (hunterCount hs' - 1) hs') 0%nat [])
    ∧ (hunterCount hs' = 0 →
         decrementHunterCount (λ _, 0) 0%nat hs'
         = Done tt hs' 0%nat
             [Stderr "Warning: Attempted to decrement hunter count below zero." []]).
Proof.
  apply (hunterCount_never_negative (house start_world) 6).
  reflexivity.
Defined.

(** ** The hunter's tick *)

Lemma read_hunter_run (w : World) i h rnd n :
  hunter (house_hunterArray (house w)) !! i = Some h →
  read_hunter i rnd n w = Done h w n [].
Proof. intros Hh. unfold read_hunter. rewrite run_bind. simpl. by rewrite Hh. Qed.

Lemma write_hunter_run (w : World) i h h' rnd n :
  hunter (house_hunterArray (house w)) !! i = Some h →
  write_hunter i h' rnd n w
  = Done tt
      (set_house
         (set_house_hunterArray
            (mkHunterArray (<[i := h']> (hunter (house_hunterArray (house w))))
               (hsize (house_hunterArray (house w)))
               (hcapacity (house_hunterArray (house w))))
            (house w)) w) n [].
Proof.
  intros Hh. unfold write_hunter. rewrite run_bind. simpl.
  rewrite bool_decide_eq_true_2; [done |].
  by apply lookup_lt_Some in Hh.
Qed.

Lemma run_zoom {St T A} (getT : St → T) (setT : T → St → St) (m : M T A) rnd n s :
  zoom getT setT m rnd n s =
    match m rnd n (getT s) with
    | Done a t n1 o => Done a (setT t s) n1 o
    | Exited t n1 o => Exited (setT t s) n1 o
    | Undefined => Undefined
    | OutOfFuel => OutOfFuel
    end.
Proof. reflexivity. Qed.

Lemma retire_run (w : World) (h : HunterType) rnd n :
  0 < hunterCount (house w) →
  (logHunterExit h;; zoom house set_house decrementHunterCount;; pthread_exit
     : M World unit) rnd n w
  = Exited (set_house (set_hunterCount (hunterCount (house w) - 1) (house w)) w) n
      [Stdout "Hunter %s has exited the game" [AStr (name h)]].
Proof.
  intros Hcount. unfold logHunterExit.
  rewrite run_bind. cbn -[zoom decrementHunterCount].
  rewrite run_bind, run_zoom, decrementHunterCount_spec.
  by rewrite (bool_decide_eq_true_2 _ Hcount).
Qed.

(** C5, as the code has it.  A hunter enters a tick with fear and boredom
    below their maxima (the loop's condition) and the house counts at least
    one active hunter.  When the tick takes its fear to [FEAR_MAX] (the ghost
    shares its room) or its boredom to [BOREDOM_MAX] (it does not),
    [updateHunterState] prints the exit line, takes one off the house's count
    and ends the thread.  It draws no random number and so performs no action;
    the rooms, their rosters included, and the shared evidence are as
    before. *)
Theorem retiring_hunter_exits_before_acting (w : World) (i : nat) (h : HunterType) (rnd : nat → Z) (n : nat) :
  hunter (house_hunterArray (house w)) !! i = Some h →
  0 < hunterCount (house w) →
  fear h < FEAR_MAX →
  boredom h < BOREDOM_MAX →
  (room h = groom (ghost w) ∧ fear h + 1 = FEAR_MAX)
  ∨ (room h ≠ groom (ghost w) ∧ boredom h + 1 = BOREDOM_MAX) →
  ∃ h' w',
    updateHunterState i rnd n w
      = Exited w' n [Stdout "Hunter %s has exited the game" [AStr (name h)]]
    ∧ (fear h' = FEAR_MAX ∨ boredom h' = BOREDOM_MAX)
    ∧ name h' = name h ∧ equipment h' = equipment h ∧ room h' = room h
    ∧ hunter (house_hunterArray (house w'))
      = <[i := h']> (hunter (house_hunterArray (house w)))
    ∧ hunterCount (house w') = hunterCount (house w) - 1
    ∧ heap w' = heap w
    ∧ house_evidenceArray (house w') = house_evidenceArray (house w)
    ∧ ghost w' = ghost w
    ∧ gameOver w' = gameOver w.
Proof.
  intros Hh Hcount Hfear Hbored Hcase.
  assert (Hi : (i < length (hunter (house_hunterArray (house w))))%nat)
    by (by apply lookup_lt_Some in Hh).
  unfold updateHunterState, isGhostPresent.
  rewrite run_bind, run_bind, (read_hunter_run w i h) by done. simpl.
  rewrite run_bind, (read_hunter_run w i h) by done. simpl.
  destruct Hcase as [[Hroom Hmax] | [Hroom Hmax]].
  - rewrite (bool_decide_eq_true_2 _ Hroom).
    rewrite (bool_decide_eq_true_2 (1 ≠ 0)) by done.
    rewrite (bool_decide_eq_true_2 _ Hfear).
    rewrite run_bind, (write_hunter_run w i h) by done. simpl.
    rewrite run_bind. erewrite read_hunter_run by (simpl; by apply list_lookup_insert_eq).
    simpl.
    rewrite (bool_decide_eq_true_2 (FEAR_MAX ≤ fear h + 1)) by lia. simpl.
    rewrite retire_run by done. simpl.
    eexists (set_boredom 0 (set_fear (fear h + 1) h)), _.
    split; [reflexivity |]. simpl. repeat split; try done. by left.
  - rewrite (bool_decide_eq_false_2 _ Hroom).
    rewrite (bool_decide_eq_false_2 (0 ≠ 0)) by (intros H; by apply H).
    rewrite (bool_decide_eq_true_2 _ Hbored).
    rewrite run_bind, (write_hunter_run w i h) by done. simpl.
    rewrite run_bind. erewrite read_hunter_run by (simpl; by apply list_lookup_insert_eq).
    simpl.
    rewrite (bool_decide_eq_true_2 (BOREDOM_MAX ≤ boredom h + 1)) by lia.
    rewrite orb_true_r.
    rewrite retire_run by done. simpl.
    eexists (set_boredom (boredom h + 1) h), _.
    split; [reflexivity |]. simpl. repeat split; try done. by right.
Qed.

(** An instance of C5: Ann in the van, one tick from being bored out. *)
Lemma retiring_hunter_exits_before_acting_witness :
  ∃ h' w',
    updateHunterState 0 (λ _, 0) 0%nat bored_world
      = Exited w' 0%nat [Stdout "Hunter %s has exited the game" [AStr "Ann"]]
    ∧ (fear h' = FEAR_MAX ∨ boredom h' = BOREDOM_MAX)
    ∧ name h' = "Ann" ∧ equipment h' = EV_UNKNOWN ∧ room h' = Some 0%nat
    ∧ hunter (house_hunterArray (house w'))
      = <[0%nat := h']> (hunter (house_hunterArray (house bored_world)))
    ∧ hunterCount (house w') = hunterCount (house bored_world) - 1
    ∧ heap w' = heap bored_world
    ∧ house_evidenceArray (house w') = house_evidenceArray (house bored_world)
    ∧ ghost w' = ghost bored_world
    ∧ gameOver w' = gameOver bored_world.
Proof.
  apply (retiring_hunter_exits_before_acting bored_world 0
           (mkHunter "Ann" EV_UNKNOWN 0 (BOREDOM_MAX - 1) (Some 0%nat))).
  - reflexivity.
  - reflexivity.
  - reflexivity.
  - reflexivity.
  - right. split; [discriminate | reflexivity].
Defined.

(** Against C5 as stated: Ann is listed in the roster of the van, her room;
    the tick that bores her out ends her thread, and in the world it leaves
    she is still listed there. *)
Lemma retiring_hunter_stays_in_roster :
  ∃ w',
    updateHunterState 0 (λ _, 0) 0%nat bored_world
      = Exited w' 0%nat [Stdout "Hunter %s has exited the game" [AStr "Ann"]]
    ∧ in_roster bored_world 0 "Ann"
    ∧ in_roster w' 0 "Ann".
Proof.
  eexists. split; [vm_compute; reflexivity |].
  split; eexists _, _; (split; [reflexivity |]); (split; [reflexivity |]);
    simpl; left.
Qed.

(** ** The verdict *)

Lemma count_at_100_cons (f : HunterType → Z) h hs :
  count_at_100 f (h :: hs)
  = (if bool_decide (100 ≤ f h) then 1 else 0) + count_at_100 f hs.
Proof.
  unfold count_at_100. rewrite filter_cons.
  destruct (decide (100 ≤ f h)) as [Hh | Hh].
  - rewrite (bool_decide_eq_true_2 _ Hh). simpl. lia.
  - rewrite (bool_decide_eq_false_2 _ Hh). lia.
Qed.

Lemma fear_loop_spec (buf : list HunterType) rnd n (w : World) todo :
  ∀ i c,
    (i + todo ≤ length buf)%nat →
    ∃ out,
      fear_loop buf i todo c rnd n w
      = Done (c + count_at_100 fear (take todo (drop i buf))) w n out.
Proof.
  induction todo as [|todo IH]; intros i c Hlen.
  - exists []. simpl. unfold count_at_100. simpl. rewrite Z.add_0_r. reflexivity.
  - destruct (buf !! i) as [h|] eqn:Hh.
    2: { apply lookup_ge_None in Hh. lia. }
    rewrite (drop_S _ _ _ Hh). cbn [take fear_loop].
    rewrite run_bind, Hh. cbn [deref ret]. rewrite run_bind. cbn [tell].
    destruct (IH (S i) (if bool_decide (100 ≤ fear h) then c + 1 else c)) as [out Hrun];
      [lia |].
    rewrite Hrun. eexists. rewrite count_at_100_cons.
    f_equal. case_bool_decide; lia.
Qed.

Lemma boredom_loop_spec (buf : list HunterType) rnd n (w : World) todo :
  ∀ i c,
    (i + todo ≤ length buf)%nat →
    ∃ out,
      boredom_loop buf i todo c rnd n w
      = Done (c + count_at_100 boredom (take todo (drop i buf))) w n out.
Proof.
  induction todo as [|todo IH]; intros i c Hlen.
  - exists []. simpl. unfold count_at_100. simpl. rewrite Z.add_0_r. reflexivity.
  - destruct (buf !! i) as [h|] eqn:Hh.
    2: { apply lookup_ge_None in Hh. lia. }
    rewrite (drop_S _ _ _ Hh). cbn [take boredom_loop].
    rewrite run_bind, Hh. cbn [deref ret]. rewrite run_bind. cbn [tell].
    destruct (IH (S i) (if bool_decide (100 ≤ boredom h) then c + 1 else c))
      as [out Hrun]; [lia |].
    rewrite Hrun. eexists. rewrite count_at_100_cons.
    f_equal. case_bool_decide; lia.
Qed.

Lemma identifyGhostFromEvidence_total (cells : list Z) :
  (3 ≤ length cells)%nat → ∃ g, identifyGhostFromEvidence cells = Some g.
Proof.
  intros Hlen.
  destruct (identify_flags_spec cells 0 3 [0; 0; 0; 0]) as (flags & Hrun & _);
    [simpl; lia | done |].
  unfold identifyGhostFromEvidence. rewrite Hrun. simpl.
  repeat (destruct (_ && _); [eauto |]). eauto.
Qed.

Lemma reviewEv_returns (w : World) rnd n :
  (size (house_evidenceArray (house w)) = 3 →
   (3 ≤ length (evidence (house_evidenceArray (house w))))%nat) →
  ∃ out, reviewEv rnd n w = Done tt w n out.
Proof.
  intros Hbuf. unfold reviewEv. rewrite run_bind. cbn [get].
  case_bool_decide as Hsize.
  - eexists. reflexivity.
  - destruct (identifyGhostFromEvidence_total _ (Hbuf Hsize)) as [g Hg].
    rewrite run_bind, Hg. cbn [deref ret].
    case_bool_decide; eexists; reflexivity.
Qed.

Lemma run_bind_done {St A B} (m : M St A) (f : A → M St B) rnd n s a s1 n1 o1 :
  m rnd n s = Done a s1 n1 o1 →
  (m ≫= f) rnd n s = prepend o1 (f a rnd n1 s1).
Proof. intros Hm. rewrite run_bind, Hm. reflexivity. Qed.

Lemma run_tell {St} (e : Event) rnd n (s : St) : tell e rnd n s = Done tt s n [e].
Proof. reflexivity. Qed.

Lemma run_get {St} rnd n (s : St) : get rnd n s = Done s s n [].
Proof. reflexivity. Qed.

(** What [evaluateGameOutcome] prints last, for every final state. *)
Lemma evaluateGameOutcome_verdict (w : World) rnd n :
  0 ≤ hsize (house_hunterArray (house w))
    ≤ Z.of_nat (length (hunter (house_hunterArray (house w)))) →
  (size (house_evidenceArray (house w)) = 3 →
   (3 ≤ length (evidence (house_evidenceArray (house w))))%nat) →
  ∃ out, evaluateGameOutcome rnd n w = Done tt w n (out ++ [verdict_line w]).
Proof.
  intros Hsize Hbuf. unfold evaluateGameOutcome.
  destruct (fear_loop_spec (hunter (house_hunterArray (house w))) rnd n w
              (Z.to_nat (hsize (house_hunterArray (house w)))) 0 0)
    as [o1 Hfear]; [lia |].
  destruct (boredom_loop_spec (hunter (house_hunterArray (house w))) rnd n w
              (Z.to_nat (hsize (house_hunterArray (house w)))) 0 0)
    as [o2 Hbored]; [lia |].
  destruct (reviewEv_returns w rnd n Hbuf) as [o3 Hreview].
  rewrite drop_0 in Hfear, Hbored. fold (house_hunters w) in Hfear, Hbored.
  rewrite Z.add_0_l in Hfear, Hbored.
  rewrite (run_bind_done _ _ _ _ _ _ _ _ _ (run_tell _ _ _ _)).
  rewrite (run_bind_done _ _ _ _ _ _ _ _ _ (run_tell _ _ _ _)).
  rewrite (run_bind_done _ _ _ _ _ _ _ _ _ (run_tell _ _ _ _)).
  rewrite (run_bind_done _ _ _ _ _ _ _ _ _ (run_get _ _ _)).
  set (hunters := house_hunterArray (house w)) in *.
  set (fc := if bool_decide (hsize hunters = 0) then NUM_HUNTERS
             else count_at_100 fear (house_hunters w)).
  assert (Hfc : ∃ o1',
            (if bool_decide (hsize hunters = 0)
             then tell (Stdout "There are no hunters left in the house." [])
                  ≫= λ _, mret NUM_HUNTERS
             else fear_loop (hunter hunters) 0 (Z.to_nat (hsize hunters)) 0) rnd n w
            = Done fc w n o1').
  { unfold fc. case_bool_decide; [eexists; reflexivity |]. rewrite Hfear. eauto. }
  destruct Hfc as [o1' Hfc].
  rewrite (run_bind_done _ _ _ _ _ _ _ _ _ Hfc).
  rewrite (run_bind_done _ _ _ _ _ _ _ _ _ Hbored).
  rewrite (run_bind_done _ _ _ _ _ _ _ _ _ (run_tell _ _ _ _)).
  rewrite (run_bind_done _ _ _ _ _ _ _ _ _ Hreview).
  assert (Hverdict :
            (if bool_decide (fc = NUM_HUNTERS)
                || bool_decide (count_at_100 boredom (house_hunters w) = NUM_HUNTERS)
             then tell ghost_won_line
             else if bool_decide (size (house_evidenceArray (house w)) = 3)
                     && bool_decide (boredomTime (ghost w) < 100)
             then tell hunters_won_line else tell ghost_left_line) rnd n w
            = Done tt w n [verdict_line w]).
  { unfold verdict_line. fold hunters.
    assert (Hzero : hsize hunters = 0 → count_at_100 boredom (house_hunters w) = 0).
    { intros Hz. unfold house_hunters. fold hunters. rewrite Hz. reflexivity. }
    unfold fc. unfold NUM_HUNTERS in *.
    destruct (decide (hsize hunters = 0)) as [Hz | Hnz].
    - rewrite (bool_decide_eq_true_2 _ Hz).
      rewrite (bool_decide_eq_true_2 (4 = 4)) by done.
      rewrite (bool_decide_eq_true_2 (_ ∨ _)) by (by left). reflexivity.
    - rewrite (bool_decide_eq_false_2 _ Hnz).
      destruct (decide (count_at_100 fear (house_hunters w) = 4)) as [Hf | Hf].
      + rewrite (bool_decide_eq_true_2 _ Hf).
        rewrite (bool_decide_eq_true_2 (_ ∨ _)) by (right; by left). reflexivity.
      + rewrite (bool_decide_eq_false_2 _ Hf).
        destruct (decide (count_at_100 boredom (house_hunters w) = 4)) as [Hb | Hb].
        * rewrite (bool_decide_eq_true_2 _ Hb).
          rewrite (bool_decide_eq_true_2 (_ ∨ _)) by (right; by right). reflexivity.
        * rewrite (bool_decide_eq_false_2 _ Hb).
          rewrite (bool_decide_eq_false_2 (_ ∨ _)) by tauto.
          cbn [orb].
          destruct (decide (size (house_evidenceArray (house w)) = 3)) as [He | He];
            destruct (decide (boredomTime (ghost w) < 100)) as [Hg | Hg].
          -- rewrite (bool_decide_eq_true_2 _ He), (bool_decide_eq_true_2 _ Hg).
             rewrite (bool_decide_eq_true_2 (_ ∧ _)) by done. reflexivity.
          -- rewrite (bool_decide_eq_true_2 _ He), (bool_decide_eq_false_2 _ Hg).
             rewrite (bool_decide_eq_false_2 (_ ∧ _)) by tauto. reflexivity.
          -- rewrite (bool_decide_eq_false_2 _ He).
             rewrite (bool_decide_eq_false_2 (_ ∧ _)) by tauto. reflexivity.
          -- rewrite (bool_decide_eq_false_2 _ He).
             rewrite (bool_decide_eq_false_2 (_ ∧ _)) by tauto. reflexivity. }
  rewrite Hverdict. cbn [prepend].
  eexists. f_equal. rewrite !app_assoc. reflexivity.
Qed.

(** C6.  In [scared_world] each of the four hunters has its fear at
    [FEAR_MAX], so all of them are incapacitated and the house counts no
    active hunter.  [evaluateGameOutcome] compares fear with 100, counts no
    hunter as scared and prints that the ghost got bored and left; the line
    that the ghost has won is not printed. *)
Theorem verdict_ignores_scared_hunters (rnd : nat → Z) (n : nat) :
  Forall (λ h, fear h = FEAR_MAX)
    (take (Z.to_nat (hsize (house_hunterArray (house scared_world))))
       (hunter (house_hunterArray (house scared_world))))
  ∧ hsize (house_hunterArray (house scared_world)) = NUM_HUNTERS
  ∧ hunterCount (house scared_world) = 0
  ∧ evaluateGameOutcome rnd n scared_world
    = Done tt scared_world n
        [Stdout "=================================" [];
         Stdout "All done! Let's tally the results..." [];
         Stdout "=================================" [];
         Stdout "%s's fear level is %d" [AStr "Ann"; AInt 10];
         Stdout "%s's fear level is %d" [AStr "Bob"; AInt 10];
         Stdout "%s's fear level is %d" [AStr "Cy"; AInt 10];
         Stdout "%s's fear level is %d" [AStr "Di"; AInt 10];
         Stdout "%s's boredom level is %d" [AStr "Ann"; AInt 0];
         Stdout "%s's boredom level is %d" [AStr "Bob"; AInt 0];
         Stdout "%s's boredom level is %d" [AStr "Cy"; AInt 0];
         Stdout "%s's boredom level is %d" [AStr "Di"; AInt 0];
         Stdout "The ghost's boredom level is %d" [AInt 0];
         Stdout "Not enough evidence collected." [];
         ghost_left_line].
Proof.
  split; [| split; [| split]].
  - repeat constructor.
  - reflexivity.
  - reflexivity.
  - vm_compute. reflexivity.
Qed.

(** ** Single-precision rounding and the range of randInt *)

Lemma fround_shift m e :
  fround m e = mkFloat (fm (fround m 0)) (e + fe (fround m 0)).
Proof.
  unfold fround. case_bool_decide; simpl; f_equal; lia.
Qed.

(** For [m] of 25 bits or more: the shift [s] and what the logarithm says. *)
Lemma round_shift_bounds m :
  2 ^ 24 ≤ m →
  let s := Z.log2 m - 23 in
  1 ≤ s ∧ 2 ^ 23 * 2 ^ s ≤ m < 2 ^ 24 * 2 ^ s ∧ 2 ^ s = 2 * 2 ^ (s - 1) ∧ 0 < 2 ^ (s - 1).
Proof.
  intros Hm s.
  assert (Hlog : 24 ≤ Z.log2 m) by (apply Z.log2_le_pow2; lia).
  destruct (Z.log2_spec m) as [Hlo Hhi]; [lia |].
  assert (Hs : 1 ≤ s) by (unfold s; lia).
  split; [done |].
  replace (Z.log2 m) with (23 + s) in Hlo by (unfold s; lia).
  replace (Z.succ (Z.log2 m)) with (24 + s) in Hhi by (unfold s; lia).
  rewrite Z.pow_add_r in Hlo, Hhi by lia.
  split; [lia |]. split.
  - replace s with (1 + (s - 1)) at 1 by lia. rewrite Z.pow_add_r by lia. lia.
  - apply Z.pow_pos_nonneg; lia.
Qed.

Lemma fround_nonneg m :
  0 ≤ m → 0 ≤ fm (fround m 0) ≤ 2 ^ 24 ∧ 0 ≤ fe (fround m 0) ∧ 0 ≤ rn m.
Proof.
  intros Hm. unfold rn, fround.
  rewrite (Z.abs_eq m) by done.
  case_bool_decide as Hsmall; simpl.
  - split; [lia |]. split; [lia |]. lia.
  - destruct (round_shift_bounds m) as (Hs & Hm2 & Hpow & Hhalf); [lia |].
    set (s := Z.log2 m - 23) in *.
    assert (Hq := Z.div_mod m (2 ^ s) ltac:(lia)).
    assert (Hr := Z.mod_pos_bound m (2 ^ s) ltac:(lia)).
    set (q := m / 2 ^ s) in *. set (r := m mod 2 ^ s) in *.
    assert (Hqb : 2 ^ 23 ≤ q < 2 ^ 24) by nia.
    assert (Hsgn : Z.sgn m = 1) by (apply Z.sgn_pos; lia).
    rewrite Hsgn.
    repeat case_bool_decide; try destruct (Z.even q); split; try lia; split; try lia;
      apply Z.mul_nonneg_nonneg; try lia.
Qed.

Lemma rn_upper m : 0 ≤ m → 2 ^ 24 * rn m ≤ (2 ^ 24 + 1) * m.
Proof.
  intros Hm. unfold rn, fround.
  rewrite (Z.abs_eq m) by done.
  case_bool_decide as Hsmall; simpl.
  - lia.
  - destruct (round_shift_bounds m) as (Hs & Hm2 & Hpow & Hhalf); [lia |].
    set (s := Z.log2 m - 23) in *.
    assert (Hq := Z.div_mod m (2 ^ s) ltac:(lia)).
    assert (Hr := Z.mod_pos_bound m (2 ^ s) ltac:(lia)).
    set (q := m / 2 ^ s) in *. set (r := m mod 2 ^ s) in *.
    assert (Hsgn : Z.sgn m = 1) by (apply Z.sgn_pos; lia).
    rewrite Hsgn. replace (0 + s) with s by lia.
    set (P := 2 ^ (s - 1)) in *. rewrite Hpow in *.
    repeat case_bool_decide; try destruct (Z.even q); nia.
Qed.

Lemma rn_exact a j : 0 ≤ a ≤ 2 ^ 24 → 0 ≤ j → rn (a * 2 ^ j) = a * 2 ^ j.
Proof.
  intros Ha Hj. unfold rn, fround.
  assert (Hjp : 0 < 2 ^ j) by (apply Z.pow_pos_nonneg; lia).
  rewrite (Z.abs_eq (a * 2 ^ j)) by nia.
  case_bool_decide as Hsmall; simpl.
  - lia.
  - destruct (round_shift_bounds (a * 2 ^ j)) as (Hs & Hm2 & Hpow & Hhalf); [lia |].
    set (m := a * 2 ^ j) in *.
    set (s := Z.log2 m - 23) in *.
    assert (Hdiv : (2 ^ s | m)).
    { destruct (decide (s ≤ j)) as [Hsj | Hsj].
      - exists (a * 2 ^ (j - s)). unfold m.
        replace j with ((j - s) + s) at 1 by lia.
        rewrite Z.pow_add_r by lia. lia.
      - assert (Hpow2 : 2 ^ s = 2 ^ j * 2 ^ (s - j)).
        { rewrite <- Z.pow_add_r by lia. f_equal. lia. }
        assert (Hsj1 : 2 ≤ 2 ^ (s - j)).
        { change 2 with (2 ^ 1) at 1. apply Z.pow_le_mono_r; lia. }
        assert (a = 2 ^ 24) by (unfold m in Hm2; nia).
        assert (2 ^ (s - j) = 2) by (unfold m in Hm2; nia).
        exists (2 ^ 23). unfold m. nia. }
    apply Z.mod_divide in Hdiv; [| lia].
    assert (Hq := Z.div_mod m (2 ^ s) ltac:(lia)).
    rewrite Hdiv in *.
    assert (Hsgn : Z.sgn m = 1) by (apply Z.sgn_pos; lia).
    rewrite Hsgn.
    rewrite bool_decide_eq_true_2 by lia.
    replace (0 + s) with s by lia. lia.
Qed.

(** What [(float) rand_r(&seed)] can be. *)
Lemma rn_raw raw :
  0 ≤ raw ≤ RAND_MAX →
  0 ≤ rn raw ∧ (rn raw ≤ 2 ^ 31 - 128 ∨ rn raw = 2 ^ 31)
  ∧ (raw < 2 ^ 31 - 64 → rn raw ≤ 2 ^ 31 - 128).
Proof.
  intros Hraw. unfold RAND_MAX in Hraw.
  split; [apply fround_nonneg; lia |].
  unfold rn, fround. rewrite (Z.abs_eq raw) by lia.
  case_bool_decide as Hsmall; simpl; [lia |].
  destruct (round_shift_bounds raw) as (Hs & Hm2 & Hpow & Hhalf); [lia |].
  set (s := Z.log2 raw - 23) in *.
  assert (Hs7 : s ≤ 7).
  { unfold s. assert (Z.log2 raw < 31); [| lia]. apply Z.log2_lt_pow2; lia. }
  assert (Hq := Z.div_mod raw (2 ^ s) ltac:(lia)).
  assert (Hr := Z.mod_pos_bound raw (2 ^ s) ltac:(lia)).
  set (q := raw / 2 ^ s) in *. set (r := raw mod 2 ^ s) in *.
  assert (Hsgn : Z.sgn raw = 1) by (apply Z.sgn_pos; lia).
  rewrite Hsgn. replace (0 + s) with s by lia.
  assert (Hcases : s = 1 ∨ s = 2 ∨ s = 3 ∨ s = 4 ∨ s = 5 ∨ s = 6 ∨ s = 7) by lia.
  clearbody s q r.
  destruct Hcases as [-> | [-> | [-> | [-> | [-> | [-> | ->]]]]]];
    change (2 ^ 1) with 2 in *; change (2 ^ 2) with 4 in *; change (2 ^ 3) with 8 in *;
    change (2 ^ 4) with 16 in *; change (2 ^ 5) with 32 in *; change (2 ^ 6) with 64 in *;
    change (2 ^ 7) with 128 in *; simpl Z.sub in *;
    change (2 ^ 0) with 1 in *; change (2 ^ 1) with 2 in *; change (2 ^ 2) with 4 in *;
    change (2 ^ 3) with 8 in *; change (2 ^ 4) with 16 in *; change (2 ^ 5) with 32 in *;
    change (2 ^ 6) with 64 in *;
    repeat case_bool_decide; try destruct (Z.even q); lia.
Qed.

Lemma sv_fround m e : 0 ≤ m → -64 ≤ e → sv (fround m e) = rn m * 2 ^ (e + 64).
Proof.
  intros Hm He. rewrite fround_shift. unfold sv, rn. simpl.
  destruct (fround_nonneg m Hm) as (_ & Hfe & _).
  replace (e + fe (fround m 0) + 64) with (fe (fround m 0) + (e + 64)) by lia.
  rewrite Z.pow_add_r by lia. lia.
Qed.

Lemma fround_fields m e :
  0 ≤ m → 0 ≤ fm (fround m e) ≤ 2 ^ 24 ∧ e ≤ fe (fround m e).
Proof.
  intros Hm. rewrite fround_shift. simpl.
  destruct (fround_nonneg m Hm) as (Hfm & Hfe & _). lia.
Qed.

Lemma int_of_float_sv f :
  0 ≤ fm f → -64 ≤ fe f → int_of_float f = sv f / 2 ^ 64.
Proof.
  intros Hm He. unfold int_of_float, sv.
  case_bool_decide as Hpos.
  - rewrite Z.pow_add_r by lia. rewrite Z.mul_assoc.
    rewrite Z.div_mul; [done | lia].
  - rewrite Z.quot_div_nonneg; [| lia | apply Z.pow_pos_nonneg; lia].
    replace 64 with (- fe f + (fe f + 64)) at 2 by lia.
    rewrite (Z.pow_add_r 2 (- fe f) (fe f + 64)) by lia.
    rewrite Z.div_mul_cancel_r; [done | |].
    + apply Z.pow_nonzero; lia.
    + apply Z.pow_nonzero; lia.
Qed.

Lemma float_of_RAND_MAX : float_of_int RAND_MAX = mkFloat (2 ^ 24) 7.
Proof. reflexivity. Qed.

(** [random] in [randFloat] is [(float) raw / 2 ^ 31], exactly. *)
Lemma random_value raw :
  0 ≤ raw ≤ RAND_MAX →
  let random := fdiv (float_of_int raw) (float_of_int RAND_MAX) in
  0 ≤ fm random ≤ 2 ^ 24 ∧ -64 ≤ fe random ∧ sv random = rn raw * 2 ^ 33.
Proof.
  intros Hraw. rewrite float_of_RAND_MAX. unfold float_of_int.
  assert (Hraw0 : 0 ≤ raw) by lia.
  destruct (fround_nonneg raw Hraw0) as (Hfm & Hfe & _).
  unfold rn. set (ma := fm (fround raw 0)) in *. set (ea := fe (fround raw 0)) in *.
  unfold fdiv. cbn [fm fe]. fold ma. fold ea.
  case_bool_decide as Hzero.
  - cbn [fm fe]. rewrite Hzero. unfold sv. cbn [fm fe]. lia.
  - assert (Hma : 0 < ma) by lia.
    change (Z.abs (2 ^ 24)) with (2 ^ 24).
    change (Z.log2 (2 ^ 24)) with 24.
    change (Z.sgn (2 ^ 24)) with 1.
    rewrite (Z.abs_eq ma) by lia.
    rewrite (Z.sgn_pos ma) by lia.
    assert (Hlog : 0 ≤ Z.log2 ma ≤ 24).
    { split; [apply Z.log2_nonneg |].
      change 24 with (Z.log2 (2 ^ 24)). apply Z.log2_le_mono. lia. }
    rewrite Z.max_r by lia.
    set (k := 27 + 24 - Z.log2 ma) in *.
    assert (Hk : 27 ≤ k ≤ 51) by (unfold k; lia).
    assert (Hnum : ma * 2 ^ k = (ma * 2 ^ (k - 24)) * 2 ^ 24).
    { replace k with ((k - 24) + 24) at 1 by lia. rewrite Z.pow_add_r by lia. lia. }
    rewrite Hnum. rewrite Z.mod_mul by lia. rewrite Z.div_mul by lia.
    rewrite bool_decide_eq_true_2 by done.
    replace (1 * 1 * (2 * (ma * 2 ^ (k - 24)) + 0)) with (ma * 2 ^ (k - 23)).
    2: { replace (k - 23) with (1 + (k - 24)) by lia. rewrite Z.pow_add_r by lia. lia. }
    assert (Hpos : 0 ≤ ma * 2 ^ (k - 23)).
    { apply Z.mul_nonneg_nonneg; [lia |]. apply Z.pow_nonneg. lia. }
    destruct (fround_fields (ma * 2 ^ (k - 23)) (ea - 7 - k - 1) Hpos) as [H1 H2].
    split; [done |]. split; [lia |].
    rewrite sv_fround by lia. rewrite rn_exact by lia.
    rewrite <- !Z.mul_assoc. f_equal.
    rewrite <- !Z.pow_add_r by lia. f_equal. lia.
Qed.

Lemma randInt_of_unfold min max raw :
  randInt_of min max raw
  = int_of_float
      (fadd (float_of_int min)
         (fmul (fdiv (float_of_int raw) (float_of_int RAND_MAX))
            (fsub (float_of_int max) (float_of_int min)))).
Proof. reflexivity. Qed.

Lemma float_of_small m : 0 ≤ m < 2 ^ 24 → float_of_int m = mkFloat m 0.
Proof.
  intros Hm. unfold float_of_int, fround.
  rewrite Z.abs_eq by lia. by rewrite bool_decide_eq_true_2 by lia.
Qed.

(** [randInt(0, m)] on the draw [raw], through the value [sv] of the product
    [random * diff]. *)
Lemma randInt_of_value m raw :
  0 ≤ m < 2 ^ 24 →
  0 ≤ raw ≤ RAND_MAX →
  ∃ mr er,
    0 ≤ mr ≤ 2 ^ 24 ∧ -64 ≤ er
    ∧ mr * 2 ^ (er + 64) = rn raw * 2 ^ 33
    ∧ randInt_of 0 m raw = (rn (mr * m) * 2 ^ (er + 64)) / 2 ^ 64.
Proof.
  intros Hm Hraw.
  destruct (random_value raw Hraw) as (Hfm & Hfe & Hsv).
  set (random := fdiv (float_of_int raw) (float_of_int RAND_MAX)) in *.
  exists (fm random), (fe random).
  split; [done |]. split; [done |]. split; [exact Hsv |].
  rewrite randInt_of_unfold. fold random.
  rewrite (float_of_small m) by done. rewrite (float_of_small 0) by lia.
  assert (Hdiff : fsub (mkFloat m 0) (mkFloat 0 0) = mkFloat m 0).
  { unfold fsub. cbn [fm fe]. change (Z.min 0 0) with 0. change (0 - 0) with 0.
    change (2 ^ 0) with 1. replace (m * 1 - 0 * 1) with m by lia.
    apply (float_of_small m Hm). }
  rewrite Hdiff. unfold fmul. cbn [fm fe].
  replace (fe random + 0) with (fe random) by lia.
  assert (Hprod : 0 ≤ fm random * m) by (apply Z.mul_nonneg_nonneg; lia).
  destruct (fround_fields (fm random * m) (fe random) Hprod) as [Hrm Hre].
  assert (Hsvr := sv_fround (fm random * m) (fe random) Hprod Hfe).
  set (r := fround (fm random * m) (fe random)) in *.
  unfold fadd. cbn [fm fe].
  set (e := Z.min 0 (fe r)).
  assert (He : -64 ≤ e ≤ fe r) by (unfold e; lia).
  replace (0 * 2 ^ (0 - e) + fm r * 2 ^ (fe r - e)) with (fm r * 2 ^ (fe r - e)) by lia.
  assert (Hsum : 0 ≤ fm r * 2 ^ (fe r - e)).
  { apply Z.mul_nonneg_nonneg; [lia |]. apply Z.pow_nonneg. lia. }
  destruct (fround_fields (fm r * 2 ^ (fe r - e)) e Hsum) as [Hfm' Hfe'].
  rewrite int_of_float_sv by lia.
  rewrite sv_fround by lia. rewrite rn_exact by lia.
  f_equal. rewrite <- Hsvr. unfold sv.
  rewrite <- Z.mul_assoc. f_equal.
  rewrite <- Z.pow_add_r by lia. f_equal. lia.
Qed.

(** Every index [randInt(0, m)] returns lies in [0 .. m]. *)
Lemma randInt_of_range m raw :
  0 ≤ m < 2 ^ 24 → 0 ≤ raw ≤ RAND_MAX → 0 ≤ randInt_of 0 m raw ≤ m.
Proof.
  intros Hm Hraw.
  destruct (randInt_of_value m raw Hm Hraw) as (mr & er & Hmr & Her & Hval & ->).
  destruct (rn_raw raw Hraw) as (Ha0 & Ha & _).
  assert (HE : 0 < 2 ^ (er + 64)) by (apply Z.pow_pos_nonneg; lia).
  set (E := 2 ^ (er + 64)) in *.
  assert (Hprod : 0 ≤ mr * m) by (apply Z.mul_nonneg_nonneg; lia).
  destruct (fround_nonneg (mr * m) Hprod) as (_ & _ & Hrn0).
  assert (Hup := rn_upper (mr * m) Hprod).
  split.
  - apply Z.div_pos; [| lia]. apply Z.mul_nonneg_nonneg; lia.
  - destruct Ha as [Ha | Ha].
    + apply Z.div_le_upper_bound; [lia |].
      assert (2 ^ 24 * (rn (mr * m) * E) ≤ (2 ^ 24 + 1) * m * (rn raw * 2 ^ 33)) by nia.
      nia.
    + assert (Her0 : er ≤ 0).
      { destruct (decide (er ≤ 0)); [done | exfalso].
        assert (2 ^ 65 ≤ E).
        { unfold E. apply Z.pow_le_mono_r; [lia | lia]. }
        rewrite Ha in Hval. change (2 ^ 31 * 2 ^ 33) with (2 ^ 64) in Hval.
        destruct (decide (mr = 0)) as [-> | Hne]; [lia |].
        assert (E ≤ mr * E) by nia. lia. }
      assert (Hpow : 2 ^ 64 = 2 ^ (- er) * E).
      { unfold E. rewrite <- Z.pow_add_r by lia. f_equal. lia. }
      assert (Hmr2 : mr = 2 ^ (- er)).
      { rewrite Ha in Hval. change (2 ^ 31 * 2 ^ 33) with (2 ^ 64) in Hval.
        rewrite Hpow in Hval. nia. }
      rewrite Hmr2, (Z.mul_comm (2 ^ (- er)) m).
      rewrite rn_exact by lia.
      rewrite <- Z.mul_assoc, <- Hpow. rewrite Z.div_mul by lia. lia.
Qed.

(** All but the 64 largest draws leave the last index out. *)
Lemma randInt_of_below m raw :
  1 ≤ m < 2 ^ 24 → 0 ≤ raw < 2 ^ 31 - 64 → 0 ≤ randInt_of 0 m raw ≤ m - 1.
Proof.
  intros Hm Hraw.
  assert (Hraw' : 0 ≤ raw ≤ RAND_MAX) by (unfold RAND_MAX; lia).
  split; [apply randInt_of_range; lia |].
  destruct (randInt_of_value m raw ltac:(lia) Hraw') as (mr & er & Hmr & Her & Hval & ->).
  destruct (rn_raw raw Hraw') as (Ha0 & _ & Ha). specialize (Ha ltac:(lia)).
  assert (HE : 0 < 2 ^ (er + 64)) by (apply Z.pow_pos_nonneg; lia).
  set (E := 2 ^ (er + 64)) in *.
  assert (Hprod : 0 ≤ mr * m) by (apply Z.mul_nonneg_nonneg; lia).
  assert (Hup := rn_upper (mr * m) Hprod).
  assert (rn (mr * m) * E / 2 ^ 64 < m); [| lia].
  apply Z.div_lt_upper_bound; [lia |].
  assert (2 ^ 24 * (rn (mr * m) * E) ≤ (2 ^ 24 + 1) * m * (rn raw * 2 ^ 33)) by nia.
  nia.
Qed.

(** The 64 largest draws round to [2 ^ 31]: [random] is 1. *)
Lemma rn_raw_top raw : 2 ^ 31 - 64 ≤ raw ≤ RAND_MAX → rn raw = 2 ^ 31.
Proof.
  intros Hraw. unfold RAND_MAX in Hraw.
  unfold rn, fround. rewrite (Z.abs_eq raw) by lia.
  rewrite bool_decide_eq_false_2 by lia. cbn [fm fe].
  assert (Hlog : Z.log2 raw = 30).
  { apply Z.log2_unique; lia. }
  rewrite Hlog. change (30 - 23) with 7. change (7 - 1) with 6.
  change (2 ^ 7) with 128. change (2 ^ 6) with 64.
  assert (Hq := Z.div_mod raw 128 ltac:(lia)).
  assert (Hr := Z.mod_pos_bound raw 128 ltac:(lia)).
  assert (Hqv : raw / 128 = 16777215) by lia.
  rewrite Hqv in *. rewrite (Z.sgn_pos raw) by lia.
  rewrite bool_decide_eq_false_2 by lia.
  case_bool_decide; reflexivity.
Qed.

Lemma randInt_of_top m raw :
  0 ≤ m < 2 ^ 24 → 2 ^ 31 - 64 ≤ raw ≤ RAND_MAX → randInt_of 0 m raw = m.
Proof.
  intros Hm Hraw.
  assert (Hraw' : 0 ≤ raw ≤ RAND_MAX) by lia.
  destruct (randInt_of_value m raw Hm Hraw') as (mr & er & Hmr & Her & Hval & ->).
  rewrite (rn_raw_top raw Hraw) in Hval.
  change (2 ^ 31 * 2 ^ 33) with (2 ^ 64) in Hval.
  assert (HE : 0 < 2 ^ (er + 64)) by (apply Z.pow_pos_nonneg; lia).
  set (E := 2 ^ (er + 64)) in *.
  assert (Her0 : er ≤ 0).
  { destruct (decide (er ≤ 0)); [done | exfalso].
    assert (2 ^ 65 ≤ E).
    { unfold E. apply Z.pow_le_mono_r; [lia | lia]. }
    destruct (decide (mr = 0)) as [-> | Hne]; [lia |].
    assert (E ≤ mr * E) by nia. lia. }
  assert (Hpow : 2 ^ 64 = 2 ^ (- er) * E).
  { unfold E. rewrite <- Z.pow_add_r by lia. f_equal. lia. }
  assert (Hmr2 : mr = 2 ^ (- er)).
  { rewrite Hpow in Hval. nia. }
  rewrite Hmr2, (Z.mul_comm (2 ^ (- er)) m).
  rewrite rn_exact by lia.
  rewrite <- Z.mul_assoc, <- Hpow. rewrite Z.div_mul by lia. done.
Qed.

Lemma randInt_run {St} (min max : Z) rnd n (s : St) :
  randInt min max rnd n s = Done (randInt_of min max (rnd n)) s (S n) [].
Proof. reflexivity. Qed.

#[local] Arguments randInt_of : simpl never.
#[local] Arguments randInt : simpl never.

(** ** The index of a move *)

(** C4.  In a room with [roomCount] neighbours, two or more, the index that
    [getRandomRoomIndex] returns for a draw of [rand_r] is one of
    [0 .. roomCount - 1], and it is the last one, [roomCount - 1], only for
    the 64 largest of the [2 ^ 31] draws: every other draw picks among the
    neighbours before the last. *)
Theorem last_neighbour_left_out
    {St} (roomCount : Z) (rnd : nat → Z) (n : nat) (s : St) :
  2 ≤ roomCount ≤ 2 ^ 24 →
  0 ≤ rnd n ≤ RAND_MAX →
  ∃ index,
    getRandomRoomIndex roomCount rnd n s = Done index s (S n) []
    ∧ 0 ≤ index ≤ roomCount - 1
    ∧ (index = roomCount - 1 ↔ 2 ^ 31 - 64 ≤ rnd n).
Proof.
  intros Hcount Hraw. unfold getRandomRoomIndex. rewrite randInt_run.
  eexists. split; [reflexivity |].
  split; [apply randInt_of_range; lia |].
  destruct (decide (2 ^ 31 - 64 ≤ rnd n)) as [Htop | Hlow].
  - rewrite randInt_of_top by lia. tauto.
  - assert (Hb := randInt_of_below (roomCount - 1) (rnd n) ltac:(lia) ltac:(lia)).
    split; [lia | contradiction].
Qed.

(** An instance of C4: two neighbours and the draw in the middle of the
    range. *)
Lemma last_neighbour_left_out_witness :
  ∃ index,
    getRandomRoomIndex 2 (λ _, 1073741824) 0%nat tt = Done index tt 1%nat []
    ∧ 0 ≤ index ≤ 2 - 1
    ∧ (index = 2 - 1 ↔ 2 ^ 31 - 64 ≤ 1073741824).
Proof.
  apply (last_neighbour_left_out 2 (λ _, 1073741824) 0 tt).
  - lia.
  - unfold RAND_MAX. lia.
Defined.

(** The ghost of the sample world is in the garage, whose neighbours are the
    kitchen (room 9) and the utility room (room 12), in this order: all but
    the 64 largest draws send it to the kitchen. *)
Lemma ghost_leaves_garage_for_kitchen (rnd : nat → Z) (n : nat) :
  0 ≤ rnd n < 2 ^ 31 - 64 →
  moveToRandomRoomGhost rnd n start_world
  = Done tt (set_ghost (set_groom (Some 9%nat) (ghost start_world)) start_world)
      (S n) [].
Proof.
  intros Hraw. unfold moveToRandomRoomGhost.
  rewrite run_bind. cbn -[start_world randInt].
  change (groom (ghost start_world)) with (Some 11%nat). cbv iota.
  rewrite run_bind.
  change (read_room 11 rnd n start_world)
    with (Done (mkRoom "Garage" (Some []) (Some (new_hunterArray junk_hunter))
                  (Some [9%nat; 12%nat])) start_world n [] : Result World RoomType).
  cbn -[start_world randInt].
  rewrite run_bind, randInt_run.
  assert (Hidx := randInt_of_below 1 (rnd n) ltac:(lia) Hraw).
  match goal with
  | |- context [randInt_of 0 ?m (rnd n)] => change m with 1
  end.
  assert (randInt_of 0 1 (rnd n) = 0) as -> by lia.
  reflexivity.
Qed.

(** ** assignRandomEquipment *)

Lemma draw_equipment_done fuel (assigned : list Z) rnd n (s : HunterArrayType) idx s' n' out :
  draw_equipment fuel assigned rnd n s = Done idx s' n' out →
  s' = s ∧ out = [] ∧ 0 ≤ idx ∧ assigned !! Z.to_nat idx = Some 0.
Proof.
  revert n. induction fuel as [|fuel IH]; intros n; simpl; [discriminate |].
  rewrite run_bind, randInt_run.
  generalize (randInt_of 0 (EV_COUNT - 1) (rnd n)). intros v.
  rewrite run_bind.
  case_bool_decide as Hv; [| discriminate].
  destruct (assigned !! Z.to_nat v) as [taken|] eqn:Htaken; simpl; [| discriminate].
  case_bool_decide as Ht.
  - destruct (draw_equipment fuel assigned rnd (S n) s) eqn:Hrec; try discriminate.
    intros [= -> -> -> ->]. simpl. by eapply IH.
  - intros [= <- <- <- <-].
    assert (taken = 0) as -> by (destruct (decide (taken = 0)); [done | contradiction]).
    done.
Qed.

Lemma map_insert_same {A B} (f : A → B) (l : list A) i x y :
  l !! i = Some x → f y = f x → map f (<[i := y]> l) = map f l.
Proof.
  intros Hx Hf. rewrite (list_fmap_insert f l i y : map f _ = _), Hf.
  apply list_insert_id. change (map f l !! i) with ((f <$> l) !! i).
  by rewrite list_lookup_fmap, Hx.
Qed.

Lemma assignRandomEquipment_loop_done fuel todo :
  ∀ i (assigned : list Z) (arr : HunterArrayType) rnd n arr' n' out,
    assignRandomEquipment_loop fuel i todo assigned rnd n arr = Done tt arr' n' out →
    (∀ e, e ∈ map equipment (take i (hunter arr)) →
          0 ≤ e ∧ assigned !! Z.to_nat e = Some 1) →
    NoDup (map equipment (take i (hunter arr))) →
    out = []
    ∧ hsize arr' = hsize arr
    ∧ hcapacity arr' = hcapacity arr
    ∧ map (set_equipment 0) (hunter arr') = map (set_equipment 0) (hunter arr)
    ∧ NoDup (map equipment (take (i + todo) (hunter arr')))
    ∧ (∀ e, e ∈ map equipment (take (i + todo) (hunter arr')) →
            0 ≤ e < Z.of_nat (length assigned)).
Proof.
  induction todo as [|todo IH]; intros i assigned arr rnd n arr' n' out; simpl.
  - rewrite run_ret. intros [= <- <- <-] Htaken Hnd. rewrite Nat.add_0_r.
    repeat split; try done.
    + apply Htaken in H. tauto.
    + apply Htaken in H as [H0 H1]. apply lookup_lt_Some in H1. lia.
  - rewrite run_bind.
    destruct (draw_equipment fuel assigned rnd n arr) as [idx s1 n1 o1| | |] eqn:Hdraw;
      try discriminate.
    apply draw_equipment_done in Hdraw as (-> & -> & Hidx & Hfree).
    rewrite run_bind. simpl.
    destruct (hunter arr !! i) as [h|] eqn:Hh; simpl; [| discriminate].
    rewrite run_bind; simpl. rewrite run_bind; simpl.
    set (arr1 := mkHunterArray (<[i := set_equipment idx h]> (hunter arr))
                   (hsize arr) (hcapacity arr)).
    set (assigned1 := <[Z.to_nat idx := 1]> assigned).
    destruct (assignRandomEquipment_loop fuel (S i) todo assigned1 rnd n1 arr1)
      as [[] s2 n2 o2| | |] eqn:Hrest; try discriminate.
    intros [= <- <- <-] Htaken Hnd.
    assert (Hi : (i < length (hunter arr))%nat) by (by apply lookup_lt_Some in Hh).
    assert (Htake : map equipment (take (S i) (hunter arr1))
                    = map equipment (take i (hunter arr)) ++ [idx]).
    { unfold arr1. simpl.
      rewrite (take_S_r _ _ (set_equipment idx h)) by (by apply list_lookup_insert_eq).
      rewrite take_insert_ge by lia. by rewrite map_app. }
    assert (Hnotin : idx ∉ map equipment (take i (hunter arr))).
    { intros Hin. apply Htaken in Hin as [_ Hin]. congruence. }
    apply IH in Hrest as (-> & Hsz & Hcap & Hsame & Hnd' & Hrange).
    + replace (i + S todo)%nat with (S i + todo)%nat by lia.
      unfold assigned1 in Hrange. rewrite length_insert in Hrange.
      repeat split; try done.
      * rewrite Hsame. unfold arr1. simpl. by apply (map_insert_same _ _ _ h).
      * by apply Hrange.
      * by apply Hrange.
    + rewrite Htake. intros e He. apply elem_of_app in He as [He | He].
      * destruct (Htaken e He) as [He0 He1]. split; [done |].
        unfold assigned1.
        rewrite list_lookup_insert_ne; [done |].
        intros Heq. apply Hnotin. replace idx with e by lia. done.
      * apply list_elem_of_singleton in He as ->. split; [done |].
        unfold assigned1. apply list_lookup_insert_eq.
        by apply lookup_lt_Some in Hfree.
    + rewrite Htake. apply NoDup_app. split; [done |]. split.
      * intros x Hx Hx'. apply list_elem_of_singleton in Hx' as ->. done.
      * apply NoDup_singleton.
Qed.

(** The do-while loop ends at the first draw of a free index. *)
Lemma draw_equipment_finds (assigned : list Z) (rnd : nat → Z) (s : HunterArrayType) :
  length assigned = 4%nat →
  (∀ m, 0 ≤ randInt_of 0 (EV_COUNT - 1) (rnd m) ≤ 3) →
  ∀ d n,
    assigned !! Z.to_nat (randInt_of 0 (EV_COUNT - 1) (rnd (n + d)%nat)) = Some 0 →
    ∃ idx n', ∀ fuel, (d < fuel)%nat →
      draw_equipment fuel assigned rnd n s = Done idx s n' [].
Proof.
  intros Hlen Hrange. induction d as [|d IH]; intros n Hfree.
  - rewrite Nat.add_0_r in Hfree.
    exists (randInt_of 0 (EV_COUNT - 1) (rnd n)), (S n).
    intros [|fuel] Hfuel; [lia |]. simpl.
    rewrite run_bind, randInt_run, run_bind.
    rewrite bool_decide_eq_true_2 by apply Hrange.
    rewrite Hfree. reflexivity.
  - set (v := randInt_of 0 (EV_COUNT - 1) (rnd n)).
    assert (Hv : (Z.to_nat v < length assigned)%nat).
    { rewrite Hlen. specialize (Hrange n). fold v in Hrange. lia. }
    destruct (lookup_lt_is_Some_2 _ _ Hv) as [taken Htaken].
    destruct (decide (taken = 0)) as [-> | Hne].
    + exists v, (S n). intros [|fuel] Hfuel; [lia |]. simpl.
      rewrite run_bind, randInt_run, run_bind. fold v.
      rewrite bool_decide_eq_true_2 by apply Hrange.
      rewrite Htaken. reflexivity.
    + destruct (IH (S n)) as (idx & n' & Hrun).
      { replace (S n + d)%nat with (n + S d)%nat by lia. done. }
      exists idx, n'. intros [|fuel] Hfuel; [lia |]. simpl.
      rewrite run_bind, randInt_run, run_bind. fold v.
      rewrite bool_decide_eq_true_2 by apply Hrange.
      rewrite Htaken. simpl.
      rewrite (bool_decide_eq_true_2 _ Hne).
      rewrite Hrun by lia. reflexivity.
Qed.

(** With a source that keeps offering every index, the loop over the hunters
    comes to its end. *)
Lemma assignRandomEquipment_loop_terminates (rnd : nat → Z) :
  (∀ m, 0 ≤ randInt_of 0 (EV_COUNT - 1) (rnd m) ≤ 3) →
  offers_every_index rnd →
  ∀ todo i a0 a1 a2 a3 (arr : HunterArrayType) n,
    0 ≤ a0 ≤ 1 → 0 ≤ a1 ≤ 1 → 0 ≤ a2 ≤ 1 → 0 ≤ a3 ≤ 1 →
    a0 + a1 + a2 + a3 + Z.of_nat todo ≤ 4 →
    (i + todo ≤ length (hunter arr))%nat →
    ∃ fuel0, ∀ fuel, (fuel0 ≤ fuel)%nat →
      ∃ arr' n',
        assignRandomEquipment_loop fuel i todo [a0; a1; a2; a3] rnd n arr
        = Done tt arr' n' [].
Proof.
  intros Hrange Hfair. induction todo as [|todo IH];
    intros i a0 a1 a2 a3 arr n H0 H1 H2 H3 Hsum Hbuf.
  - exists 0%nat. intros fuel _. exists arr, n. reflexivity.
  - assert (Hk : ∃ k, 0 ≤ k ≤ 3 ∧ [a0; a1; a2; a3] !! Z.to_nat k = Some 0).
    { destruct (decide (a0 = 0)) as [-> |]; [exists 0; split; [lia | done] |].
      destruct (decide (a1 = 0)) as [-> |]; [exists 1; split; [lia | done] |].
      destruct (decide (a2 = 0)) as [-> |]; [exists 2; split; [lia | done] |].
      destruct (decide (a3 = 0)) as [-> |]; [exists 3; split; [lia | done] |].
      lia. }
    destruct Hk as (k & Hk & Hfree).
    destruct (Hfair n k ltac:(unfold EV_COUNT; lia)) as (m & Hm & Hdraw).
    destruct (draw_equipment_finds [a0; a1; a2; a3] rnd arr eq_refl Hrange (m - n) n)
      as (idx & n1 & Hfind).
    { replace (n + (m - n))%nat with m by lia. by rewrite Hdraw. }
    destruct (draw_equipment_done _ _ _ _ _ _ _ _ _ (Hfind (S (m - n)) ltac:(lia)))
      as (_ & _ & Hidx & Hidxfree).
    assert (Hi : (i < length (hunter arr))%nat) by lia.
    destruct (lookup_lt_is_Some_2 _ _ Hi) as [h Hh].
    set (arr1 := mkHunterArray (<[i := set_equipment idx h]> (hunter arr))
                   (hsize arr) (hcapacity arr)).
    assert (Hnext : ∃ b0 b1 b2 b3,
              <[Z.to_nat idx := 1]> [a0; a1; a2; a3] = [b0; b1; b2; b3]
              ∧ 0 ≤ b0 ≤ 1 ∧ 0 ≤ b1 ≤ 1 ∧ 0 ≤ b2 ≤ 1 ∧ 0 ≤ b3 ≤ 1
              ∧ b0 + b1 + b2 + b3 + Z.of_nat todo ≤ 4).
    { assert (Hcases : idx = 0 ∨ idx = 1 ∨ idx = 2 ∨ idx = 3).
      { apply lookup_lt_Some in Hidxfree. simpl in Hidxfree. lia. }
      destruct Hcases as [-> | [-> | [-> | ->]]]; simpl in Hidxfree;
        injection Hidxfree as ->; eexists _, _, _, _; (split; [reflexivity |]); lia. }
    destruct Hnext as (b0 & b1 & b2 & b3 & Hins & Hb0 & Hb1 & Hb2 & Hb3 & Hsum').
    destruct (IH (S i) b0 b1 b2 b3 arr1 n1 Hb0 Hb1 Hb2 Hb3 Hsum') as (fuel2 & Hrest).
    { unfold arr1. simpl. rewrite length_insert. lia. }
    exists (Nat.max (S (m - n)) fuel2). intros fuel Hfuel.
    destruct (Hrest fuel ltac:(lia)) as (arr' & n' & Hrun).
    exists arr', n'. simpl.
    rewrite run_bind, Hfind by lia.
    rewrite run_bind; simpl. rewrite Hh. simpl.
    rewrite run_bind; simpl. rewrite run_bind; simpl.
    rewrite Hins. fold arr1. rewrite Hrun. reflexivity.
Qed.

(** With four hunters in the array the guards pass and the loop runs. *)
Lemma assignRandomEquipment_four fuel (hunters : HunterArrayType) rnd n :
  hsize hunters = NUM_HUNTERS →
  assignRandomEquipment fuel NUM_HUNTERS rnd n hunters
  = assignRandomEquipment_loop fuel 0 4 [0; 0; 0; 0] rnd n hunters.
Proof.
  intros Hsize. unfold assignRandomEquipment. rewrite run_bind.
  cbn -[assignRandomEquipment_loop]. rewrite Hsize.
  change (bool_decide (NUM_HUNTERS ≤ 0) || bool_decide (NUM_HUNTERS < NUM_HUNTERS))
    with false.
  change (bool_decide (EV_COUNT < NUM_HUNTERS)) with false.
  change (Z.to_nat NUM_HUNTERS) with 4%nat.
  change (replicate (Z.to_nat EV_COUNT) 0) with [0; 0; 0; 0].
  cbv iota.
  destruct (assignRandomEquipment_loop fuel 0 4 [0; 0; 0; 0] rnd n hunters);
    reflexivity.
Qed.

(** C7, as the code has it.  With the four hunters of the house,
    [assignRandomEquipment] need not come to an end: each hunter's do-while
    loop runs until the source offers an index that is still free.  Every run
    that ends has given each of the four hunters one kind of EMF .. SOUND, no
    two hunters the same, and has changed nothing else; and the run ends on
    every source of [rand_r] values that keeps offering each of the four
    indices. *)
Theorem assignRandomEquipment_distinct_kinds
    (hunters : HunterArrayType) (rnd : nat → Z) (n : nat) :
  hsize hunters = NUM_HUNTERS →
  (Z.to_nat NUM_HUNTERS ≤ length (hunter hunters))%nat →
  (∀ fuel hunters' n' out,
     assignRandomEquipment fuel NUM_HUNTERS rnd n hunters = Done tt hunters' n' out →
     out = []
     ∧ hsize hunters' = hsize hunters
     ∧ hcapacity hunters' = hcapacity hunters
     ∧ map (set_equipment 0) (hunter hunters') = map (set_equipment 0) (hunter hunters)
     ∧ (∀ e, e ∈ map equipment (take (Z.to_nat NUM_HUNTERS) (hunter hunters')) →
             EMF ≤ e ≤ SOUND)
     ∧ NoDup (map equipment (take (Z.to_nat NUM_HUNTERS) (hunter hunters'))))
  ∧ (valid_draws rnd → offers_every_index rnd →
     ∃ fuel0, ∀ fuel, (fuel0 ≤ fuel)%nat →
       ∃ hunters' n',
         assignRandomEquipment fuel NUM_HUNTERS rnd n hunters = Done tt hunters' n' []).
Proof.
  intros Hsize Hbuf.
  assert (Hguard := λ fuel, assignRandomEquipment_four fuel hunters rnd n Hsize).
  split.
  - intros fuel hunters' n' out Hrun. rewrite Hguard in Hrun.
    apply assignRandomEquipment_loop_done in Hrun
      as (Hout & Hsz & Hcap & Hsame & Hnd & Hrange).
    + repeat split; try done; apply Hrange in H; simpl in H;
        unfold EMF, SOUND; lia.
    + intros e He. rewrite take_0 in He. by apply elem_of_nil in He.
    + rewrite take_0. apply NoDup_nil_2.
  - intros Hvalid Hfair.
    destruct (assignRandomEquipment_loop_terminates rnd) with
      (todo := 4%nat) (i := 0%nat) (a0 := 0) (a1 := 0) (a2 := 0) (a3 := 0)
      (arr := hunters) (n := n) as (fuel0 & Hterm); try lia; try done.
    + intros m. apply (randInt_of_range 3 (rnd m)); [lia | apply Hvalid].
    + exists fuel0. intros fuel Hfuel. rewrite Hguard. by apply Hterm.
Qed.

Lemma cycling_source_valid : valid_draws cycling_source.
Proof.
  intros m. unfold cycling_source, RAND_MAX.
  destruct (m mod 4)%nat as [|[|[|?]]]; lia.
Qed.

Lemma cycling_source_fair : offers_every_index cycling_source.
Proof.
  intros n k Hk. unfold EV_COUNT in Hk.
  exists (Z.to_nat k + n * 4)%nat. split; [lia |].
  unfold cycling_source. rewrite Nat.Div0.mod_add.
  assert (Hcases : k = 0 ∨ k = 1 ∨ k = 2 ∨ k = 3) by lia.
  destruct Hcases as [-> | [-> | [-> | ->]]]; vm_compute; reflexivity.
Qed.

(** An instance of C7: the hunters of the sample world and the source that
    goes round four draws. *)
Lemma assignRandomEquipment_distinct_kinds_witness :
  ∃ fuel hunters' n',
    assignRandomEquipment fuel NUM_HUNTERS cycling_source 0%nat
      (house_hunterArray (house start_world)) = Done tt hunters' n' []
    ∧ NoDup (map equipment (take (Z.to_nat NUM_HUNTERS) (hunter hunters'))).
Proof.
  destruct (assignRandomEquipment_distinct_kinds
              (house_hunterArray (house start_world)) cycling_source 0)
    as [Hdone Hterm].
  - reflexivity.
  - exact (le_n 4).
  - destruct (Hterm cycling_source_valid cycling_source_fair) as (fuel0 & Hrun).
    destruct (Hrun fuel0 (le_n fuel0)) as (hunters' & n' & Hrun').
    exists fuel0, hunters', n'. split; [exact Hrun' |].
    by apply (Hdone fuel0 hunters' n' []).
Defined.

(** Against C7 as stated: on the source that returns 0 at every draw the
    first hunter is given index 0, and the loop of the second hunter draws
    this taken index for ever, whatever fuel the run is given. *)
Lemma draw_equipment_constant_source fuel n (s : HunterArrayType) :
  draw_equipment fuel [1; 0; 0; 0] (λ _, 0) n s = OutOfFuel.
Proof.
  revert n. induction fuel as [|fuel IH]; intros n; [reflexivity |].
  simpl. rewrite run_bind, randInt_run.
  change (randInt_of 0 (EV_COUNT - 1) 0) with 0.
  rewrite run_bind. simpl. by rewrite IH.
Qed.

Lemma assignRandomEquipment_constant_source_loops :
  ∃ rnd : nat → Z,
    valid_draws rnd
    ∧ ∀ fuel,
        assignRandomEquipment fuel NUM_HUNTERS rnd 0%nat
          (house_hunterArray (house start_world)) = OutOfFuel.
Proof.
  exists (λ _, 0). split.
  { intros m. unfold RAND_MAX. lia. }
  intros fuel. rewrite assignRandomEquipment_four by reflexivity.
  destruct fuel as [|fuel]; [reflexivity |].
  cbn [assignRandomEquipment_loop]. rewrite run_bind.
  assert (Hfirst : ∀ s : HunterArrayType,
            draw_equipment (S fuel) [0; 0; 0; 0] (λ _, 0) 0%nat s = Done 0 s 1%nat []).
  { intros s. cbn [draw_equipment]. rewrite run_bind, randInt_run.
    change (randInt_of 0 (EV_COUNT - 1) 0) with 0. reflexivity. }
  rewrite Hfirst.
  rewrite run_bind. cbn -[draw_equipment assignRandomEquipment_loop start_world].
  rewrite run_bind.
  change (hunter (house_hunterArray (house start_world)) !! 0%nat)
    with (Some (mkHunter "Ann" EV_UNKNOWN 0 0 (Some 0%nat))).
  cbn -[draw_equipment assignRandomEquipment_loop start_world].
  rewrite run_bind. cbn -[draw_equipment assignRandomEquipment_loop start_world].
  rewrite run_bind.
  by rewrite draw_equipment_constant_source.
Qed.

(** ** getRoomAtIndex *)

Lemma getRoomAtIndex_loop_spec (current : list nat) (i index : Z) :
  getRoomAtIndex_loop current i index = current !! Z.to_nat (index - i).
Proof.
  revert i. induction current as [|r next IH]; intros i; simpl.
  - reflexivity.
  - case_bool_decide as Hlt.
    + rewrite IH. replace (Z.to_nat (index - i)) with (S (Z.to_nat (index - (i + 1)))) by lia.
      reflexivity.
    + replace (Z.to_nat (index - i)) with 0%nat by lia. reflexivity.
Qed.

(** X1.  [getRoomAtIndex] returns the room at position [index] of the list;
    a negative index gives the head of the list and an index at or past the
    end gives [NULL]. *)
Theorem getRoomAtIndex_lookup (roomList : list nat) (index : Z) :
  getRoomAtIndex roomList index = roomList !! Z.to_nat index
  ∧ (index < 0 → getRoomAtIndex roomList index = head roomList)
  ∧ (Z.of_nat (length roomList) ≤ index → getRoomAtIndex roomList index = None).
Proof.
  unfold getRoomAtIndex. rewrite getRoomAtIndex_loop_spec, Z.sub_0_r.
  split; [reflexivity |]. split.
  - intros Hneg. replace (Z.to_nat index) with 0%nat by lia. by destruct roomList.
  - intros Hlen. apply lookup_ge_None_2. lia.
Qed.

(** ** addHunter and removeHunter *)

Lemma removeHunter_shift_spec (buf : list HunterType) (j todo : nat) :
  (j + todo < length buf)%nat →
  removeHunter_shift buf j todo
  = Some (take j buf ++ take todo (drop (S j) buf) ++ drop (j + todo) buf).
Proof.
  revert buf j. induction todo as [|todo IH]; intros buf j Hlen; simpl.
  - rewrite Nat.add_0_r. cbn. by rewrite take_drop.
  - destruct (lookup_lt_is_Some_2 buf (S j) ltac:(lia)) as [x Hx].
    rewrite Hx, IH by (rewrite length_insert; lia).
    f_equal.
    rewrite (take_S_r (<[j:=x]> buf) j x)
      by (apply list_lookup_insert_eq; lia).
    rewrite take_insert_ge by lia.
    rewrite !drop_insert_lt by lia.
    rewrite (drop_S buf x (S j) Hx). simpl.
    rewrite <- app_assoc. simpl.
    by replace (j + S todo)%nat with (S (j + todo)) by lia.
Qed.

Lemma removeHunter_loop_spec (arr : HunterArrayType) (hname : string) (index todo : nat) :
  0 ≤ hsize arr ≤ Z.of_nat (length (hunter arr)) →
  (index + todo)%nat = Z.to_nat (hsize arr) →
  ∃ arr',
    removeHunter_loop arr hname index todo = Some arr'
    ∧ in_use arr' = take index (in_use arr) ++ without_first hname (drop index (in_use arr))
    ∧ hcapacity arr' = hcapacity arr
    ∧ length (hunter arr') = length (hunter arr)
    ∧ hsize arr'
      = (if bool_decide (hname ∈ map name (drop index (in_use arr)))
         then hsize arr - 1 else hsize arr)
    ∧ (hname ∉ map name (drop index (in_use arr)) → arr' = arr).
Proof.
  intros Hsize. revert index. induction todo as [|todo IH]; intros index Hsum; simpl.
  - exists arr. split; [done |].
    assert (drop index (in_use arr) = []) as ->.
    { apply drop_ge. unfold in_use. rewrite length_take. lia. }
    simpl. rewrite app_nil_r, take_ge by (unfold in_use; rewrite length_take; lia).
    done.
  - destruct (lookup_lt_is_Some_2 (hunter arr) index ltac:(lia)) as [entry Hentry].
    rewrite Hentry.
    assert (Hdrop : drop index (in_use arr) = entry :: drop (S index) (in_use arr)).
    { apply drop_S. unfold in_use. rewrite lookup_take_lt by lia. done. }
    rewrite Hdrop. simpl.
    destruct (decide (name entry = hname)) as [Hname | Hname].
    + rewrite !(bool_decide_eq_true_2 _ Hname).
      rewrite removeHunter_shift_spec by lia. simpl.
      eexists. split; [reflexivity |].
      rewrite bool_decide_eq_true_2 by (rewrite <- Hname; left).
      unfold in_use. cbn [hunter hsize hcapacity].
      split; [| split; [done | split; [| split; [done |]]]].
      * replace (Z.to_nat (hsize arr - 1 - Z.of_nat index)) with todo by lia.
        replace (Z.to_nat (hsize arr - 1)) with (index + todo)%nat by lia.
        rewrite take_app_ge by (rewrite length_take; lia).
        rewrite length_take, Nat.min_l by lia.
        replace (index + todo - index)%nat with todo by lia.
        rewrite take_app_ge by (rewrite length_take, length_drop; lia).
        rewrite length_take, length_drop, Nat.min_l by lia.
        rewrite Nat.sub_diag, take_0, app_nil_r.
        rewrite take_take, Nat.min_l by lia.
        rewrite skipn_firstn_comm.
        by replace (Z.to_nat (hsize arr) - S index)%nat with todo by lia.
      * rewrite !length_app, !length_take, !length_drop. lia.
      * intros Hnot. exfalso. apply Hnot. rewrite <- Hname. left.
    + rewrite !(bool_decide_eq_false_2 _ Hname).
      destruct (IH (S index) ltac:(lia)) as (arr' & Hrun & Huse & Hcap & Hlen & Hsz & Hsame).
      exists arr'. split; [done |].
      split; [| split; [done | split; [done | split]]].
      * rewrite Huse. rewrite (take_S_r (in_use arr) index entry).
        -- by rewrite <- app_assoc.
        -- unfold in_use. by rewrite lookup_take_lt by lia.
      * rewrite Hsz.
        rewrite (bool_decide_ext
                   (hname ∈ name entry :: map name (drop (S index) (in_use arr)))
                   (hname ∈ map name (drop (S index) (in_use arr)))); [done |].
        rewrite elem_of_cons. intuition congruence.
      * intros Hnot. apply Hsame. intros Hin. apply Hnot. by right.
Qed.

Lemma addHunter_run (arr : HunterArrayType) (h : HunterType) rnd n :
  0 ≤ hsize arr < Z.of_nat (length (hunter arr)) →
  hsize arr < hcapacity arr →
  addHunter h rnd n arr
  = Done 0 (mkHunterArray (<[Z.to_nat (hsize arr) := h]> (hunter arr))
              (hsize arr + 1) (hcapacity arr)) n [].
Proof.
  intros Hsize Hcap. unfold addHunter. rewrite run_bind. cbn [get].
  rewrite bool_decide_eq_false_2 by lia.
  rewrite bool_decide_eq_true_2 by lia.
  reflexivity.
Qed.

Lemma in_use_added (arr : HunterArrayType) (h : HunterType) :
  0 ≤ hsize arr < Z.of_nat (length (hunter arr)) →
  in_use (mkHunterArray (<[Z.to_nat (hsize arr) := h]> (hunter arr))
            (hsize arr + 1) (hcapacity arr))
  = in_use arr ++ [h].
Proof.
  intros Hsize. unfold in_use. cbn [hunter hsize].
  replace (Z.to_nat (hsize arr + 1)) with (S (Z.to_nat (hsize arr))) by lia.
  rewrite (take_S_r _ _ h) by (apply list_lookup_insert_eq; lia).
  by rewrite take_insert_ge by lia.
Qed.

Lemma without_first_absent (hname : string) (hs : list HunterType) :
  hname ∉ map name hs → without_first hname hs = hs.
Proof.
  induction hs as [|h rest IH]; simpl; [done |].
  rewrite not_elem_of_cons. intros [Hne Hrest].
  rewrite bool_decide_eq_false_2 by congruence. by rewrite IH.
Qed.

Lemma without_first_app_absent (hname : string) (hs rest : list HunterType) :
  hname ∉ map name hs →
  without_first hname (hs ++ rest) = hs ++ without_first hname rest.
Proof.
  induction hs as [|h hs IH]; simpl; [done |].
  rewrite not_elem_of_cons. intros [Hne Hrest].
  rewrite bool_decide_eq_false_2 by congruence. by rewrite IH.
Qed.

(** X2.  [removeHunter] takes the first entry in use that bears the hunter's
    name out of the array and closes the gap, keeping the order of the
    others; the size goes down by one.  With no entry of that name the array
    is left as it is.  It prints nothing. *)
Theorem removeHunter_removes_first_match
    (arr : HunterArrayType) (h : HunterType) (rnd : nat → Z) (n : nat) :
  0 ≤ hsize arr ≤ Z.of_nat (length (hunter arr)) →
  ∃ arr',
    removeHunter h rnd n arr = Done tt arr' n []
    ∧ in_use arr' = without_first (name h) (in_use arr)
    ∧ hsize arr'
      = (if bool_decide (name h ∈ map name (in_use arr))
         then hsize arr - 1 else hsize arr)
    ∧ hcapacity arr' = hcapacity arr
    ∧ (name h ∉ map name (in_use arr) → arr' = arr).
Proof.
  intros Hsize.
  destruct (removeHunter_loop_spec arr (name h) 0 (Z.to_nat (hsize arr)) Hsize eq_refl)
    as (arr' & Hrun & Huse & Hcap & _ & Hsz & Hsame).
  exists arr'. unfold removeHunter. rewrite run_bind. cbn [get].
  rewrite Hrun. rewrite drop_0 in *. done.
Qed.

(** An instance of X2: Bob leaves a roster of three. *)
Lemma removeHunter_removes_first_match_witness :
  ∃ arr',
    removeHunter (mkHunter "Bob" SOUND 0 0 None) (λ _, 0) 0%nat
      (mkHunterArray
         [mkHunter "Ann" EMF 0 0 None; mkHunter "Bob" EV_UNKNOWN 0 0 None;
          mkHunter "Cy" SOUND 0 0 None; junk_hunter] 3 4)
    = Done tt arr' 0%nat []
    ∧ in_use arr' = [mkHunter "Ann" EMF 0 0 None; mkHunter "Cy" SOUND 0 0 None]
    ∧ hsize arr' = 2
    ∧ hcapacity arr' = 4.
Proof.
  destruct (removeHunter_removes_first_match
              (mkHunterArray
                 [mkHunter "Ann" EMF 0 0 None; mkHunter "Bob" EV_UNKNOWN 0 0 None;
                  mkHunter "Cy" SOUND 0 0 None; junk_hunter] 3 4)
              (mkHunter "Bob" SOUND 0 0 None) (λ _, 0) 0%nat)
    as (arr' & Hrun & Huse & Hsz & Hcap & _).
  - simpl. lia.
  - exists arr'. split; [exact Hrun |]. split; [exact Huse |].
    split; [exact Hsz | exact Hcap].
Defined.

(** X3.  A hunter added to an array that has room for it and lists nobody of
    its name is the entry that [removeHunter] then takes out: the entries in
    use, the size and the capacity are as before the two calls. *)
Theorem addHunter_then_removeHunter
    (arr : HunterArrayType) (h : HunterType) (rnd : nat → Z) (n : nat) :
  0 ≤ hsize arr < Z.of_nat (length (hunter arr)) →
  hsize arr < hcapacity arr →
  name h ∉ map name (in_use arr) →
  ∃ arr',
    (addHunter h;; removeHunter h) rnd n arr = Done tt arr' n []
    ∧ in_use arr' = in_use arr
    ∧ hsize arr' = hsize arr
    ∧ hcapacity arr' = hcapacity arr.
Proof.
  intros Hsize Hcap Hfresh.
  set (arr1 := mkHunterArray (<[Z.to_nat (hsize arr) := h]> (hunter arr))
                 (hsize arr + 1) (hcapacity arr)).
  destruct (removeHunter_loop_spec arr1 (name h) 0 (Z.to_nat (hsize arr1)))
    as (arr' & Hrun & Huse & Hcap' & _ & Hsz & _).
  { unfold arr1. cbn [hsize hunter]. rewrite length_insert. lia. }
  { reflexivity. }
  exists arr'.
  rewrite (run_bind_done _ _ _ _ _ _ _ _ _ (addHunter_run arr h rnd n Hsize Hcap)).
  fold arr1. unfold removeHunter. rewrite run_bind. cbn [get].
  rewrite Hrun. cbn.
  rewrite drop_0 in Huse, Hsz. cbn [take] in Huse.
  assert (Hadded := in_use_added arr h Hsize). fold arr1 in Hadded.
  rewrite Hadded in Huse, Hsz.
  rewrite without_first_app_absent in Huse by done.
  cbn in Huse. rewrite bool_decide_eq_true_2 in Huse by done.
  rewrite bool_decide_eq_true_2 in Hsz
    by (rewrite map_app, elem_of_app; right; left).
  split; [done |]. split; [by rewrite Huse, app_nil_r |].
  split; [rewrite Hsz; unfold arr1; cbn; lia | done].
Qed.

(** An instance of X3: Di joins a roster of two and leaves it again. *)
Lemma addHunter_then_removeHunter_witness :
  ∃ arr',
    (addHunter (mkHunter "Di" EMF 0 0 None);; removeHunter (mkHunter "Di" EMF 0 0 None))
      (λ _, 0) 0%nat
      (mkHunterArray
         [mkHunter "Ann" EMF 0 0 None; mkHunter "Bob" EV_UNKNOWN 0 0 None;
          junk_hunter; junk_hunter] 2 4)
    = Done tt arr' 0%nat []
    ∧ in_use arr' = [mkHunter "Ann" EMF 0 0 None; mkHunter "Bob" EV_UNKNOWN 0 0 None]
    ∧ hsize arr' = 2
    ∧ hcapacity arr' = 4.
Proof.
  apply (addHunter_then_removeHunter
           (mkHunterArray
              [mkHunter "Ann" EMF 0 0 None; mkHunter "Bob" EV_UNKNOWN 0 0 None;
               junk_hunter; junk_hunter] 2 4)
           (mkHunter "Di" EMF 0 0 None) (λ _, 0) 0%nat).
  - simpl. lia.
  - simpl. lia.
  - apply (bool_decide_unpack _). vm_compute. exact I.
Defined.

(** ** connectRooms *)

Lemma read_room_run (w : World) r rm rnd n :
  heap w !! r = Some rm → read_room r rnd n w = Done rm w n [].
Proof. intros Hrm. unfold read_room. rewrite run_bind. cbn [get]. by rewrite Hrm. Qed.

Lemma initializeAndConnect_run (w : World) (a b : nat) rm rnd n :
  heap w !! a = Some rm →
  initializeAndConnect a b rnd n w
  = Done tt
      (set_heap
         (<[a := mkRoom (rname rm) (evidencelist rm) (hunterArray rm)
                   (Some (default [] (roomlist rm) ++ [b]))]> (heap w)) w) n [].
Proof.
  intros Hrm. unfold initializeAndConnect.
  rewrite (run_bind_done _ _ _ _ _ _ _ _ _ (read_room_run w a rm rnd n Hrm)).
  rewrite run_bind. reflexivity.
Qed.

Lemma neighbours_connected (w : World) (a b : nat) rm (r : nat) :
  heap w !! a = Some rm →
  neighbours
    (set_heap
       (<[a := mkRoom (rname rm) (evidencelist rm) (hunterArray rm)
                 (Some (default [] (roomlist rm) ++ [b]))]> (heap w)) w) r
  = neighbours w r ++ (if bool_decide (r = a) then [b] else []).
Proof.
  intros Hrm. unfold neighbours. cbn [heap set_heap].
  destruct (decide (r = a)) as [-> | Hne].
  - rewrite list_lookup_insert_eq by (by apply lookup_lt_Some in Hrm).
    rewrite Hrm, bool_decide_eq_true_2 by done. reflexivity.
  - rewrite list_lookup_insert_ne by done.
    rewrite bool_decide_eq_false_2 by done.
    by rewrite app_nil_r.
Qed.

(** X4.  [connectRooms] on two rooms of the house appends each to the end of
    the other's room list and leaves the lists of the other rooms alone; the
    number of rooms stays.  A house in which every connection goes both ways
    is still such a house afterwards. *)
Theorem connectRooms_links_both_ways
    (w : World) (room1 room2 : nat) (rnd : nat → Z) (n : nat) :
  (room1 < length (heap w))%nat →
  (room2 < length (heap w))%nat →
  ∃ w',
    connectRooms room1 room2 rnd n w = Done tt w' n []
    ∧ length (heap w') = length (heap w)
    ∧ (∀ r, neighbours w' r
            = neighbours w r
              ++ (if bool_decide (r = room1) then [room2] else [])
              ++ (if bool_decide (r = room2) then [room1] else []))
    ∧ (symmetric_house w → symmetric_house w').
Proof.
  intros H1 H2.
  destruct (lookup_lt_is_Some_2 _ _ H1) as [rm1 Hrm1].
  set (w1 := set_heap
               (<[room1 := mkRoom (rname rm1) (evidencelist rm1) (hunterArray rm1)
                             (Some (default [] (roomlist rm1) ++ [room2]))]> (heap w)) w).
  assert (Hlen1 : length (heap w1) = length (heap w))
    by (unfold w1; cbn [heap set_heap]; by rewrite length_insert).
  destruct (lookup_lt_is_Some_2 (heap w1) room2 ltac:(lia)) as [rm2 Hrm2].
  set (w2 := set_heap
               (<[room2 := mkRoom (rname rm2) (evidencelist rm2) (hunterArray rm2)
                             (Some (default [] (roomlist rm2) ++ [room1]))]> (heap w1)) w1).
  assert (Hnb : ∀ r, neighbours w2 r
            = neighbours w r
              ++ (if bool_decide (r = room1) then [room2] else [])
              ++ (if bool_decide (r = room2) then [room1] else [])).
  { intros r. unfold w2. rewrite (neighbours_connected w1 room2 room1 rm2 r Hrm2).
    unfold w1. rewrite (neighbours_connected w room1 room2 rm1 r Hrm1).
    by rewrite <- app_assoc. }
  exists w2. unfold connectRooms.
  rewrite (run_bind_done _ _ _ _ _ _ _ _ _
             (initializeAndConnect_run w room1 room2 rm1 rnd n Hrm1)).
  fold w1. rewrite (initializeAndConnect_run w1 room2 room1 rm2 rnd n Hrm2).
  fold w2. split; [reflexivity |].
  split; [unfold w2; cbn [heap set_heap]; by rewrite length_insert |].
  split; [exact Hnb |].
  intros Hsym a b. rewrite !Hnb, !elem_of_app, (Hsym a b).
  repeat case_bool_decide; rewrite ?list_elem_of_singleton, ?elem_of_nil;
    intuition congruence.
Qed.

(** An instance of X4: a second door between the van and the garage of the
    sample house. *)
Lemma connectRooms_links_both_ways_witness :
  ∃ w',
    connectRooms 0 11 (λ _, 0) 0%nat start_world = Done tt w' 0%nat []
    ∧ neighbours w' 0 = [1%nat; 11%nat]
    ∧ neighbours w' 11 = [9%nat; 12%nat; 0%nat].
Proof.
  destruct (connectRooms_links_both_ways start_world 0 11 (λ _, 0) 0%nat)
    as (w' & Hrun & _ & Hnb & _).
  - vm_compute. lia.
  - vm_compute. lia.
  - exists w'. split; [exact Hrun |].
    split; [exact (Hnb 0%nat) | exact (Hnb 11%nat)].
Defined.

(** ** The ghost's first room *)

Lemma is_non_van_room (w : World) (r : nat) rm :
  heap w !! r = Some rm → is_non_van w r = bool_decide (rname rm ≠ "Van").
Proof. intros Hrm. unfold is_non_van. by rewrite Hrm. Qed.

Lemma countNonVanRooms_loop_spec (w : World) (current : list nat) (count : Z) rnd n :
  (∀ r, r ∈ current → (r < length (heap w))%nat) →
  countNonVanRooms_loop current count rnd n w
  = Done (count + Z.of_nat (length (filter (λ r, is_non_van w r = true) current))) w n [].
Proof.
  revert count. induction current as [|r next IH]; intros count Hvalid; simpl.
  - rewrite Z.add_0_r. reflexivity.
  - destruct (lookup_lt_is_Some_2 (heap w) r) as [rm Hrm]; [apply Hvalid; left |].
    rewrite (run_bind_done _ _ _ _ _ _ _ _ _ (read_room_run w r rm rnd n Hrm)).
    rewrite IH by (intros r' Hr'; apply Hvalid; by right).
    rewrite filter_cons, (is_non_van_room w r rm Hrm).
    case_bool_decide as Hvan.
    + rewrite decide_True by done. simpl. f_equal. lia.
    + rewrite decide_False by done. reflexivity.
Qed.

Lemma findRoomByIndex_spec (w : World) (current : list nat) (index : Z) rnd n :
  (∀ r, r ∈ current → (r < length (heap w))%nat) →
  findRoomByIndex current index rnd n w
  = Done (if bool_decide (0 ≤ index)
          then filter (λ r, is_non_van w r = true) current !! Z.to_nat index
          else None) w n [].
Proof.
  revert index. induction current as [|r next IH]; intros index Hvalid; simpl.
  - by case_bool_decide.
  - destruct (lookup_lt_is_Some_2 (heap w) r) as [rm Hrm]; [apply Hvalid; left |].
    rewrite (run_bind_done _ _ _ _ _ _ _ _ _ (read_room_run w r rm rnd n Hrm)).
    rewrite filter_cons, (is_non_van_room w r rm Hrm).
    case_bool_decide as Hvan.
    + rewrite decide_True by done. case_bool_decide as Hzero.
      * subst index. reflexivity.
      * rewrite IH by (intros r' Hr'; apply Hvalid; by right).
        simpl. f_equal. repeat case_bool_decide; try lia; [| done].
        replace (Z.to_nat index) with (S (Z.to_nat (index - 1))) by lia.
        reflexivity.
    + rewrite decide_False by done.
      rewrite IH by (intros r' Hr'; apply Hvalid; by right). reflexivity.
Qed.

(** X5.  In a house whose list of rooms holds at least one room that is not
    the van, [getRandomRoomExcludeVan] returns a room of that list which is
    not the van, whatever [rand()] returns: with [k] such rooms it is the one
    at position [raw mod k] among them.  It prints nothing and changes
    nothing. *)
Theorem getRandomRoomExcludeVan_never_the_van
    (w : World) (raw : Z) (rnd : nat → Z) (n : nat) :
  (∀ r, r ∈ house_rooms (house w) → (r < length (heap w))%nat) →
  non_van_rooms w ≠ [] →
  0 ≤ raw →
  ∃ r rm,
    getRandomRoomExcludeVan raw rnd n w = Done (Some r) w n []
    ∧ non_van_rooms w !! Z.to_nat (raw mod Z.of_nat (length (non_van_rooms w))) = Some r
    ∧ r ∈ house_rooms (house w)
    ∧ heap w !! r = Some rm
    ∧ rname rm ≠ "Van".
Proof.
  intros Hvalid Hsome Hraw.
  set (k := Z.of_nat (length (non_van_rooms w))).
  assert (Hk : 0 < k).
  { unfold k. destruct (non_van_rooms w); [done | simpl; lia]. }
  assert (Hidx : 0 ≤ raw mod k < k) by (apply Z.mod_pos_bound; lia).
  destruct (lookup_lt_is_Some_2 (non_van_rooms w) (Z.to_nat (raw mod k)) ltac:(lia))
    as [r Hr].
  assert (Hin : r ∈ non_van_rooms w) by (by eapply list_elem_of_lookup_2).
  apply list_elem_of_filter in Hin as [Hnon Hin].
  destruct (lookup_lt_is_Some_2 (heap w) r (Hvalid r Hin)) as [rm Hrm].
  rewrite (is_non_van_room w r rm Hrm) in Hnon.
  apply bool_decide_eq_true_1 in Hnon.
  exists r, rm. split; [| done].
  unfold getRandomRoomExcludeVan. rewrite run_bind. cbn [get].
  destruct (house_rooms (house w)) as [|r0 rest] eqn:Hrooms.
  { exfalso. apply Hsome. unfold non_van_rooms. by rewrite Hrooms. }
  rewrite <- Hrooms in Hvalid, Hin |- *. unfold countNonVanRooms.
  rewrite run_bind, countNonVanRooms_loop_spec by done.
  change (filter (λ r1, is_non_van w r1 = true) (house_rooms (house w)))
    with (non_van_rooms w).
  rewrite Z.add_0_l. fold k. cbn [app].
  rewrite bool_decide_eq_false_2 by lia.
  rewrite Z.rem_mod_nonneg by lia.
  rewrite findRoomByIndex_spec by done.
  rewrite bool_decide_eq_true_2 by lia.
  change (filter (λ r1, is_non_van w r1 = true) (house_rooms (house w)))
    with (non_van_rooms w).
  by rewrite Hr.
Qed.

(** An instance of X5: in the sample house [rand()] returning 24 puts the
    ghost into the hallway (room 1), the first of the twelve rooms that are
    not the van. *)
Lemma getRandomRoomExcludeVan_never_the_van_witness :
  ∃ r rm,
    getRandomRoomExcludeVan 24 (λ _, 0) 0%nat start_world
    = Done (Some r) start_world 0%nat []
    ∧ non_van_rooms start_world
        !! Z.to_nat (24 mod Z.of_nat (length (non_van_rooms start_world))) = Some r
    ∧ r ∈ house_rooms (house start_world)
    ∧ heap start_world !! r = Some rm
    ∧ rname rm ≠ "Van".
Proof.
  apply (getRandomRoomExcludeVan_never_the_van start_world 24 (λ _, 0) 0%nat).
  - apply (proj1 (Forall_forall _ _)). apply (bool_decide_unpack _). vm_compute. exact I.
  - vm_compute. discriminate.
  - lia.
Defined.

(** ** randomGhost *)

(** X6.  For a draw that [rand_r] can return, [randomGhost] returns one of
    the four ghost classes or [GHOST_COUNT], which is no class of ghost; it
    returns [GHOST_COUNT] exactly for the 64 largest draws.  A ghost of that
    class leaves [EV_UNKNOWN] whatever is drawn for its evidence. *)
Theorem randomGhost_may_return_GHOST_COUNT
    {St} (rnd : nat → Z) (n : nat) (s : St) :
  0 ≤ rnd n ≤ RAND_MAX →
  ∃ g,
    randomGhost rnd n s = Done g s (S n) []
    ∧ (g ∈ ghost_classes ∨ g = GHOST_COUNT)
    ∧ (g = GHOST_COUNT ↔ 2 ^ 31 - 64 ≤ rnd n)
    ∧ (∀ choice, determineEvidenceType_of GHOST_COUNT choice = EV_UNKNOWN).
Proof.
  intros Hraw. unfold randomGhost. rewrite run_bind, randInt_run.
  change (int_of_GhostClass GHOST_COUNT) with 4.
  destruct (decide (2 ^ 31 - 64 ≤ rnd n)) as [Htop | Hlow].
  - rewrite randInt_of_top by lia.
    exists GHOST_COUNT. split; [reflexivity |]. split; [by right |]. done.
  - assert (Hb := randInt_of_below 4 (rnd n) ltac:(lia) ltac:(lia)).
    generalize dependent (randInt_of 0 4 (rnd n)). intros v Hv.
    assert (v = 0 ∨ v = 1 ∨ v = 2 ∨ v = 3) as [-> | [-> | [-> | ->]]] by lia;
      eexists; (split; [reflexivity |]);
      (split; [left; apply (bool_decide_unpack _); vm_compute; exact I |]);
      (split; [| done]); (split; [discriminate | lia]).
Qed.

(** An instance of X6: the largest draw. *)
Lemma randomGhost_may_return_GHOST_COUNT_witness :
  ∃ g,
    randomGhost (λ _, RAND_MAX) 0%nat tt = Done g tt 1%nat []
    ∧ (g ∈ ghost_classes ∨ g = GHOST_COUNT)
    ∧ (g = GHOST_COUNT ↔ 2 ^ 31 - 64 ≤ RAND_MAX)
    ∧ (∀ choice, determineEvidenceType_of GHOST_COUNT choice = EV_UNKNOWN).
Proof.
  apply (randomGhost_may_return_GHOST_COUNT (λ _, RAND_MAX) 0%nat tt).
  unfold RAND_MAX. lia.
Defined.

(** ** The hunter's review and collection *)

(** X7.  A hunter who reviews the evidence ends its thread exactly when the
    shared pool holds EMF, TEMPERATURE and FINGERPRINTS, the three kinds
    below [MAX_EV]; otherwise it logs an insufficient review and goes on.
    What else the pool holds makes no difference, and the world stays as it
    is either way. *)
Theorem review_ends_thread_iff_first_three_kinds
    (w : World) (i : nat) (h : HunterType) (rnd : nat → Z) (n : nat) :
  hunter (house_hunterArray (house w)) !! i = Some h →
  0 ≤ size (house_evidenceArray (house w))
    ≤ Z.of_nat (length (evidence (house_evidenceArray (house w)))) →
  ∃ out,
    reviewEvidenceAndExitIfNeeded i rnd n w
    = if bool_decide (EMF ∈ collected (house_evidenceArray (house w))
                      ∧ TEMPERATURE ∈ collected (house_evidenceArray (house w))
                      ∧ FINGERPRINTS ∈ collected (house_evidenceArray (house w)))
      then Exited w n (out ++ [L_hunterReview (name h) LOG_SUFFICIENT])
      else Done tt w n (out ++ [L_hunterReview (name h) LOG_INSUFFICIENT]).
Proof.
  intros Hh Hsize.
  destruct (isSufficientEvidence_counts _ rnd n Hsize) as [out Hrun].
  exists out. unfold reviewEvidenceAndExitIfNeeded.
  rewrite (run_bind_done _ _ _ _ _ _ _ _ _ (read_hunter_run w i h rnd n Hh)).
  rewrite run_bind. unfold sharedEvidence. rewrite run_zoom, Hrun.
  assert (Hsame : set_house
            (set_house_evidenceArray (house_evidenceArray (house w)) (house w)) w = w)
    by (by destruct w as [? [] ? ?]).
  rewrite Hsame.
  set (pool := collected (house_evidenceArray (house w))).
  destruct (decide (EMF ∈ pool)) as [H0 | H0];
    destruct (decide (TEMPERATURE ∈ pool)) as [H1 | H1];
    destruct (decide (FINGERPRINTS ∈ pool)) as [H2 | H2];
    rewrite ?(bool_decide_eq_true_2 _ H0), ?(bool_decide_eq_false_2 _ H0),
      ?(bool_decide_eq_true_2 _ H1), ?(bool_decide_eq_false_2 _ H1),
      ?(bool_decide_eq_true_2 _ H2), ?(bool_decide_eq_false_2 _ H2);
    first [ rewrite (bool_decide_eq_true_2 (_ ∧ _)) by done
          | rewrite (bool_decide_eq_false_2 (_ ∧ _)) by tauto ];
    cbn; by rewrite ?app_nil_r.
Qed.

(** An instance of X7: the banshee's three kinds do not end the review. *)
Lemma review_ends_thread_iff_first_three_kinds_witness :
  ∃ out,
    reviewEvidenceAndExitIfNeeded 0 (λ _, 0) 0%nat banshee_world
    = Done tt banshee_world 0%nat (out ++ [L_hunterReview "Ann" LOG_INSUFFICIENT]).
Proof.
  destruct (review_ends_thread_iff_first_three_kinds banshee_world 0
              (mkHunter "Ann" EV_UNKNOWN 0 0 (Some 0%nat)) (λ _, 0) 0%nat)
    as [out Hrun].
  - reflexivity.
  - vm_compute. split; discriminate.
  - exists out. exact Hrun.
Defined.

(** ** The ledger of a room *)

(** X8.  [addEv] appends one entry to the ledger of the ghost's room and
    touches nothing else: the other rooms, the house, the ghost and the flag
    are as before.  The entry is one of the three kinds of the ghost's class
    whatever is drawn, and a hunter whose equipment is that kind finds it
    when it queries the room next. *)
Theorem addEv_appends_to_the_ghosts_ledger
    (w : World) (r : nat) (rm : RoomType) (ledger : list Z) (rnd : nat → Z) (n : nat) :
  groom (ghost w) = Some r →
  heap w !! r = Some rm →
  evidencelist rm = Some ledger →
  ∃ ev w',
    addEv rnd n w = Done ev w' (S n) []
    ∧ heap w' !! r
      = Some (mkRoom (rname rm) (Some (ledger ++ [ev])) (hunterArray rm) (roomlist rm))
    ∧ (∀ r', r' ≠ r → heap w' !! r' = heap w !! r')
    ∧ house w' = house w ∧ ghost w' = ghost w ∧ gameOver w' = gameOver w
    ∧ (ghostType (ghost w) ∈ ghost_classes → ev ∈ evidence_subset (ghostType (ghost w)))
    ∧ ∀ m, doesEvidenceExist (Some r) ev rnd m w' = Done ev w' m [].
Proof.
  intros Hghost Hrm Hledger.
  set (ev := determineEvidenceType_of (ghostType (ghost w)) (randInt_of 0 3 (rnd n))).
  set (rm' := mkRoom (rname rm) (Some (ledger ++ [ev])) (hunterArray rm) (roomlist rm)).
  exists ev, (set_heap (<[r := rm']> (heap w)) w).
  assert (Hr : (r < length (heap w))%nat) by (by apply lookup_lt_Some in Hrm).
  split.
  { unfold addEv. rewrite run_bind. cbn [get]. rewrite Hghost.
    rewrite (run_bind_done _ _ _ _ _ _ _ _ _ (read_room_run w r rm rnd n Hrm)).
    rewrite Hledger. unfold determineEvidenceType.
    rewrite !run_bind, randInt_run. reflexivity. }
  cbn [heap set_heap house ghost gameOver].
  split; [by apply list_lookup_insert_eq |].
  split; [intros r' Hne; by apply list_lookup_insert_ne |].
  do 3 (split; [reflexivity |]).
  split.
  - unfold ev, evidence_subset. generalize (randInt_of 0 3 (rnd n)). intros choice Hg.
    destruct (ghostType (ghost w));
      try (exfalso; unfold ghost_classes in Hg;
           rewrite !elem_of_cons, elem_of_nil in Hg; intuition discriminate);
      cbn; repeat case_bool_decide; try lia;
      apply (bool_decide_unpack _); vm_compute; exact I.
  - intros m. unfold doesEvidenceExist.
    assert (Hlook : heap (set_heap (<[r := rm']> (heap w)) w) !! r = Some rm')
      by (by apply list_lookup_insert_eq).
    rewrite (run_bind_done _ _ _ _ _ _ _ _ _ (read_room_run _ r rm' rnd m Hlook)).
    cbn. rewrite doesEvidenceExist_loop_spec.
    rewrite bool_decide_eq_true_2 by (rewrite elem_of_app; right; left).
    reflexivity.
Qed.

(** An instance of X8: the banshee of the sample world leaves EMF in the
    garage. *)
Lemma addEv_appends_to_the_ghosts_ledger_witness :
  ∃ ev w',
    addEv (λ _, 0) 0%nat start_world = Done ev w' 1%nat []
    ∧ heap w' !! 11%nat
      = Some (mkRoom "Garage" (Some ([] ++ [ev])) (Some (new_hunterArray junk_hunter))
                (Some [9%nat; 12%nat]))
    ∧ ev ∈ evidence_subset BANSHEE.
Proof.
  destruct (addEv_appends_to_the_ghosts_ledger start_world 11
              (mkRoom "Garage" (Some []) (Some (new_hunterArray junk_hunter))
                 (Some [9%nat; 12%nat])) [] (λ _, 0) 0%nat)
    as (ev & w' & Hrun & Hroom & _ & _ & _ & _ & Hkind & _).
  - reflexivity.
  - reflexivity.
  - reflexivity.
  - exists ev, w'. split; [exact Hrun |]. split; [exact Hroom |].
    apply Hkind. apply (bool_decide_unpack _). vm_compute. exact I.
Defined.

(** X9.  A hunter whose room's ledger holds the kind of its equipment logs a
    collection whatever [collectEv] did with it: also when the pool was full
    or held the kind already, so that nothing was collected.  The line about
    a failure to add is never printed, since [collectEv] does not return 0.
    Apart from the shared pool the world is unchanged. *)
Theorem collectEvidenceIfNeeded_logs_every_find
    (w : World) (i : nat) (h : HunterType) (r : nat) (rm : RoomType) (ledger : list Z)
    (rnd : nat → Z) (n : nat) :
  hunter (house_hunterArray (house w)) !! i = Some h →
  room h = Some r →
  heap w !! r = Some rm →
  evidencelist rm = Some ledger →
  equipment h ∈ ledger →
  equipment h ≠ EV_UNKNOWN →
  pool_ok (house_evidenceArray (house w)) →
  ∃ added pool' msg,
    collectEv (equipment h) rnd n (house_evidenceArray (house w)) = Done added pool' n msg
    ∧ added ≠ 0
    ∧ (3 ≤ size (house_evidenceArray (house w))
       ∨ equipment h ∈ collected (house_evidenceArray (house w)) →
       pool' = house_evidenceArray (house w))
    ∧ collectEvidenceIfNeeded i rnd n w
      = Done tt (set_house (set_house_evidenceArray pool' (house w)) w) n
          (msg ++ [L_hunterCollect (name h) (equipment h) (rname rm)]).
Proof.
  intros Hh Hroom Hrm Hledger Hin Hknown Hok.
  pose proof Hok as [Hbuf Hcap Hsz Hnd].
  assert (Hcollect : ∃ added pool' msg,
            collectEv (equipment h) rnd n (house_evidenceArray (house w))
            = Done added pool' n msg
            ∧ added ≠ 0
            ∧ (3 ≤ size (house_evidenceArray (house w))
               ∨ equipment h ∈ collected (house_evidenceArray (house w)) →
               pool' = house_evidenceArray (house w))).
  { destruct (decide (EV_UNKNOWN ≤ equipment h ∨ equipment h < EMF)) as [Hout | Hrange].
    - rewrite collectEv_out_of_range by done.
      eexists _, _, _. split; [reflexivity |]. split; [lia | done].
    - rewrite collectEv_in_range by (unfold MAX_EV in *; lia).
      unfold MAX_EV. repeat case_bool_decide;
        (eexists _, _, _; split; [reflexivity |]; split; [lia |]);
        intros [? | ?]; done || lia. }
  destruct Hcollect as (added & pool' & msg & Hrun & Hadded & Hsame).
  exists added, pool', msg. do 3 (split; [done |]).
  unfold collectEvidenceIfNeeded.
  rewrite (run_bind_done _ _ _ _ _ _ _ _ _ (read_hunter_run w i h rnd n Hh)).
  assert (Hfind : doesEvidenceExist (room h) (equipment h) rnd n w
                  = Done (equipment h) w n []).
  { rewrite Hroom. unfold doesEvidenceExist.
    rewrite (run_bind_done _ _ _ _ _ _ _ _ _ (read_room_run w r rm rnd n Hrm)).
    rewrite Hledger. cbn.
    by rewrite doesEvidenceExist_loop_spec, bool_decide_eq_true_2. }
  rewrite (run_bind_done _ _ _ _ _ _ _ _ _ Hfind).
  rewrite bool_decide_eq_true_2 by done.
  set (w' := set_house (set_house_evidenceArray pool' (house w)) w).
  assert (Hadd : addEvidenceAndLog i (equipment h) rnd n w
                 = Done added w' n
                     (msg ++ [L_hunterCollect (name h) (equipment h) (rname rm)])).
  { unfold addEvidenceAndLog.
    rewrite (run_bind_done _ _ _ _ _ _ _ _ _ (read_hunter_run w i h rnd n Hh)).
    assert (Hshared : sharedEvidence (collectEv (equipment h)) rnd n w
                      = Done added w' n msg)
      by (unfold sharedEvidence; by rewrite run_zoom, Hrun).
    rewrite (run_bind_done _ _ _ _ _ _ _ _ _ Hshared).
    rewrite bool_decide_eq_true_2 by done.
    assert (Hname : room_name_of h rnd n w' = Done (rname rm) w' n []).
    { unfold room_name_of. rewrite Hroom, run_bind. cbn [deref ret].
      by rewrite (run_bind_done _ _ _ _ _ _ _ _ _ (read_room_run w' r rm rnd n Hrm)). }
    rewrite run_bind, (run_bind_done _ _ _ _ _ _ _ _ _ Hname).
    cbn. by rewrite ?app_nil_r. }
  rewrite (run_bind_done _ _ _ _ _ _ _ _ _ Hadd).
  rewrite bool_decide_eq_false_2 by done.
  cbn. by rewrite ?app_nil_r.
Qed.

(** An instance of X9: with the banshee's three kinds in the pool and EMF in
    the ledger of the van, Ann with EMF equipment logs a collection and the
    pool stays as it is. *)
Lemma collectEvidenceIfNeeded_logs_every_find_witness :
  ∃ msg,
    collectEvidenceIfNeeded 0 (λ _, 0) 0%nat emf_van_world
    = Done tt emf_van_world 0%nat (msg ++ [L_hunterCollect "Ann" EMF "Van"]).
Proof.
  destruct (collectEvidenceIfNeeded_logs_every_find emf_van_world 0
              (mkHunter "Ann" EMF 0 0 (Some 0%nat)) 0
              (mkRoom "Van" (Some [EMF])
                 (Some (mkHunterArray
                          [mkHunter "Ann" EV_UNKNOWN 0 0 (Some 0%nat);
                           mkHunter "Bob" EV_UNKNOWN 0 0 (Some 0%nat);
                           mkHunter "Cy" EV_UNKNOWN 0 0 (Some 0%nat);
                           mkHunter "Di" EV_UNKNOWN 0 0 (Some 0%nat)] 4 4))
                 (Some [1%nat]))
              [EMF] (λ _, 0) 0%nat)
    as (added & pool' & msg & _ & _ & Hsame & Hrun).
  - reflexivity.
  - reflexivity.
  - reflexivity.
  - reflexivity.
  - left.
  - discriminate.
  - split; [reflexivity | reflexivity | simpl; unfold MAX_EV; lia |].
    apply (bool_decide_unpack _). vm_compute. exact I.
  - exists msg. rewrite (Hsame ltac:(left; vm_compute; discriminate)) in Hrun.
    exact Hrun.
Defined.

(** ** Runs and their outcomes *)

Lemma outcome_bind {St A B} (m : M St A) (f : A → M St B) rnd n s
    (R : A → St → Prop) (Q : B → St → Prop) (E : St → Prop) :
  outcome R E (m rnd n s) →
  (∀ a s1 n1, R a s1 → outcome Q E (f a rnd n1 s1)) →
  outcome Q E ((m ≫= f) rnd n s).
Proof.
  rewrite run_bind. destruct (m rnd n s) as [a s1 n1 o1 | | |]; simpl; try done.
  intros HR Hf. specialize (Hf a s1 n1 HR).
  by destruct (f a rnd n1 s1).
Qed.

Lemma outcome_mono {St A} (Q Q' : A → St → Prop) (E E' : St → Prop) (r : Result St A) :
  outcome Q E r →
  (∀ a s, Q a s → Q' a s) →
  (∀ s, E s → E' s) →
  outcome Q' E' r.
Proof. destruct r; simpl; auto. Qed.

Lemma outcome_prepend {St A} (Q : A → St → Prop) (E : St → Prop) o (r : Result St A) :
  outcome Q E (prepend o r) ↔ outcome Q E r.
Proof. by destruct r. Qed.

(** ** Well-formed worlds and the steps of a hunter *)

Lemma same_but_roster_refl rm : same_but_roster rm rm.
Proof. by repeat split. Qed.

Lemma hunter_step_refl (levels : HunterType → HunterType → Prop) i w :
  (∀ h, levels h h) → hunter_step levels i w w.
Proof.
  intros Hrefl. split; try done.
  - intros r rm Hrm. exists rm. split; [done | apply same_but_roster_refl].
  - intros h Hh. exists h. auto.
Qed.

Lemma hunter_step_trans (P Q R : HunterType → HunterType → Prop) i w1 w2 w3 :
  (∀ a b c, P a b → Q b c → R a c) →
  hunter_step P i w1 w2 → hunter_step Q i w2 w3 → hunter_step R i w1 w3.
Proof.
  intros Hcomp [Hg1 Hf1 Hr1 Hl1 Hheap1 Hz1 Hc1 Hb1 Ho1 Hs1 Hp1 Hn1]
    [Hg2 Hf2 Hr2 Hl2 Hheap2 Hz2 Hc2 Hb2 Ho2 Hs2 Hp2 Hn2].
  split; try congruence.
  - intros r rm Hrm.
    destruct (Hheap1 r rm Hrm) as (rm2 & Hrm2 & H12).
    destruct (Hheap2 r rm2 Hrm2) as (rm3 & Hrm3 & H23).
    exists rm3. split; [done |].
    destruct H12 as (? & ? & ?), H23 as (? & ? & ?). repeat split; congruence.
  - intros j Hj. rewrite Ho2, Ho1 by done. done.
  - intros h Hh.
    destruct (Hs1 h Hh) as (h2 & Hh2 & ? & ? & ?).
    destruct (Hs2 h2 Hh2) as (h3 & Hh3 & ? & ? & ?).
    exists h3. repeat split; try congruence. eauto.
  - by etrans.
  - lia.
Qed.

Lemma same_levels_trans a b c : same_levels a b → same_levels b c → same_levels a c.
Proof. unfold same_levels. intuition congruence. Qed.

Lemma same_levels_refl h : same_levels h h.
Proof. by split. Qed.

(** A new roster for a room. *)
Lemma world_ok_set_roster (w : World) (r : nat) (rm : RoomType) (arr' : HunterArrayType) :
  world_ok w →
  heap w !! r = Some rm →
  roster_ok arr' →
  world_ok (set_heap (<[r := set_hunterArray arr' rm]> (heap w)) w).
Proof.
  intros [Hrosters Hdoors Hhunters Hplaced Hghost Hpool] Hrm Harr.
  assert (Hr : (r < length (heap w))%nat) by (by apply lookup_lt_Some in Hrm).
  split; cbn [heap set_heap house ghost gameOver]; try done.
  - intros r0 rm0 arr0 Hrm0 Harr0.
    destruct (decide (r0 = r)) as [-> | Hne].
    + rewrite list_lookup_insert_eq in Hrm0 by done.
      injection Hrm0 as <-. cbn in Harr0. by injection Harr0 as <-.
    + rewrite list_lookup_insert_ne in Hrm0 by done. eauto.
  - intros r0 rm0 Hrm0. rewrite length_insert.
    destruct (decide (r0 = r)) as [-> | Hne].
    + rewrite list_lookup_insert_eq in Hrm0 by done.
      injection Hrm0 as <-. cbn. eauto.
    + rewrite list_lookup_insert_ne in Hrm0 by done. eauto.
  - intros h Hh. rewrite length_insert. by apply Hplaced.
  - intros r0 Hr0. rewrite length_insert. by apply Hghost.
Qed.

Lemma hunter_step_set_roster (w : World) (i r : nat) (rm : RoomType)
    (arr' : HunterArrayType) :
  heap w !! r = Some rm →
  hunter_step same_levels i w (set_heap (<[r := set_hunterArray arr' rm]> (heap w)) w).
Proof.
  intros Hrm.
  assert (Hr : (r < length (heap w))%nat) by (by apply lookup_lt_Some in Hrm).
  split; cbn [heap set_heap house ghost gameOver]; try done.
  - by rewrite length_insert.
  - intros r0 rm0 Hrm0.
    destruct (decide (r0 = r)) as [-> | Hne].
    + rewrite list_lookup_insert_eq by done.
      eexists. split; [done |]. rewrite Hrm in Hrm0. injection Hrm0 as <-.
      by repeat split.
    + rewrite list_lookup_insert_ne by done.
      exists rm0. split; [done | apply same_but_roster_refl].
  - intros h Hh. exists h. repeat split; done.
Qed.

(** A new value for the hunter's entry of the house's array. *)
Lemma house_hunters_written (w : World) (i : nat) (h' : HunterType) :
  house_hunters
    (set_house
       (set_house_hunterArray
          (mkHunterArray (<[i := h']> (hunter (house_hunterArray (house w))))
             (hsize (house_hunterArray (house w)))
             (hcapacity (house_hunterArray (house w))))
          (house w)) w)
  = <[i := h']> (house_hunters w).
Proof.
  unfold house_hunters. cbn.
  rewrite take_insert. case_decide as Hi; [done |].
  symmetry. apply list_insert_ge. rewrite length_take. lia.
Qed.

Lemma world_ok_write_hunter (w : World) (i : nat) (h' : HunterType) (r : nat) :
  world_ok w →
  room h' = Some r →
  (r < length (heap w))%nat →
  world_ok
    (set_house
       (set_house_hunterArray
          (mkHunterArray (<[i := h']> (hunter (house_hunterArray (house w))))
             (hsize (house_hunterArray (house w)))
             (hcapacity (house_hunterArray (house w))))
          (house w)) w).
Proof.
  intros [Hrosters Hdoors Hhunters Hplaced Hghost Hpool] Hroom Hr.
  split; try done.
  - destruct Hhunters as [? ?]. split; cbn; [done |]. by rewrite length_insert.
  - intros h Hh. rewrite house_hunters_written in Hh.
    apply list_elem_of_lookup in Hh as [j Hj].
    destruct (decide (j = i)) as [-> | Hne].
    + assert (Hlt : (i < length (house_hunters w))%nat).
      { apply lookup_lt_Some in Hj. by rewrite length_insert in Hj. }
      rewrite list_lookup_insert_eq in Hj by done.
      injection Hj as <-. eauto.
    + rewrite list_lookup_insert_ne in Hj by done.
      apply Hplaced. by eapply list_elem_of_lookup_2.
Qed.

Lemma hunter_step_write_hunter (levels : HunterType → HunterType → Prop)
    (w : World) (i : nat) (h h' : HunterType) :
  hunter (house_hunterArray (house w)) !! i = Some h →
  name h' = name h →
  equipment h' = equipment h →
  levels h h' →
  hunter_step levels i w
    (set_house
       (set_house_hunterArray
          (mkHunterArray (<[i := h']> (hunter (house_hunterArray (house w))))
             (hsize (house_hunterArray (house w)))
             (hcapacity (house_hunterArray (house w))))
          (house w)) w).
Proof.
  intros Hh Hname Hequipment Hlevels.
  assert (Hi : (i < length (hunter (house_hunterArray (house w))))%nat)
    by (by apply lookup_lt_Some in Hh).
  split; cbn; try done.
  - intros r rm Hrm. exists rm. split; [done | apply same_but_roster_refl].
  - by rewrite length_insert.
  - intros j Hj. by rewrite list_lookup_insert_ne.
  - intros h0 Hh0. rewrite Hh in Hh0. injection Hh0 as <-.
    exists h'. rewrite list_lookup_insert_eq by done. done.
Qed.

(** A new state of the shared pool. *)
Lemma world_ok_set_pool (w : World) (pool' : EvidenceArrayType) :
  world_ok w →
  pool_ok pool' →
  world_ok (set_house (set_house_evidenceArray pool' (house w)) w).
Proof. intros [] Hpool. by split. Qed.

Lemma hunter_step_set_pool (w : World) (i : nat) (pool' : EvidenceArrayType) :
  collected (house_evidenceArray (house w)) `prefix_of` collected pool' →
  hunter_step same_levels i w (set_house (set_house_evidenceArray pool' (house w)) w).
Proof.
  intros Hprefix. split; cbn; try done.
  - intros r rm Hrm. exists rm. split; [done | apply same_but_roster_refl].
  - intros h Hh. exists h. repeat split; done.
Qed.

(** ** The steps of a hunter's action *)

Ltac step_done H := rewrite (run_bind_done _ _ _ _ _ _ _ _ _ H); apply outcome_prepend.

Lemma house_hunters_lookup (w : World) (i : nat) (h : HunterType) :
  house_hunters w !! i = Some h
  ↔ hunter (house_hunterArray (house w)) !! i = Some h
    ∧ (i < Z.to_nat (hsize (house_hunterArray (house w))))%nat.
Proof.
  unfold house_hunters. split.
  - intros Hh. assert (Hlt := lookup_lt_Some _ _ _ Hh).
    rewrite length_take in Hlt. split; [| lia].
    by rewrite lookup_take_lt in Hh by lia.
  - intros [Hh Hlt]. by rewrite lookup_take_lt.
Qed.

Lemma removeHunter_run (arr : HunterArrayType) (h : HunterType) rnd n :
  roster_ok arr →
  ∃ arr',
    removeHunter h rnd n arr = Done tt arr' n []
    ∧ roster_ok arr'
    ∧ in_use arr' = without_first (name h) (in_use arr).
Proof.
  intros [Hsize Hcap].
  destruct (removeHunter_loop_spec arr (name h) 0 (Z.to_nat (hsize arr)))
    as (arr' & Hrun & Huse & Hcap' & Hlen & Hsz & _); [lia | done |].
  exists arr'. unfold removeHunter. rewrite run_bind. cbn [get]. rewrite Hrun.
  rewrite drop_0 in Huse, Hsz. split; [done |]. split; [| done].
  unfold roster_ok. rewrite Hcap', Hlen, Hsz.
  case_bool_decide as Hin; [| lia].
  assert (in_use arr ≠ []) by (intros Hnil; rewrite Hnil in Hin; by apply elem_of_nil in Hin).
  assert (0 < hsize arr); [| lia].
  destruct (decide (0 < hsize arr)) as [| Hle]; [done |].
  exfalso. apply H. unfold in_use. by replace (Z.to_nat (hsize arr)) with 0%nat by lia.
Qed.

Lemma addHunter_outcome (arr : HunterArrayType) (h : HunterType) rnd n :
  roster_ok arr →
  ∃ v arr' out,
    addHunter h rnd n arr = Done v arr' n out
    ∧ roster_ok arr'
    ∧ in_use arr'
      = (if bool_decide (hsize arr < hcapacity arr) then in_use arr ++ [h] else in_use arr).
Proof.
  intros [Hsize Hcap]. unfold addHunter. rewrite run_bind. cbn [get].
  case_bool_decide as Hfull.
  - rewrite bool_decide_eq_false_2 by lia.
    eexists _, _, _. split; [reflexivity |]. by split.
  - rewrite !bool_decide_eq_true_2 by lia.
    eexists _, _, _. split; [reflexivity |]. split.
    + unfold roster_ok. cbn. rewrite length_insert. lia.
    + apply in_use_added. lia.
Qed.

Lemma removeHunter_on_roster_step (w : World) (i r : nat) (h : HunterType)
    (e : Event) rnd n :
  world_ok w →
  (r < length (heap w))%nat →
  outcome (λ _ w', world_ok w' ∧ hunter_step same_levels i w w') (λ _, False)
    (on_roster r (removeHunter h) (tell e) rnd n w).
Proof.
  intros Hok Hr.
  destruct (lookup_lt_is_Some_2 _ _ Hr) as [rm Hrm].
  unfold on_roster. step_done (read_room_run w r rm rnd n Hrm).
  destruct (hunterArray rm) as [arr |] eqn:Harr.
  - destruct (removeHunter_run arr h rnd n (ok_rosters w Hok r rm arr Hrm Harr))
      as (arr' & Hrun & Harr' & _).
    rewrite run_zoom, Hrun. cbn.
    split; [by apply world_ok_set_roster | by apply hunter_step_set_roster].
  - cbn. split; [done | apply hunter_step_refl, same_levels_refl].
Qed.

Lemma addHunter_on_roster_step (w : World) (i r : nat) (h : HunterType)
    (e : Event) rnd n :
  world_ok w →
  (r < length (heap w))%nat →
  outcome (λ _ w', world_ok w' ∧ hunter_step same_levels i w w') (λ _, False)
    (on_roster r (addHunter h) (tell e;; mret (-1)) rnd n w).
Proof.
  intros Hok Hr.
  destruct (lookup_lt_is_Some_2 _ _ Hr) as [rm Hrm].
  unfold on_roster. step_done (read_room_run w r rm rnd n Hrm).
  destruct (hunterArray rm) as [arr |] eqn:Harr.
  - destruct (addHunter_outcome arr h rnd n (ok_rosters w Hok r rm arr Hrm Harr))
      as (v & arr' & out & Hrun & Harr' & _).
    rewrite run_zoom, Hrun. cbn.
    split; [by apply world_ok_set_roster | by apply hunter_step_set_roster].
  - cbn. split; [done | apply hunter_step_refl, same_levels_refl].
Qed.

Lemma updateHunterLocation_step (w : World) (i from newRoom : nat) (h : HunterType)
    rnd n :
  world_ok w →
  hunter (house_hunterArray (house w)) !! i = Some h →
  (from < length (heap w))%nat →
  (newRoom < length (heap w))%nat →
  outcome (λ _ w', world_ok w' ∧ hunter_step same_levels i w w') (λ _, False)
    (updateHunterLocation i from newRoom rnd n w).
Proof.
  intros Hok Hh Hfrom Hnew. unfold updateHunterLocation.
  step_done (read_hunter_run w i h rnd n Hh).
  eapply outcome_bind; [by apply (removeHunter_on_roster_step w i) |].
  intros _ w1 n1 [Hok1 Hstep1]. cbn beta.
  destruct (hs_self _ _ _ _ Hstep1 h Hh) as (h1 & Hh1 & Hname1 & Hequipment1 & Hfear1 & Hboredom1).
  step_done (write_hunter_run w1 i h1 (set_room (Some newRoom) h) rnd n1 Hh1).
  match goal with
  | |- outcome _ _ (_ _ _ ?w2) => set (w2' := w2)
  end.
  assert (Hok2 : world_ok w2').
  { apply (world_ok_write_hunter w1 i _ newRoom); [done | done |].
    by rewrite (hs_heap_length _ _ _ _ Hstep1). }
  assert (Hstep2 : hunter_step same_levels i w1 w2').
  { apply (hunter_step_write_hunter same_levels w1 i h1); try done;
      try (cbn; congruence); split; cbn; congruence. }
  eapply outcome_bind.
  { apply (addHunter_on_roster_step w2' i newRoom); [done |].
    unfold w2'. cbn. by rewrite (hs_heap_length _ _ _ _ Hstep1). }
  intros _ w3 n3 [Hok3 Hstep3]. cbn.
  split; [done |].
  eapply hunter_step_trans; [apply same_levels_trans | | exact Hstep3].
  eapply hunter_step_trans; [apply same_levels_trans | exact Hstep1 | exact Hstep2].
Qed.

Lemma moveToRandomRoomHunter_step (w : World) (i : nat) (h : HunterType) rnd n :
  world_ok w →
  house_hunters w !! i = Some h →
  outcome (λ _ w', world_ok w' ∧ hunter_step same_levels i w w') (λ _, False)
    (moveToRandomRoomHunter i rnd n w).
Proof.
  intros Hok Hin.
  assert (Hh : hunter (house_hunterArray (house w)) !! i = Some h)
    by (by apply house_hunters_lookup in Hin as [? _]).
  destruct (ok_placed w Hok h) as (r & Hroom & Hr); [by eapply list_elem_of_lookup_2 |].
  destruct (lookup_lt_is_Some_2 _ _ Hr) as [rm Hrm].
  destruct (ok_doors w Hok r rm Hrm) as (l & Hl & Hvalid).
  unfold moveToRandomRoomHunter.
  step_done (read_hunter_run w i h rnd n Hh).
  rewrite Hroom.
  step_done (read_room_run w r rm rnd n Hrm).
  rewrite Hl. rewrite run_bind. cbn [deref ret].
  unfold getRandomRoomIndex. rewrite run_bind, randInt_run.
  unfold getRoomAtIndex. rewrite getRoomAtIndex_loop_spec.
  destruct (l !! _) as [newRoom |] eqn:Hnew.
  - assert (Hu := updateHunterLocation_step w i r newRoom h rnd (S n) Hok Hh Hr
                    (Hvalid newRoom (list_elem_of_lookup_2 _ _ _ Hnew))).
    destruct (updateHunterLocation i r newRoom rnd (S n) w); done.
  - cbn. split; [done | apply hunter_step_refl, same_levels_refl].
Qed.

Lemma collectEv_grows (pool : EvidenceArrayType) (ev : Z) rnd n :
  pool_ok pool →
  ∃ r pool' out,
    collectEv ev rnd n pool = Done r pool' n out
    ∧ pool_ok pool'
    ∧ collected pool `prefix_of` collected pool'.
Proof.
  intros Hok. pose proof Hok as [Hbuf Hcap Hsz Hnd].
  destruct (decide (EV_UNKNOWN ≤ ev ∨ ev < EMF)) as [Hout | Hin].
  - rewrite collectEv_out_of_range by done. eauto 6.
  - rewrite collectEv_in_range by lia.
    repeat case_bool_decide; try (eexists _, _, _; split; [reflexivity |]; by split).
    eexists _, _, _. split; [reflexivity |].
    split; [apply pool_ok_pushed; [done | lia | done] |].
    rewrite collected_pushed by lia. by apply prefix_app_r.
Qed.

Lemma room_name_of_run (w : World) (h : HunterType) (r : nat) rnd n :
  room h = Some r →
  (r < length (heap w))%nat →
  ∃ rn, room_name_of h rnd n w = Done rn w n [].
Proof.
  intros Hroom Hr. destruct (lookup_lt_is_Some_2 _ _ Hr) as [rm Hrm].
  exists (rname rm). unfold room_name_of. rewrite Hroom, run_bind. cbn [deref ret].
  by rewrite (run_bind_done _ _ _ _ _ _ _ _ _ (read_room_run w r rm rnd n Hrm)).
Qed.

Lemma doesEvidenceExist_run (w : World) (r : nat) (ev : Z) rnd n :
  (r < length (heap w))%nat →
  ∃ found out, doesEvidenceExist (Some r) ev rnd n w = Done found w n out.
Proof.
  intros Hr. destruct (lookup_lt_is_Some_2 _ _ Hr) as [rm Hrm].
  unfold doesEvidenceExist.
  rewrite (run_bind_done _ _ _ _ _ _ _ _ _ (read_room_run w r rm rnd n Hrm)).
  destruct (evidencelist rm); cbn; eauto.
Qed.

Lemma reviewEvidenceAndExitIfNeeded_step (w : World) (i : nat) (h : HunterType) rnd n :
  world_ok w →
  hunter (house_hunterArray (house w)) !! i = Some h →
  outcome (λ _ w', w' = w) (λ w', w' = w) (reviewEvidenceAndExitIfNeeded i rnd n w).
Proof.
  intros Hok Hh.
  destruct (ok_pool w Hok) as [Hbuf _ Hsz _].
  destruct (isSufficientEvidence_counts (house_evidenceArray (house w)) rnd n)
    as [out Hrun]; [lia |].
  unfold reviewEvidenceAndExitIfNeeded.
  step_done (read_hunter_run w i h rnd n Hh).
  rewrite run_bind. unfold sharedEvidence. rewrite run_zoom, Hrun.
  assert (Hsame : set_house
            (set_house_evidenceArray (house_evidenceArray (house w)) (house w)) w = w)
    by (by destruct w as [? [] ? ?]).
  rewrite Hsame.
  match goal with
  | |- context [bool_decide (3 ≤ ?x)] => generalize x
  end.
  intros v. destruct (bool_decide (3 ≤ v)); cbn; done.
Qed.

Lemma isGhostPresent_run (w : World) (i : nat) (h : HunterType) rnd n :
  hunter (house_hunterArray (house w)) !! i = Some h →
  isGhostPresent i rnd n w
  = Done (if bool_decide (room h = groom (ghost w)) then 1 else 0) w n [].
Proof.
  intros Hh. unfold isGhostPresent.
  rewrite (run_bind_done _ _ _ _ _ _ _ _ _ (read_hunter_run w i h rnd n Hh)).
  rewrite run_bind. reflexivity.
Qed.

Lemma tick_then_same_levels (p : bool) (a b c : HunterType) :
  tick_levels p a b → same_levels b c → tick_levels p a c.
Proof. unfold tick_levels, same_levels. destruct p; intuition congruence. Qed.

Lemma hunter_step_set_hunterCount (w : World) (i : nat) (c : Z) :
  c ≤ hunterCount (house w) →
  (0 ≤ hunterCount (house w) → 0 ≤ c) →
  hunter_step same_levels i w (set_house (set_hunterCount c (house w)) w).
Proof.
  intros Hle Hpos. split; cbn; try done.
  - intros r rm Hrm. exists rm. split; [done | apply same_but_roster_refl].
  - intros h Hh. exists h. repeat split; done.
Qed.

Lemma world_ok_set_hunterCount (w : World) (c : Z) :
  world_ok w → world_ok (set_house (set_hunterCount c (house w)) w).
Proof. intros []. by split. Qed.

(** ** The hunter's tick as a step

    The lemmas of this section follow a property [I] of the world through
    the tick: one that the relocation of a hunter keeps, and that does not
    depend on the shared pool, on the count of the hunters or on the levels of
    a hunter. *)

Section Tick.
Variable I : World → Prop.
Hypothesis I_pool : ∀ w pool',
  I w → I (set_house (set_house_evidenceArray pool' (house w)) w).
Hypothesis I_count : ∀ w c, I w → I (set_house (set_hunterCount c (house w)) w).
Hypothesis I_levels : ∀ w i h h',
  I w →
  hunter (house_hunterArray (house w)) !! i = Some h →
  name h' = name h →
  room h' = room h →
  I (set_house
       (set_house_hunterArray
          (mkHunterArray (<[i := h']> (hunter (house_hunterArray (house w))))
             (hsize (house_hunterArray (house w)))
             (hcapacity (house_hunterArray (house w))))
          (house w)) w).
Hypothesis I_move : ∀ w i h rnd n,
  world_ok w →
  I w →
  house_hunters w !! i = Some h →
  outcome (λ _ w', I w') (λ _, False) (moveToRandomRoomHunter i rnd n w).

Lemma stepped_refl i w : world_ok w → I w → stepped_with I same_levels i w w.
Proof. intros Hok HI. split; [done |]. split; [apply hunter_step_refl, same_levels_refl | done]. Qed.

Lemma outcome_and {St A} (Q1 Q2 : A → St → Prop) (E1 E2 : St → Prop) (r : Result St A) :
  outcome Q1 E1 r → outcome Q2 E2 r →
  outcome (λ a s, Q1 a s ∧ Q2 a s) (λ s, E1 s ∧ E2 s) r.
Proof. by destruct r. Qed.

Lemma moveToRandomRoomHunter_stepped (w : World) (i : nat) (h : HunterType) rnd n :
  world_ok w →
  I w →
  house_hunters w !! i = Some h →
  outcome (λ _ w', stepped_with I same_levels i w w') (λ _, False)
    (moveToRandomRoomHunter i rnd n w).
Proof.
  intros Hok HI Hin.
  eapply outcome_mono;
    [exact (outcome_and _ _ _ _ _ (moveToRandomRoomHunter_step w i h rnd n Hok Hin)
              (I_move w i h rnd n Hok HI Hin)) | |]; cbn.
  - intros _ w' [[? ?] ?]. split; [done | split; done].
  - tauto.
Qed.

Lemma addEvidenceAndLog_step (w : World) (i : nat) (h : HunterType) (ev : Z) rnd n :
  world_ok w →
  I w →
  house_hunters w !! i = Some h →
  outcome (λ _ w', stepped_with I same_levels i w w') (λ _, False)
    (addEvidenceAndLog i ev rnd n w).
Proof.
  intros Hok HI Hin.
  assert (Hh : hunter (house_hunterArray (house w)) !! i = Some h)
    by (by apply house_hunters_lookup in Hin as [? _]).
  destruct (ok_placed w Hok h) as (r & Hroom & Hr); [by eapply list_elem_of_lookup_2 |].
  unfold addEvidenceAndLog.
  step_done (read_hunter_run w i h rnd n Hh).
  destruct (collectEv_grows (house_evidenceArray (house w)) ev rnd n (ok_pool w Hok))
    as (added & pool' & msg & Hrun & Hpool' & Hprefix).
  set (w' := set_house (set_house_evidenceArray pool' (house w)) w).
  assert (Hshared : sharedEvidence (collectEv ev) rnd n w = Done added w' n msg)
    by (unfold sharedEvidence; by rewrite run_zoom, Hrun).
  step_done Hshared.
  destruct (room_name_of_run w' h r rnd n Hroom Hr) as [rn Hrn].
  assert (Hgoal : stepped_with I same_levels i w w').
  { split; [by apply world_ok_set_pool |].
    split; [by apply hunter_step_set_pool | by apply I_pool]. }
  eapply (outcome_bind _ _ _ _ _ (λ _ s, s = w')).
  - case_bool_decide; [| done]. step_done Hrn. done.
  - intros _ s1 n1 ->. done.
Qed.

Lemma collectEvidenceIfNeeded_step (w : World) (i : nat) (h : HunterType) rnd n :
  world_ok w →
  I w →
  house_hunters w !! i = Some h →
  outcome (λ _ w', stepped_with I same_levels i w w') (λ _, False)
    (collectEvidenceIfNeeded i rnd n w).
Proof.
  intros Hok HI Hin.
  assert (Hh : hunter (house_hunterArray (house w)) !! i = Some h)
    by (by apply house_hunters_lookup in Hin as [? _]).
  destruct (ok_placed w Hok h) as (r & Hroom & Hr); [by eapply list_elem_of_lookup_2 |].
  unfold collectEvidenceIfNeeded.
  step_done (read_hunter_run w i h rnd n Hh).
  rewrite Hroom.
  destruct (doesEvidenceExist_run w r (equipment h) rnd n Hr) as (found & out & Hfound).
  step_done Hfound.
  case_bool_decide as Hknown; [| cbn; by apply stepped_refl].
  eapply outcome_bind; [by eapply addEvidenceAndLog_step |].
  intros added w' n' Hgoal. cbn beta. by case_bool_decide.
Qed.

Lemma performHunterAction_step (w : World) (i : nat) (h : HunterType) rnd n :
  world_ok w →
  I w →
  house_hunters w !! i = Some h →
  outcome (λ _ w', stepped_with I same_levels i w w') (λ w', stepped_with I same_levels i w w')
    (performHunterAction i rnd n w).
Proof.
  intros Hok HI Hin.
  assert (Hh : hunter (house_hunterArray (house w)) !! i = Some h)
    by (by apply house_hunters_lookup in Hin as [? _]).
  unfold performHunterAction.
  eapply (outcome_bind _ _ _ _ _ (λ _ s, s = w)); [by rewrite randInt_run |].
  intros choice s0 n0 ->. cbn beta.
  assert (Hend : ∀ r : Result World unit,
            outcome (λ _ w', stepped_with I same_levels i w w') (λ _, False) r →
            outcome (λ _ w', stepped_with I same_levels i w w')
              (λ w', stepped_with I same_levels i w w') r).
  { intros r Hr. eapply outcome_mono; [exact Hr | done | done]. }
  repeat case_bool_decide.
  - apply Hend. eapply outcome_bind; [by eapply moveToRandomRoomHunter_stepped |].
    intros _ w1 n1 (Hok1 & Hstep1 & HI1). cbn beta.
    destruct (hs_self _ _ _ _ Hstep1 h Hh) as (h1 & Hh1 & _).
    step_done (read_hunter_run w1 i h1 rnd n1 Hh1).
    assert (Hin1 : house_hunters w1 !! i = Some h1).
    { apply house_hunters_lookup. split; [done |].
      rewrite (hs_hsize _ _ _ _ Hstep1). by apply house_hunters_lookup in Hin as [_ ?]. }
    destruct (ok_placed w1 Hok1 h1) as (r1 & Hroom1 & Hr1);
      [by eapply list_elem_of_lookup_2 |].
    destruct (room_name_of_run w1 h1 r1 rnd n1 Hroom1 Hr1) as [rn Hrn].
    step_done Hrn. cbn. done.
  - apply Hend. by eapply collectEvidenceIfNeeded_step.
  - eapply outcome_mono; [by eapply reviewEvidenceAndExitIfNeeded_step | |];
      cbn; intros; subst; by apply stepped_refl.
  - cbn. by apply stepped_refl.
Qed.

Lemma retire_step (w : World) (i : nat) (h : HunterType) rnd n :
  world_ok w →
  I w →
  outcome (λ _ w', stepped_with I same_levels i w w') (λ w', stepped_with I same_levels i w w')
    ((logHunterExit h;; zoom house set_house decrementHunterCount;; pthread_exit
       : M World unit) rnd n w).
Proof.
  intros Hok HI. unfold logHunterExit.
  rewrite run_bind. cbn -[zoom decrementHunterCount].
  rewrite run_bind, run_zoom, decrementHunterCount_spec.
  case_bool_decide as Hcount; cbn.
  - split; [by apply world_ok_set_hunterCount |].
    split; [apply hunter_step_set_hunterCount; lia | by apply I_count].
  - assert (set_house (house w) w = w) as -> by (by destruct w).
    by apply stepped_refl.
Qed.

Lemma updateHunterState_step (w : World) (i : nat) (h : HunterType) rnd n :
  world_ok w →
  I w →
  house_hunters w !! i = Some h →
  outcome
    (λ _ w', stepped_with I (tick_levels (bool_decide (room h = groom (ghost w)))) i w w')
    (λ w', stepped_with I (tick_levels (bool_decide (room h = groom (ghost w)))) i w w')
    (updateHunterState i rnd n w).
Proof.
  intros Hok HI Hin.
  assert (Hh : hunter (house_hunterArray (house w)) !! i = Some h)
    by (by apply house_hunters_lookup in Hin as [? _]).
  assert (Hi : (i < length (hunter (house_hunterArray (house w))))%nat)
    by (by apply lookup_lt_Some in Hh).
  destruct (ok_placed w Hok h) as (r & Hroom & Hr); [by eapply list_elem_of_lookup_2 |].
  unfold updateHunterState.
  step_done (isGhostPresent_run w i h rnd n Hh).
  step_done (read_hunter_run w i h rnd n Hh).
  set (p := bool_decide (room h = groom (ghost w))).
  set (h1 := if p
             then set_boredom 0
                    (set_fear (if bool_decide (fear h < FEAR_MAX) then fear h + 1
                               else FEAR_MAX) h)
             else set_boredom
                    (if bool_decide (boredom h < BOREDOM_MAX) then boredom h + 1
                     else BOREDOM_MAX) h).
  set (w1 := set_house
               (set_house_hunterArray
                  (mkHunterArray (<[i := h1]> (hunter (house_hunterArray (house w))))
                     (hsize (house_hunterArray (house w)))
                     (hcapacity (house_hunterArray (house w))))
                  (house w)) w).
  assert (Hwrite :
    (if bool_decide ((if p then 1 else 0) ≠ 0)
     then write_hunter i
            (set_boredom 0
               (set_fear (if bool_decide (fear h < FEAR_MAX) then fear h + 1
                          else FEAR_MAX) h))
     else write_hunter i
            (set_boredom
               (if bool_decide (boredom h < BOREDOM_MAX) then boredom h + 1
                else BOREDOM_MAX) h)) rnd n w
    = Done tt w1 n []).
  { unfold w1, h1. destruct p; cbn [bool_decide]; (case_bool_decide; [| try done]);
      try done; by erewrite write_hunter_run. }
  step_done Hwrite.
  assert (Hroom1 : room h1 = Some r) by (unfold h1; by destruct p).
  assert (Hname1 : name h1 = name h) by (unfold h1; by destruct p).
  assert (Hok1 : world_ok w1) by (by apply (world_ok_write_hunter w i h1 r)).
  assert (Hstep1 : hunter_step (tick_levels p) i w w1).
  { apply (hunter_step_write_hunter (tick_levels p) w i h h1 Hh);
      unfold h1, tick_levels; by destruct p. }
  assert (HI1 : I w1) by (apply (I_levels w i h h1); congruence).
  assert (Hh1 : hunter (house_hunterArray (house w1)) !! i = Some h1)
    by (unfold w1; cbn; by apply list_lookup_insert_eq).
  assert (Hin1 : house_hunters w1 !! i = Some h1).
  { apply house_hunters_lookup. split; [done |].
    by apply house_hunters_lookup in Hin as [_ ?]. }
  step_done (read_hunter_run w1 i h1 rnd n Hh1).
  assert (Hlift : ∀ r0 : Result World unit,
            outcome (λ _ w', stepped_with I same_levels i w1 w')
              (λ w', stepped_with I same_levels i w1 w') r0 →
            outcome (λ _ w', stepped_with I (tick_levels p) i w w')
              (λ w', stepped_with I (tick_levels p) i w w') r0).
  { intros r0 Hr0. eapply outcome_mono; [exact Hr0 | |]; cbn;
      intros; unfold stepped_with in *; destruct_and!; (split; [done |]);
      (split; [| done]);
      eapply hunter_step_trans; eauto using tick_then_same_levels. }
  apply Hlift.
  destruct (bool_decide (FEAR_MAX ≤ fear h1) || bool_decide (BOREDOM_MAX ≤ boredom h1)).
  - by apply retire_step.
  - by eapply performHunterAction_step.
Qed.
End Tick.

(** ** The rosters follow the hunters *)

Lemma names_in_split (w : World) (i : nat) (h : HunterType) (r : nat) :
  house_hunters w !! i = Some h →
  names_in w r
  ≡ₚ (if bool_decide (room h = Some r) then [name h] else []) ++ other_names_in w i r.
Proof.
  intros Hh. unfold names_in, other_names_in.
  rewrite (Permutation_map name
             (filter_Permutation _ _ _ (delete_Permutation _ _ _ Hh))).
  rewrite filter_cons. case_decide as Hroom.
  - by rewrite bool_decide_eq_true_2.
  - by rewrite bool_decide_eq_false_2.
Qed.

Lemma names_without_first (hname : string) (hs : list HunterType) :
  hname ∈ map name hs →
  map name hs ≡ₚ hname :: map name (without_first hname hs).
Proof.
  induction hs as [|h rest IH]; simpl.
  - intros Hin. by apply elem_of_nil in Hin.
  - intros Hin. case_bool_decide as Hname.
    + by rewrite Hname.
    + apply elem_of_cons in Hin as [Heq | Hin]; [congruence |].
      simpl. rewrite (IH Hin) at 1. apply perm_swap.
Qed.

Lemma names_removed (hname : string) (hs : list HunterType) (others : list string) :
  map name hs ≡ₚ hname :: others →
  map name (without_first hname hs) ≡ₚ others.
Proof.
  intros Hperm. apply (Permutation_cons_inv (a := hname)).
  rewrite <- Hperm. symmetry. apply names_without_first.
  rewrite Hperm. left.
Qed.

Lemma roster_names_set_roster (w w' : World) (r r0 : nat) (rm : RoomType)
    (arr' : HunterArrayType) :
  heap w !! r = Some rm →
  heap w' = <[r := set_hunterArray arr' rm]> (heap w) →
  roster_names w' r0
  = if bool_decide (r0 = r) then map name (in_use arr') else roster_names w r0.
Proof.
  intros Hrm Hheap. unfold roster_names. rewrite Hheap.
  case_bool_decide as Heq.
  - subst r0. rewrite list_lookup_insert_eq by (by apply lookup_lt_Some in Hrm).
    reflexivity.
  - by rewrite list_lookup_insert_ne.
Qed.

Lemma on_roster_run {A} (w : World) (r : nat) (rm : RoomType) (arr arr' : HunterArrayType)
    (m : M HunterArrayType A) (on_null : M World A) (a : A) rnd n n1 o :
  heap w !! r = Some rm →
  hunterArray rm = Some arr →
  m rnd n arr = Done a arr' n1 o →
  on_roster r m on_null rnd n w
  = Done a (set_heap (<[r := set_hunterArray arr' rm]> (heap w)) w) n1 o.
Proof.
  intros Hrm Harr Hrun. unfold on_roster.
  rewrite (run_bind_done _ _ _ _ _ _ _ _ _ (read_room_run w r rm rnd n Hrm)).
  rewrite Harr, run_zoom, Hrun. reflexivity.
Qed.

Lemma removeHunter_capacity (arr : HunterArrayType) (h : HunterType) rnd n arr' :
  roster_ok arr →
  removeHunter h rnd n arr = Done tt arr' n [] →
  hcapacity arr' = hcapacity arr.
Proof.
  intros [Hsize Hcap] Hrun.
  destruct (removeHunter_loop_spec arr (name h) 0 (Z.to_nat (hsize arr)))
    as (arr1 & Hloop & _ & Hcap' & _); [lia | done |].
  unfold removeHunter in Hrun. rewrite run_bind in Hrun. cbn [get] in Hrun.
  rewrite Hloop in Hrun. cbn in Hrun. by injection Hrun as <-.
Qed.

Lemma in_use_length (arr : HunterArrayType) :
  roster_ok arr → Z.of_nat (length (in_use arr)) = hsize arr.
Proof. intros [? ?]. unfold in_use. rewrite length_take. lia. Qed.

Lemma rosters_agree_relocated (w : World) (i from newRoom : nat) (h : HunterType) rnd n :
  world_ok w →
  rosters_agree w →
  house_hunters w !! i = Some h →
  room h = Some from →
  (newRoom < length (heap w))%nat →
  outcome
    (λ _ w', rosters_agree w'
             ∧ house_hunters w' = <[i := set_room (Some newRoom) h]> (house_hunters w))
    (λ _, False)
    (updateHunterLocation i from newRoom rnd n w).
Proof.
  intros Hok [Hnames Hroomy] Hin Hroom Hnew.
  assert (Hh : hunter (house_hunterArray (house w)) !! i = Some h)
    by (by apply house_hunters_lookup in Hin as [? _]).
  destruct (ok_placed w Hok h) as (r & Hroom' & Hr); [by eapply list_elem_of_lookup_2 |].
  assert (r = from) as -> by congruence. clear Hroom'.
  destruct (lookup_lt_is_Some_2 _ _ Hr) as [rm Hrm].
  destruct (Hroomy from rm Hrm) as (arr & Harr & Hcap).
  assert (Harr_ok := ok_rosters w Hok from rm arr Hrm Harr).
  destruct (removeHunter_run arr h rnd n Harr_ok) as (arr1 & Hrun1 & Harr1_ok & Huse1).
  assert (Hcap1 := removeHunter_capacity arr h rnd n arr1 Harr_ok Hrun1).
  set (w1 := set_heap (<[from := set_hunterArray arr1 rm]> (heap w)) w).
  (* the rosters after the removal list the other hunters *)
  assert (Hothers1 : ∀ r0, (r0 < length (heap w))%nat →
            roster_names w1 r0 ≡ₚ other_names_in w i r0).
  { intros r0 Hr0.
    rewrite (roster_names_set_roster w w1 from r0 rm arr1 Hrm eq_refl).
    assert (Hsplit := names_in_split w i h r0 Hin).
    rewrite <- (Hnames r0 Hr0) in Hsplit.
    destruct (decide (r0 = from)) as [-> | Hne].
    - rewrite (bool_decide_eq_true_2 (from = from)) by done.
      rewrite Huse1. apply names_removed.
      rewrite bool_decide_eq_true_2 in Hsplit by done.
      unfold roster_names in Hsplit. by rewrite Hrm, Harr in Hsplit.
    - rewrite (bool_decide_eq_false_2 (r0 = from)) by done.
      rewrite bool_decide_eq_false_2 in Hsplit by congruence. done. }
  unfold updateHunterLocation.
  step_done (read_hunter_run w i h rnd n Hh).
  erewrite run_bind_done; [| by eapply on_roster_run].
  apply outcome_prepend. fold w1.
  assert (Hh1 : hunter (house_hunterArray (house w1)) !! i = Some h) by done.
  set (h' := set_room (Some newRoom) h).
  step_done (write_hunter_run w1 i h h' rnd n Hh1).
  match goal with
  | |- outcome _ _ (_ _ _ ?w2') => set (w2 := w2')
  end.
  assert (Hlen2 : length (heap w2) = length (heap w))
    by (unfold w2, w1; cbn; by rewrite length_insert).
  destruct (lookup_lt_is_Some_2 (heap w2) newRoom ltac:(lia)) as [rm2 Hrm2].
  assert (Hroster2 : ∃ arr2,
            hunterArray rm2 = Some arr2 ∧ roster_ok arr2
            ∧ hsize (house_hunterArray (house w)) ≤ hcapacity arr2
            ∧ map name (in_use arr2) = roster_names w1 newRoom).
  { unfold roster_names. change (heap w2) with (heap w1) in Hrm2. rewrite Hrm2.
    unfold w1 in Hrm2. cbn in Hrm2.
    destruct (decide (newRoom = from)) as [-> | Hne].
    - rewrite list_lookup_insert_eq in Hrm2 by done. injection Hrm2 as <-.
      exists arr1. cbn. repeat split; try done; try apply Harr1_ok. lia.
    - rewrite list_lookup_insert_ne in Hrm2 by done.
      destruct (Hroomy newRoom rm2 Hrm2) as (arr2 & Harr2 & Hcap2).
      exists arr2. rewrite Harr2. repeat split; try done;
        apply (ok_rosters w Hok newRoom rm2 arr2 Hrm2 Harr2). }
  destruct Hroster2 as (arr2 & Harr2 & Harr2_ok & Hcap2 & Huse2).
  (* the target roster has room for the hunter *)
  assert (Hfree : hsize arr2 < hcapacity arr2).
  { rewrite <- (in_use_length arr2 Harr2_ok).
    rewrite <- (length_map name), Huse2, (Hothers1 newRoom Hnew).
    unfold other_names_in. rewrite length_map.
    assert (Hfl := length_filter (λ h0, room h0 = Some newRoom)
                     (delete i (house_hunters w))).
    rewrite length_delete in Hfl by eauto.
    assert (Hhs : Z.of_nat (length (house_hunters w))
                  = hsize (house_hunterArray (house w))).
    { destruct (ok_hunters w Hok). unfold house_hunters. rewrite length_take. lia. }
    assert (0 < length (house_hunters w))%nat by (apply lookup_lt_Some in Hin; lia).
    lia. }
  destruct Harr2_ok as [Hsz2 Hbuf2].
  assert (Hrun3 := addHunter_run arr2 h' rnd n ltac:(lia) Hfree).
  erewrite run_bind_done; [| by eapply on_roster_run].
  apply outcome_prepend. cbn [outcome mret M_ret ret].
  match goal with
  | |- rosters_agree ?w3' ∧ _ => set (w3 := w3')
  end.
  assert (Hin3 : house_hunters w3 = <[i := h']> (house_hunters w))
    by exact (house_hunters_written w i h').
  assert (Hlook3 : house_hunters w3 !! i = Some h').
  { rewrite Hin3. apply list_lookup_insert_eq. by apply lookup_lt_Some in Hin. }
  assert (Hdel3 : delete i (house_hunters w3) = delete i (house_hunters w)).
  { rewrite Hin3. clear. generalize (house_hunters w). intros l. revert i.
    induction l as [|x l IH]; intros [|i]; simpl; try done. by rewrite IH. }
  split; [| exact Hin3].
  split.
  - intros r0 Hr0.
    assert (Hr0' : (r0 < length (heap w))%nat).
    { revert Hr0. unfold w3. cbn [heap set_heap]. rewrite length_insert. lia. }
    rewrite (names_in_split w3 i h' r0 Hlook3).
    unfold other_names_in. rewrite Hdel3. fold (other_names_in w i r0).
    rewrite (roster_names_set_roster w2 w3 newRoom r0 rm2 _ Hrm2 eq_refl).
    change (room h') with (Some newRoom).
    destruct (decide (r0 = newRoom)) as [-> | Hne].
    + rewrite !bool_decide_eq_true_2 by done.
      rewrite in_use_added by lia.
      rewrite map_app, Huse2, (Hothers1 newRoom Hnew). cbn.
      apply Permutation_app_comm.
    + rewrite !bool_decide_eq_false_2 by congruence.
      change (roster_names w2 r0) with (roster_names w1 r0).
      by apply Hothers1.
  - intros r0 rm0 Hrm0. unfold w3 in Hrm0. cbn [heap set_heap] in Hrm0.
    change (hsize (house_hunterArray (house w3)))
      with (hsize (house_hunterArray (house w))).
    destruct (decide (r0 = newRoom)) as [-> | Hne].
    + rewrite list_lookup_insert_eq in Hrm0 by lia. injection Hrm0 as <-.
      eexists. split; [reflexivity |]. cbn. lia.
    + rewrite list_lookup_insert_ne in Hrm0 by done.
      change (heap w2) with (heap w1) in Hrm0. unfold w1 in Hrm0. cbn in Hrm0.
      destruct (decide (r0 = from)) as [-> | Hne'].
      * rewrite list_lookup_insert_eq in Hrm0 by done. injection Hrm0 as <-.
        exists arr1. split; [done | lia].
      * rewrite list_lookup_insert_ne in Hrm0 by done. eauto.
Qed.

Lemma rosters_agree_moved (w : World) (i : nat) (h : HunterType) rnd n :
  world_ok w →
  rosters_agree w →
  house_hunters w !! i = Some h →
  outcome (λ _ w', rosters_agree w') (λ _, False) (moveToRandomRoomHunter i rnd n w).
Proof.
  intros Hok Hagree Hin.
  assert (Hh : hunter (house_hunterArray (house w)) !! i = Some h)
    by (by apply house_hunters_lookup in Hin as [? _]).
  destruct (ok_placed w Hok h) as (r & Hroom & Hr); [by eapply list_elem_of_lookup_2 |].
  destruct (lookup_lt_is_Some_2 _ _ Hr) as [rm Hrm].
  destruct (ok_doors w Hok r rm Hrm) as (l & Hl & Hvalid).
  unfold moveToRandomRoomHunter.
  step_done (read_hunter_run w i h rnd n Hh).
  rewrite Hroom.
  step_done (read_room_run w r rm rnd n Hrm).
  rewrite Hl. rewrite run_bind. cbn [deref ret].
  unfold getRandomRoomIndex. rewrite run_bind, randInt_run.
  unfold getRoomAtIndex. rewrite getRoomAtIndex_loop_spec.
  destruct (l !! _) as [newRoom |] eqn:Hnew.
  - assert (Hu := rosters_agree_relocated w i r newRoom h rnd (S n) Hok Hagree Hin Hroom
                    (Hvalid newRoom (list_elem_of_lookup_2 _ _ _ Hnew))).
    destruct (updateHunterLocation i r newRoom rnd (S n) w); try done.
    by destruct Hu.
  - cbn. done.
Qed.

(** ** The sample world is well formed *)

Lemma start_world_ok : world_ok start_world.
Proof.
  split.
  - intros r rm arr Hrm Harr.
    do 13 (destruct r as [|r];
           [injection Hrm as <-; injection Harr as <-; vm_compute; intuition discriminate |]).
    done.
  - intros r rm Hrm.
    do 13 (destruct r as [|r];
           [injection Hrm as <-; eexists; split; [reflexivity |];
            apply (proj1 (Forall_forall _ _)); apply (bool_decide_unpack _);
            vm_compute; exact I |]).
    done.
  - vm_compute. intuition discriminate.
  - apply (proj1 (Forall_forall _ _)). repeat constructor; eexists; (split; [reflexivity |]);
      vm_compute; lia.
  - intros r Hr. injection Hr as <-. vm_compute. lia.
  - split; [reflexivity | reflexivity | vm_compute; intuition discriminate |].
    apply NoDup_nil_2.
Qed.

Lemma start_world_rosters : rosters_agree start_world.
Proof.
  split.
  - intros r Hr.
    do 13 (destruct r as [|r]; [vm_compute; reflexivity |]).
    exfalso. revert Hr. vm_compute. lia.
  - intros r rm Hrm.
    do 13 (destruct r as [|r];
           [injection Hrm as <-; eexists; split; [reflexivity |]; vm_compute;
            discriminate |]).
    done.
Qed.

(** ** The hunter's tick *)

Lemma outcome_ends {St A} (P : St → Prop) (r : Result St A) :
  outcome (λ _ s, P s) P r →
  ∃ s n o, ((∃ a, r = Done a s n o) ∨ r = Exited s n o) ∧ P s.
Proof.
  destruct r as [a s n o | s n o | |]; simpl; try done; intros HP; exists s, n, o; eauto.
Qed.

Lemma trivial_stepped (levels : HunterType → HunterType → Prop) i w rnd n
    (m : M World unit) :
  outcome (λ _ w', stepped_with (λ _, True) levels i w w')
    (λ w', stepped_with (λ _, True) levels i w w') (m rnd n w) →
  ∃ w' n' out,
    (m rnd n w = Done tt w' n' out ∨ m rnd n w = Exited w' n' out)
    ∧ world_ok w' ∧ hunter_step levels i w w'.
Proof.
  intros Hout. apply outcome_ends in Hout as (w' & n' & out & Hrun & Hok & Hstep & _).
  exists w', n', out. split; [| done].
  destruct Hrun as [[[] Hrun] | Hrun]; auto.
Qed.

Lemma updateHunterState_plain (w : World) (i : nat) (h : HunterType) rnd n :
  world_ok w →
  house_hunters w !! i = Some h →
  ∃ w' n' out,
    (updateHunterState i rnd n w = Done tt w' n' out
     ∨ updateHunterState i rnd n w = Exited w' n' out)
    ∧ world_ok w'
    ∧ hunter_step (tick_levels (bool_decide (room h = groom (ghost w)))) i w w'.
Proof.
  intros Hok Hin. apply trivial_stepped.
  apply (updateHunterState_step (λ _, True)); try done.
  intros w0 i0 h0 rnd0 n0 Hok0 _ Hin0.
  eapply outcome_mono; [by eapply moveToRandomRoomHunter_step | done | done].
Qed.

(** X10.  In a well-formed world a tick of a hunter that is in use stays
    within the behaviour C defines: every array access is within its buffer
    and every pointer followed is a room.  The tick returns or ends the
    hunter's thread, and the world it leaves is well formed again. *)
Theorem hunter_tick_keeps_the_world_well_formed
    (w : World) (i : nat) (h : HunterType) (rnd : nat → Z) (n : nat) :
  world_ok w →
  house_hunters w !! i = Some h →
  ∃ w' n' out,
    (updateHunterState i rnd n w = Done tt w' n' out
     ∨ updateHunterState i rnd n w = Exited w' n' out)
    ∧ world_ok w'.
Proof.
  intros Hok Hin.
  destruct (updateHunterState_plain w i h rnd n Hok Hin) as (w' & n' & out & Hrun & Hok' & _).
  by exists w', n', out.
Qed.

(** An instance of X10: Ann's first tick in the sample world. *)
Lemma hunter_tick_keeps_the_world_well_formed_witness :
  ∃ w' n' out,
    (updateHunterState 0 (λ _, 0) 0%nat start_world = Done tt w' n' out
     ∨ updateHunterState 0 (λ _, 0) 0%nat start_world = Exited w' n' out)
    ∧ world_ok w'.
Proof.
  apply (hunter_tick_keeps_the_world_well_formed start_world 0
           (mkHunter "Ann" EV_UNKNOWN 0 0 (Some 0%nat)) (λ _, 0) 0%nat).
  - exact start_world_ok.
  - reflexivity.
Defined.

(** X11.  A tick that a hunter enters below its limits takes its fear up by
    one and its boredom to zero when the ghost is in its room, and leaves its
    fear and takes its boredom up by one when it is not; whatever the hunter
    then does, these are its levels when the tick is over, and its name and
    its equipment are as before.  So fear never goes down, and neither level
    passes its limit. *)
Theorem hunter_tick_levels
    (w : World) (i : nat) (h : HunterType) (rnd : nat → Z) (n : nat) :
  world_ok w →
  house_hunters w !! i = Some h →
  fear h < FEAR_MAX →
  boredom h < BOREDOM_MAX →
  ∃ w' n' out h',
    (updateHunterState i rnd n w = Done tt w' n' out
     ∨ updateHunterState i rnd n w = Exited w' n' out)
    ∧ house_hunters w' !! i = Some h'
    ∧ name h' = name h
    ∧ equipment h' = equipment h
    ∧ (room h = groom (ghost w) → fear h' = fear h + 1 ∧ boredom h' = 0)
    ∧ (room h ≠ groom (ghost w) → fear h' = fear h ∧ boredom h' = boredom h + 1)
    ∧ fear h ≤ fear h' ≤ FEAR_MAX
    ∧ boredom h' ≤ BOREDOM_MAX.
Proof.
  intros Hok Hin Hfear Hboredom.
  destruct (updateHunterState_plain w i h rnd n Hok Hin)
    as (w' & n' & out & Hrun & Hok' & Hstep).
  apply house_hunters_lookup in Hin as [Hh Hi].
  destruct (hs_self _ _ _ _ Hstep h Hh) as (h' & Hh' & Hname & Hequipment & Hlevels).
  exists w', n', out, h'. split; [done |].
  split; [apply house_hunters_lookup; by rewrite (hs_hsize _ _ _ _ Hstep) |].
  do 2 (split; [done |]).
  unfold tick_levels in Hlevels.
  destruct (decide (room h = groom (ghost w))) as [Hp | Hp];
    [rewrite (bool_decide_eq_true_2 _ Hp) in Hlevels
    | rewrite (bool_decide_eq_false_2 _ Hp) in Hlevels];
    destruct Hlevels as [Hf Hb];
    rewrite ?(bool_decide_eq_true_2 _ Hfear) in Hf;
    rewrite ?(bool_decide_eq_true_2 _ Hboredom) in Hb;
    unfold FEAR_MAX, BOREDOM_MAX in *;
    repeat split; intros; try done; lia.
Qed.

(** An instance of X11: the ghost of the sample world is in the garage, Ann
    in the van. *)
Lemma hunter_tick_levels_witness :
  ∃ w' n' out h',
    (updateHunterState 0 (λ _, 0) 0%nat start_world = Done tt w' n' out
     ∨ updateHunterState 0 (λ _, 0) 0%nat start_world = Exited w' n' out)
    ∧ house_hunters w' !! 0%nat = Some h'
    ∧ name h' = "Ann"
    ∧ fear h' = 0
    ∧ boredom h' = 1.
Proof.
  destruct (hunter_tick_levels start_world 0
              (mkHunter "Ann" EV_UNKNOWN 0 0 (Some 0%nat)) (λ _, 0) 0%nat)
    as (w' & n' & out & h' & Hrun & Hh' & Hname & _ & _ & Habsent & _).
  - exact start_world_ok.
  - reflexivity.
  - reflexivity.
  - reflexivity.
  - exists w', n', out, h'. split; [exact Hrun |]. split; [exact Hh' |].
    split; [exact Hname |]. apply Habsent. discriminate.
Defined.

(** X12.  A tick of the hunter at index [i] leaves alone what is not the
    hunter's: the ghost, the [gameOver] flag, the list of the rooms, and of
    every room the name, the ledger and the room list; the other entries of
    the house's hunter array, its size and its capacity.  The shared pool has
    grown at most, and the count of the hunters has not gone up, nor below
    zero. *)
Theorem hunter_tick_leaves_the_rest_alone
    (w : World) (i : nat) (h : HunterType) (rnd : nat → Z) (n : nat) :
  world_ok w →
  house_hunters w !! i = Some h →
  ∃ w' n' out,
    (updateHunterState i rnd n w = Done tt w' n' out
     ∨ updateHunterState i rnd n w = Exited w' n' out)
    ∧ hunter_step (λ _ _, True) i w w'.
Proof.
  intros Hok Hin.
  destruct (updateHunterState_plain w i h rnd n Hok Hin)
    as (w' & n' & out & Hrun & _ & Hstep).
  exists w', n', out. split; [done |].
  apply (hunter_step_trans (tick_levels (bool_decide (room h = groom (ghost w))))
           (λ _ _, True) (λ _ _, True) i w w' w');
    [done | exact Hstep | by apply hunter_step_refl].
Qed.

(** An instance of X12: after Ann's first tick the ghost of the sample world
    is where it was and Bob's entry is as it was. *)
Lemma hunter_tick_leaves_the_rest_alone_witness :
  ∃ w' n' out,
    (updateHunterState 0 (λ _, 0) 0%nat start_world = Done tt w' n' out
     ∨ updateHunterState 0 (λ _, 0) 0%nat start_world = Exited w' n' out)
    ∧ ghost w' = ghost start_world
    ∧ hunter (house_hunterArray (house w')) !! 1%nat
      = hunter (house_hunterArray (house start_world)) !! 1%nat.
Proof.
  destruct (hunter_tick_leaves_the_rest_alone start_world 0
              (mkHunter "Ann" EV_UNKNOWN 0 0 (Some 0%nat)) (λ _, 0) 0%nat)
    as (w' & n' & out & Hrun & Hstep).
  - exact start_world_ok.
  - reflexivity.
  - exists w', n', out. split; [exact Hrun |].
    split; [exact (hs_ghost _ _ _ _ Hstep) | apply (hs_others _ _ _ _ Hstep); lia].
Defined.

(** ** The rosters across a tick *)

Lemma rosters_agree_levels (w : World) (i : nat) (h h' : HunterType) :
  rosters_agree w →
  hunter (house_hunterArray (house w)) !! i = Some h →
  name h' = name h →
  room h' = room h →
  rosters_agree
    (set_house
       (set_house_hunterArray
          (mkHunterArray (<[i := h']> (hunter (house_hunterArray (house w))))
             (hsize (house_hunterArray (house w)))
             (hcapacity (house_hunterArray (house w))))
          (house w)) w).
Proof.
  intros [Hnames Hroomy] Hh Hname Hroom. split; [| exact Hroomy].
  intros r Hr. cbn [heap set_house] in Hr.
  change (roster_names _ r) with (roster_names w r).
  rewrite (Hnames r Hr).
  unfold names_in. rewrite house_hunters_written.
  destruct (decide (i < length (house_hunters w))%nat) as [Hlt | Hge].
  - destruct (lookup_lt_is_Some_2 _ _ Hlt) as [h0 Hh0].
    assert (h0 = h) as ->.
    { apply house_hunters_lookup in Hh0 as [Hh0 _]. congruence. }
    assert (Hdel : delete i (<[i := h']> (house_hunters w)) = delete i (house_hunters w)).
    { clear. generalize (house_hunters w). intros l. revert i.
      induction l as [|x l IH]; intros [|i]; simpl; try done. by rewrite IH. }
    rewrite (Permutation_map name
               (filter_Permutation _ _ _ (delete_Permutation _ _ _ Hh0))).
    rewrite (Permutation_map name
               (filter_Permutation _ _ _
                  (delete_Permutation (<[i := h']> (house_hunters w)) i h'
                     (list_lookup_insert_eq _ _ _ Hlt)))).
    rewrite Hdel, !filter_cons, Hroom.
    case_decide; cbn; by rewrite ?Hname.
  - by rewrite list_insert_ge by lia.
Qed.

Lemma rosters_agree_set_pool (w : World) (pool' : EvidenceArrayType) :
  rosters_agree w → rosters_agree (set_house (set_house_evidenceArray pool' (house w)) w).
Proof. intros []. by split. Qed.

Lemma rosters_agree_set_hunterCount (w : World) (c : Z) :
  rosters_agree w → rosters_agree (set_house (set_hunterCount c (house w)) w).
Proof. intros []. by split. Qed.

(** X13.  When the roster of every room lists, by name, the hunters that
    stand in the room, it does so again after a tick of a hunter, whatever the
    hunter did: a hunter that moves is taken off the roster of the room it
    leaves and put on the roster of the room it enters, and the roster it
    enters has room for it. *)
Theorem hunter_tick_keeps_the_rosters
    (w : World) (i : nat) (h : HunterType) (rnd : nat → Z) (n : nat) :
  world_ok w →
  rosters_agree w →
  house_hunters w !! i = Some h →
  ∃ w' n' out,
    (updateHunterState i rnd n w = Done tt w' n' out
     ∨ updateHunterState i rnd n w = Exited w' n' out)
    ∧ world_ok w'
    ∧ rosters_agree w'.
Proof.
  intros Hok Hagree Hin.
  assert (Hout := updateHunterState_step rosters_agree rosters_agree_set_pool
                    rosters_agree_set_hunterCount rosters_agree_levels
                    rosters_agree_moved w i h rnd n Hok Hagree Hin).
  apply outcome_ends in Hout as (w' & n' & out & Hrun & Hok' & _ & Hagree').
  exists w', n', out. split; [| done].
  destruct Hrun as [[[] Hrun] | Hrun]; auto.
Qed.

(** An instance of X13: Ann's first tick in the sample world, in which she
    moves from the van to the hallway. *)
Lemma hunter_tick_keeps_the_rosters_witness :
  ∃ w' n' out,
    (updateHunterState 0 (λ _, 0) 0%nat start_world = Done tt w' n' out
     ∨ updateHunterState 0 (λ _, 0) 0%nat start_world = Exited w' n' out)
    ∧ world_ok w'
    ∧ rosters_agree w'.
Proof.
  apply (hunter_tick_keeps_the_rosters start_world 0
           (mkHunter "Ann" EV_UNKNOWN 0 0 (Some 0%nat)) (λ _, 0) 0%nat).
  - exact start_world_ok.
  - exact start_world_rosters.
  - reflexivity.
Defined.

(** ** The hunter's thread *)

Lemma world_ok_set_gameOver (w : World) (v : Z) : world_ok w → world_ok (set_gameOver v w).
Proof. intros []. by split. Qed.

Lemma updateHunterState_outcome (w : World) (i : nat) (h : HunterType) rnd n :
  world_ok w →
  house_hunters w !! i = Some h →
  outcome
    (λ _ w', world_ok w'
             ∧ hunter_step (tick_levels (bool_decide (room h = groom (ghost w)))) i w w')
    (λ w', world_ok w'
           ∧ hunter_step (tick_levels (bool_decide (room h = groom (ghost w)))) i w w')
    (updateHunterState i rnd n w).
Proof.
  intros Hok Hin.
  destruct (updateHunterState_plain w i h rnd n Hok Hin)
    as (w' & n' & out & [Hrun | Hrun] & Hok' & Hstep); by rewrite Hrun.
Qed.

(** The loop of the thread comes to an end when the fuel covers the rounds
    that the levels of the hunter leave it. *)
Lemma hunterBehaviour_loop_ends (fuel : nat) (i : nat) :
  ∀ (w : World) (h : HunterType) rnd n,
    world_ok w →
    house_hunters w !! i = Some h →
    Z.max 0 ((FEAR_MAX - fear h) * (BOREDOM_MAX + 1) + (BOREDOM_MAX - boredom h))
      < Z.of_nat fuel →
    outcome
      (λ _ w', world_ok w' ∧ ghost w' = ghost w
               ∧ (gameOver w' = gameOver w ∨ gameOver w' = 1))
      (λ w', world_ok w' ∧ ghost w' = ghost w
             ∧ (gameOver w' = gameOver w ∨ gameOver w' = 1))
      (hunterBehaviour_loop fuel i rnd n w).
Proof.
  induction fuel as [|fuel IH]; intros w h rnd n Hok Hin Hfuel; [lia |].
  assert (Hh : hunter (house_hunterArray (house w)) !! i = Some h)
    by (by apply house_hunters_lookup in Hin as [? _]).
  cbn [hunterBehaviour_loop].
  step_done (read_hunter_run w i h rnd n Hh).
  step_done (run_get rnd n w).
  destruct (decide (fear h < FEAR_MAX)) as [Hfear | Hfear];
    [rewrite (bool_decide_eq_true_2 _ Hfear)
    | rewrite (bool_decide_eq_false_2 _ Hfear); cbn; auto].
  destruct (decide (boredom h < BOREDOM_MAX)) as [Hboredom | Hboredom];
    [rewrite (bool_decide_eq_true_2 _ Hboredom)
    | rewrite (bool_decide_eq_false_2 _ Hboredom); cbn; auto].
  destruct (bool_decide (gameOver w = 0)); [| cbn; auto].
  cbn [andb].
  eapply outcome_bind.
  { eapply outcome_mono; [by apply (updateHunterState_outcome w i h) | done |].
    cbn. intros w' [Hok' Hstep].
    rewrite (hs_ghost _ _ _ _ Hstep), (hs_flag _ _ _ _ Hstep). auto. }
  intros _ w' n' [Hok' Hstep]. cbn beta.
  step_done (run_get rnd n' w').
  destruct (bool_decide (hunterCount (house w') = 0)
            || bool_decide (3 ≤ size (house_evidenceArray (house w')))).
  { cbn. split; [by apply world_ok_set_gameOver |].
    split; [exact (hs_ghost _ _ _ _ Hstep) | by right]. }
  destruct (hs_self _ _ _ _ Hstep h Hh) as (h' & Hh' & _ & _ & Hlevels).
  assert (Hin' : house_hunters w' !! i = Some h').
  { apply house_hunters_lookup. split; [done |].
    rewrite (hs_hsize _ _ _ _ Hstep). by apply house_hunters_lookup in Hin as [_ ?]. }
  assert (Hless : Z.max 0 ((FEAR_MAX - fear h') * (BOREDOM_MAX + 1)
                           + (BOREDOM_MAX - boredom h')) < Z.of_nat fuel).
  { unfold tick_levels in Hlevels.
    destruct (bool_decide (room h = groom (ghost w)));
      destruct Hlevels as [Hf Hb];
      rewrite ?(bool_decide_eq_true_2 _ Hfear) in Hf;
      rewrite ?(bool_decide_eq_true_2 _ Hboredom) in Hb;
      rewrite Hf, Hb; unfold FEAR_MAX, BOREDOM_MAX in *; lia. }
  specialize (IH w' h' rnd n' Hok' Hin' Hless).
  eapply outcome_mono; [exact IH | |]; cbn;
    rewrite (hs_ghost _ _ _ _ Hstep), (hs_flag _ _ _ _ Hstep); auto.
Qed.

(** X14.  The thread of a hunter, run with no other thread between its
    rounds, comes to its end whatever is drawn: [fuel] rounds are enough when
    [fuel] exceeds [(FEAR_MAX - fear) * (BOREDOM_MAX + 1) + (BOREDOM_MAX -
    boredom)] for the hunter's levels at the start, which is 1110 for a hunter
    that starts at zero.  The thread stays within the behaviour C defines and
    leaves a well-formed world, in which the ghost is as it was and the
    [gameOver] flag is as it was or set. *)
Theorem hunterBehaviour_comes_to_an_end
    (w : World) (i : nat) (h : HunterType) (fuel : nat) (rnd : nat → Z) (n : nat) :
  world_ok w →
  house_hunters w !! i = Some h →
  Z.max 0 ((FEAR_MAX - fear h) * (BOREDOM_MAX + 1) + (BOREDOM_MAX - boredom h))
    < Z.of_nat fuel →
  ∃ w' n' out,
    hunterBehaviour fuel i rnd n w = Exited w' n' out
    ∧ world_ok w'
    ∧ ghost w' = ghost w
    ∧ (gameOver w' = gameOver w ∨ gameOver w' = 1).
Proof.
  intros Hok Hin Hfuel.
  assert (Hloop := hunterBehaviour_loop_ends fuel i w h rnd n Hok Hin Hfuel).
  unfold hunterBehaviour. rewrite run_bind.
  destruct (hunterBehaviour_loop fuel i rnd n w) as [[] w' n' out | w' n' out | |];
    try done; cbn; eauto.
Qed.

(** An instance of X14: Ann's thread in the sample world, with fuel for 1111
    rounds. *)
Lemma hunterBehaviour_comes_to_an_end_witness :
  ∃ w' n' out,
    hunterBehaviour 1111 0 (λ _, 0) 0%nat start_world = Exited w' n' out
    ∧ world_ok w'
    ∧ ghost w' = ghost start_world
    ∧ (gameOver w' = gameOver start_world ∨ gameOver w' = 1).
Proof.
  apply (hunterBehaviour_comes_to_an_end start_world 0
           (mkHunter "Ann" EV_UNKNOWN 0 0 (Some 0%nat)) 1111 (λ _, 0) 0%nat).
  - exact start_world_ok.
  - reflexivity.
  - reflexivity.
Defined.

(** ** What the ghost sees *)

Lemma isSameRoom_spec (room1 room2 : option nat) :
  isSameRoom room1 room2 ≠ 0 ↔ is_Some room1 ∧ room2 = room1.
Proof.
  unfold isSameRoom. destruct room1 as [a |], room2 as [b |].
  - destruct (decide (a = b)) as [-> | Hne].
    + rewrite !bool_decide_eq_true_2 by done. cbn. split; [eauto | done].
    + rewrite (bool_decide_eq_false_2 (Some a = Some b)) by congruence.
      rewrite andb_false_r. split; [done | intros [_ ?]; congruence].
  - rewrite (bool_decide_eq_false_2 (None ≠ None)) by (intros H; by apply H).
    rewrite andb_false_r. cbn. split; [done | intros [_ [=]]].
  - rewrite (bool_decide_eq_false_2 (None ≠ None)) by (intros H; by apply H).
    cbn. split; [done | intros [[? [=]] _]].
  - rewrite (bool_decide_eq_false_2 (None ≠ None)) by (intros H; by apply H).
    cbn. split; [done | intros [[? [=]] _]].
Qed.

Lemma isHunterPresent_loop_spec (g : option nat) (buf : list HunterType) (i todo : nat) :
  (i + todo ≤ length buf)%nat →
  isHunterPresent_loop g buf i todo
  = Some (if bool_decide (Exists (λ h, is_Some g ∧ room h = g) (take todo (drop i buf)))
          then 1 else 0).
Proof.
  revert i. induction todo as [|todo IH]; intros i Hlen; cbn [isHunterPresent_loop].
  - rewrite take_0, bool_decide_eq_false_2; [done |].
    intros Hex. by apply Exists_nil in Hex.
  - destruct (lookup_lt_is_Some_2 buf i ltac:(lia)) as [h Hh].
    rewrite Hh, (drop_S _ _ _ Hh). cbn [take].
    destruct (decide (isSameRoom g (room h) ≠ 0)) as [Hsame | Hsame].
    + rewrite (bool_decide_eq_true_2 _ Hsame).
      rewrite bool_decide_eq_true_2; [done |].
      apply Exists_cons_hd. by apply isSameRoom_spec.
    + rewrite (bool_decide_eq_false_2 _ Hsame), IH by lia.
      f_equal. rewrite isSameRoom_spec in Hsame.
      apply (f_equal (λ b : bool, if b then 1 else 0)).
      apply bool_decide_ext. rewrite Exists_cons. tauto.
Qed.

Lemma isHunterPresent_run (w : World) (numHunters : Z) rnd n :
  roster_ok (house_hunterArray (house w)) →
  ∃ v,
    isHunterPresent numHunters rnd n w = Done v w n []
    ∧ (v = 0 ∨ v = 1)
    ∧ (v ≠ 0 ↔ 0 < numHunters ∧ hunter_in_ghost_room w).
Proof.
  intros [Hsize Hcap]. unfold isHunterPresent.
  rewrite run_bind. cbn [get]. unfold isValidGhostAndHunterList.
  assert (Hempty : ¬ 0 < hsize (house_hunterArray (house w)) → ¬ hunter_in_ghost_room w).
  { intros Hzero (h & Hin & _). unfold house_hunters in Hin.
    replace (Z.to_nat (hsize (house_hunterArray (house w)))) with 0%nat in Hin by lia.
    by apply elem_of_nil in Hin. }
  destruct (decide (0 < hsize (house_hunterArray (house w)))) as [Hpos | Hzero];
    [rewrite (bool_decide_eq_true_2 _ Hpos)
    | rewrite (bool_decide_eq_false_2 _ Hzero); cbn;
      exists 0; split; [done |]; split; [by left |]; split; [done | tauto]].
  destruct (decide (0 < numHunters)) as [Hnum | Hnum];
    [rewrite (bool_decide_eq_true_2 _ Hnum)
    | rewrite (bool_decide_eq_false_2 _ Hnum); cbn;
      exists 0; split; [done |]; split; [by left |]; split; [done | tauto]].
  cbn. rewrite isHunterPresent_loop_spec by (cbn; lia).
  rewrite drop_0. fold (house_hunters w). cbn.
  eexists. split; [reflexivity |].
  case_bool_decide as Hex; (split; [auto |]);
    rewrite Exists_exists in Hex; unfold hunter_in_ghost_room.
  - split; [| done]. intros _. split; [done |].
    destruct Hex as (h & ? & ? & ?). eauto.
  - split; [done |]. intros [_ (h & ? & ? & ?)]. exfalso. apply Hex. eauto.
Qed.

(** X15.  [isHunterPresent] answers 1 exactly when the number of hunters it
    is given is positive and a hunter in use stands in the room of the ghost,
    which must have a room; otherwise it answers 0.  With a number of hunters
    of zero or less it answers 0 whoever is in the room.  It changes nothing
    and prints nothing. *)
Theorem isHunterPresent_needs_a_positive_count
    (w : World) (numHunters : Z) (rnd : nat → Z) (n : nat) :
  roster_ok (house_hunterArray (house w)) →
  ∃ v,
    isHunterPresent numHunters rnd n w = Done v w n []
    ∧ (v = 0 ∨ v = 1)
    ∧ (v = 1 ↔ 0 < numHunters ∧ hunter_in_ghost_room w)
    ∧ (numHunters ≤ 0 → v = 0).
Proof.
  intros Hok.
  destruct (isHunterPresent_run w numHunters rnd n Hok) as (v & Hrun & Hv & Hseen).
  exists v. split; [done |]. split; [done |]. split.
  - rewrite <- Hseen. lia.
  - intros Hnum. destruct Hv as [-> | ->]; [done |].
    assert (0 < numHunters ∧ hunter_in_ghost_room w) by (by apply Hseen). lia.
Qed.

(** An instance of X15: the ghost and the four hunters in the van, and a
    count of zero. *)
Lemma isHunterPresent_needs_a_positive_count_witness :
  ∃ v,
    isHunterPresent 0 (λ _, 0) 0%nat
      (set_ghost (mkGhost (Some 0%nat) BANSHEE 0) start_world)
    = Done v (set_ghost (mkGhost (Some 0%nat) BANSHEE 0) start_world) 0%nat []
    ∧ v = 0.
Proof.
  destruct (isHunterPresent_needs_a_positive_count
              (set_ghost (mkGhost (Some 0%nat) BANSHEE 0) start_world) 0 (λ _, 0) 0%nat)
    as (v & Hrun & _ & _ & Hzero).
  - vm_compute. intuition discriminate.
  - exists v. split; [exact Hrun | apply Hzero; lia].
Defined.

(** ** The ghost's tick as a step *)

Lemma outcome_no_exit {St A} (Q : A → St → Prop) (E : St → Prop) (r : Result St A) :
  outcome Q (λ _, False) r → outcome Q E r.
Proof. by destruct r. Qed.

Lemma ledger_grown_refl l : ledger_grown l l.
Proof. destruct l as [entries |]; cbn; [| done]. exists []. by rewrite app_nil_r. Qed.

Lemma same_but_ledger_refl rm : same_but_ledger rm rm.
Proof. repeat split. apply ledger_grown_refl. Qed.

Lemma ghost_step_refl (w : World) : ghost_step w w.
Proof.
  split; try done.
  - intros r rm Hrm. exists rm. split; [done | apply same_but_ledger_refl].
  - by left.
Qed.

Lemma world_ok_set_ghost (w : World) (g : GhostType) :
  world_ok w →
  (∀ r, groom g = Some r → (r < length (heap w))%nat) →
  world_ok (set_ghost g w).
Proof. intros [] Hg. by split. Qed.

Lemma ghost_room_name_run (w : World) (r : nat) rnd n :
  groom (ghost w) = Some r →
  (r < length (heap w))%nat →
  ∃ rn, ghost_room_name rnd n w = Done rn w n [].
Proof.
  intros Hroom Hr. destruct (lookup_lt_is_Some_2 _ _ Hr) as [rm Hrm].
  exists (rname rm). unfold ghost_room_name.
  rewrite (run_bind_done _ _ _ _ _ _ _ _ _ (run_get rnd n w)).
  rewrite Hroom, run_bind. cbn [deref ret].
  by rewrite (run_bind_done _ _ _ _ _ _ _ _ _ (read_room_run w r rm rnd n Hrm)).
Qed.

(** The ghost leaves evidence: the ledger of its room grows by one entry. *)
Lemma addEv_step (w : World) (r : nat) rnd n :
  world_ok w →
  groom (ghost w) = Some r →
  outcome
    (λ _ w', world_ok w' ∧ ghost_step w w' ∧ ghost w' = ghost w
             ∧ gameOver w' = gameOver w)
    (λ _, False) (addEv rnd n w).
Proof.
  intros Hok Hroom.
  assert (Hr := ok_ghost w Hok r Hroom).
  destruct (lookup_lt_is_Some_2 _ _ Hr) as [rm Hrm].
  unfold addEv. step_done (run_get rnd n w). rewrite Hroom.
  step_done (read_room_run w r rm rnd n Hrm).
  destruct (evidencelist rm) as [ledger |] eqn:Hledger;
    [| cbn; split; [done |]; split; [apply ghost_step_refl | done]].
  unfold determineEvidenceType. rewrite !run_bind, randInt_run.
  generalize (determineEvidenceType_of (ghostType (ghost w)) (randInt_of 0 3 (rnd n))).
  intros ev. cbn.
  split; [| split; [| done]].
  - destruct Hok as [Hrosters Hdoors Hhunters Hplaced Hghost Hpool].
    split; cbn [heap set_heap house ghost]; try done.
    + intros r0 rm0 arr0 Hrm0 Harr0.
      destruct (decide (r0 = r)) as [-> | Hne].
      * rewrite list_lookup_insert_eq in Hrm0 by done. injection Hrm0 as <-. eauto.
      * rewrite list_lookup_insert_ne in Hrm0 by done. eauto.
    + intros r0 rm0 Hrm0. rewrite length_insert.
      destruct (decide (r0 = r)) as [-> | Hne].
      * rewrite list_lookup_insert_eq in Hrm0 by done. injection Hrm0 as <-. cbn. eauto.
      * rewrite list_lookup_insert_ne in Hrm0 by done. eauto.
    + intros h Hh. rewrite length_insert. by apply Hplaced.
    + intros r0 Hr0. rewrite length_insert. by apply Hghost.
  - split; cbn [heap set_heap house ghost]; try done.
    + by rewrite length_insert.
    + intros r0 rm0 Hrm0.
      destruct (decide (r0 = r)) as [-> | Hne].
      * rewrite list_lookup_insert_eq by done.
        eexists. split; [done |]. rewrite Hrm in Hrm0. injection Hrm0 as <-.
        repeat split. cbn. rewrite Hledger. by apply prefix_app_r.
      * rewrite list_lookup_insert_ne by done.
        exists rm0. split; [done | apply same_but_ledger_refl].
    + by left.
Qed.

(** The ghost moves: its new room is a neighbour of the old one. *)
Lemma moveToRandomRoomGhost_step (w : World) rnd n :
  world_ok w →
  outcome
    (λ _ w', world_ok w' ∧ ghost_step w w'
             ∧ boredomTime (ghost w') = boredomTime (ghost w)
             ∧ gameOver w' = gameOver w)
    (λ _, False) (moveToRandomRoomGhost rnd n w).
Proof.
  intros Hok. unfold moveToRandomRoomGhost. step_done (run_get rnd n w).
  destruct (groom (ghost w)) as [r |] eqn:Hroom;
    [| cbn; split; [done |]; split; [apply ghost_step_refl | done]].
  assert (Hr := ok_ghost w Hok r Hroom).
  destruct (lookup_lt_is_Some_2 _ _ Hr) as [rm Hrm].
  step_done (read_room_run w r rm rnd n Hrm).
  destruct (ok_doors w Hok r rm Hrm) as (l & Hl & Hvalid). rewrite Hl.
  rewrite run_bind, randInt_run, getRoomAtIndex_loop_spec.
  destruct (l !! _) as [target |] eqn:Htarget;
    [| cbn; split; [done |]; split; [apply ghost_step_refl | done]].
  assert (Hin : target ∈ l) by (by eapply list_elem_of_lookup_2).
  cbn. split; [| split; [| done]].
  - apply world_ok_set_ghost; [done |]. cbn. intros r0 [= <-]. by apply Hvalid.
  - split; cbn; try done.
    + intros r0 rm0 Hrm0. exists rm0. split; [done | apply same_but_ledger_refl].
    + right. exists r, target. repeat split; try done.
      unfold neighbours. by rewrite Hrm, Hl.
Qed.

Lemma updateGhost_step (w : World) (numHunters : Z) rnd n :
  world_ok w →
  outcome
    (λ _ w', (world_ok w' ∧ ghost_step w w'
              ∧ (0 < numHunters ∧ hunter_in_ghost_room w →
                 boredomTime (ghost w') = 0 ∧ groom (ghost w') = groom (ghost w))
              ∧ (¬ (0 < numHunters ∧ hunter_in_ghost_room w) →
                 boredomTime (ghost w') = boredomTime (ghost w) + 1))
             ∧ gameOver w' = gameOver w ∧ boredomTime (ghost w') < BOREDOM_MAX)
    (λ w', (world_ok w' ∧ ghost_step w w'
            ∧ (0 < numHunters ∧ hunter_in_ghost_room w →
               boredomTime (ghost w') = 0 ∧ groom (ghost w') = groom (ghost w))
            ∧ (¬ (0 < numHunters ∧ hunter_in_ghost_room w) →
               boredomTime (ghost w') = boredomTime (ghost w) + 1))
           ∧ gameOver w' = 1 ∧ BOREDOM_MAX ≤ boredomTime (ghost w'))
    (updateGhost numHunters rnd n w).
Proof.
  intros Hok.
  destruct (isHunterPresent_run w numHunters rnd n (ok_hunters w Hok))
    as (v & Hrun & Hv & Hseen).
  unfold updateGhost. step_done Hrun.
  set (b := if bool_decide (v ≠ 0) then 0 else boredomTime (ghost w) + 1).
  set (w1 := set_ghost (set_boredomTime b (ghost w)) w).
  rewrite run_bind. change (modify _ rnd n w) with (Done tt w1 n [] : Result World unit).
  cbn iota. apply outcome_prepend. step_done (run_get rnd n w1).
  assert (Hok1 : world_ok w1) by (apply world_ok_set_ghost; [done | apply (ok_ghost w Hok)]).
  assert (Hb : (0 < numHunters ∧ hunter_in_ghost_room w → b = 0)
               ∧ (¬ (0 < numHunters ∧ hunter_in_ghost_room w) →
                  b = boredomTime (ghost w) + 1)).
  { unfold b. destruct (decide (v ≠ 0)) as [Hv0 | Hv0];
      [rewrite (bool_decide_eq_true_2 _ Hv0) | rewrite (bool_decide_eq_false_2 _ Hv0)];
      (split; [intros Hs | intros Hn]); try done.
    - exfalso. apply Hn. by apply Hseen.
    - exfalso. apply Hv0. by apply Hseen. }
  assert (Hpost : ∀ w', world_ok w' → ghost_step w1 w' →
            boredomTime (ghost w') = b →
            (v ≠ 0 → groom (ghost w') = groom (ghost w)) →
            world_ok w' ∧ ghost_step w w'
            ∧ (0 < numHunters ∧ hunter_in_ghost_room w →
               boredomTime (ghost w') = 0 ∧ groom (ghost w') = groom (ghost w))
            ∧ (¬ (0 < numHunters ∧ hunter_in_ghost_room w) →
               boredomTime (ghost w') = boredomTime (ghost w) + 1)).
  { intros w' Hok' [] Hb' Hstay. split; [done |]. split; [by split |].
    rewrite Hb'. split; [| tauto].
    intros Hs. split; [tauto | apply Hstay; by apply Hseen]. }
  change (boredomTime (ghost w1)) with b.
  case_bool_decide as Hmax.
  { cbn. split; [| done].
    destruct (Hpost w1 Hok1 (ghost_step_refl w1) eq_refl ltac:(done)) as (? & [] & ? & ?).
    split; [by apply world_ok_set_gameOver |]. split; [by split | done]. }
  eapply (outcome_bind _ _ _ _ _ (λ _ s, s = w1)); [by rewrite randInt_run |].
  intros choice s0 n0 ->. cbn beta.
  assert (Hplain : (world_ok w1 ∧ ghost_step w w1
            ∧ (0 < numHunters ∧ hunter_in_ghost_room w →
               boredomTime (ghost w1) = 0 ∧ groom (ghost w1) = groom (ghost w))
            ∧ (¬ (0 < numHunters ∧ hunter_in_ghost_room w) →
               boredomTime (ghost w1) = boredomTime (ghost w) + 1))
           ∧ gameOver w1 = gameOver w ∧ boredomTime (ghost w1) < BOREDOM_MAX).
  { split; [by apply Hpost; try apply ghost_step_refl | split; [done | cbn; lia]]. }
  destruct (decide (choice = 0)) as [Hc0 | Hc0];
    [rewrite (bool_decide_eq_true_2 _ Hc0); exact Hplain
    | rewrite (bool_decide_eq_false_2 _ Hc0)].
  destruct (decide (choice = 1)) as [Hc1 | Hc1];
    [rewrite (bool_decide_eq_true_2 _ Hc1) | rewrite (bool_decide_eq_false_2 _ Hc1)].
  { change (groom (ghost w1)) with (groom (ghost w)).
    destruct (groom (ghost w)) as [r |] eqn:Hroom; [| exact Hplain].
    eapply outcome_bind;
      [apply outcome_no_exit; exact (addEv_step w1 r rnd n0 Hok1 Hroom) |].
    intros ev w2 n2 (Hok2 & Hstep2 & Hghost2 & Hflag2). cbn beta.
    destruct (ghost_room_name_run w2 r rnd n2) as [rn Hrn];
      [by rewrite Hghost2 | rewrite (gs_heap_length _ _ Hstep2); by apply (ok_ghost w Hok) |].
    step_done Hrn. cbn.
    split; [| rewrite Hflag2, Hghost2; split; [done | cbn; lia]].
    apply Hpost; try done; by rewrite Hghost2. }
  destruct (decide (choice = 2)) as [Hc2 | Hc2];
    [rewrite (bool_decide_eq_true_2 _ Hc2)
    | rewrite (bool_decide_eq_false_2 _ Hc2); exact Hplain].
  change (groom (ghost w1)) with (groom (ghost w)).
  destruct (decide (v = 0)) as [Hv0 | Hv0];
    [rewrite (bool_decide_eq_true_2 _ Hv0)
    | rewrite (bool_decide_eq_false_2 _ Hv0); exact Hplain].
  destruct (groom (ghost w)) as [r |] eqn:Hroom;
    [rewrite bool_decide_eq_true_2 by done
    | rewrite bool_decide_eq_false_2 by (intros H; by apply H); exact Hplain].
  cbn [andb].
  eapply outcome_bind;
    [apply outcome_no_exit; exact (moveToRandomRoomGhost_step w1 rnd n0 Hok1) |].
  intros _ w2 n2 (Hok2 & Hstep2 & Hb2 & Hflag2). cbn beta.
  assert (Hroom2 : ∃ r2, groom (ghost w2) = Some r2).
  { destruct (gs_room _ _ Hstep2) as [Hsame | (? & r2 & _ & Hr2 & _)]; [| eauto].
    exists r. by rewrite Hsame. }
  destruct Hroom2 as [r2 Hroom2].
  destruct (ghost_room_name_run w2 r2 rnd n2 Hroom2 (ok_ghost w2 Hok2 r2 Hroom2))
    as [rn Hrn].
  step_done Hrn. cbn.
  split; [| rewrite Hflag2, Hb2; split; [done | cbn; lia]].
  by apply Hpost.
Qed.

(** ** The ghost's tick *)





(** ** The ghost's thread *)

Lemma nobody_seen (w : World) (numHunters : Z) :
  numHunters ≤ 0 ∨ hsize (house_hunterArray (house w)) ≤ 0 →
  ¬ (0 < numHunters ∧ hunter_in_ghost_room w).
Proof.
  intros [Hnum | Hsize] [Hpos (h & Hin & _)]; [lia |].
  unfold house_hunters in Hin.
  replace (Z.to_nat (hsize (house_hunterArray (house w)))) with 0%nat in Hin by lia.
  by apply elem_of_nil in Hin.
Qed.

Lemma ghostBehaviour_loop_ends (fuel : nat) (numHunters : Z) :
  ∀ (w : World) rnd n,
    world_ok w →
    numHunters ≤ 0 ∨ hsize (house_hunterArray (house w)) ≤ 0 →
    boredomTime (ghost w) < BOREDOM_MAX →
    gameOver w = 0 →
    BOREDOM_MAX - boredomTime (ghost w) ≤ Z.of_nat fuel →
    outcome (λ _ _, False)
      (λ w', world_ok w' ∧ house w' = house w ∧ gameOver w' = 1
             ∧ boredomTime (ghost w') = BOREDOM_MAX)
      (ghostBehaviour_loop fuel numHunters rnd n w).
Proof.
  induction fuel as [|fuel IH]; intros w rnd n Hok Hnone Hb Hflag Hfuel; [lia |].
  cbn [ghostBehaviour_loop]. step_done (run_get rnd n w).
  rewrite !bool_decide_eq_true_2 by done. cbn [andb].
  assert (Hunseen := nobody_seen w numHunters Hnone).
  eapply outcome_bind.
  { eapply outcome_mono; [exact (updateGhost_step w numHunters rnd n Hok) | done |].
    cbn. intros w' ((Hok' & Hstep & _ & Hb') & Hflag' & Hmax).
    rewrite (Hb' Hunseen) in Hmax. specialize (Hb' Hunseen).
    split; [done |]. split; [exact (gs_house _ _ Hstep) |]. split; [done | lia]. }
  intros _ w' n' ((Hok' & Hstep & _ & Hb') & Hflag' & Hless). cbn beta.
  step_done (run_get rnd n' w').
  rewrite bool_decide_eq_false_2 by lia.
  specialize (Hb' Hunseen).
  eapply outcome_mono;
    [apply (IH w' rnd n' Hok'); try lia;
     rewrite (gs_house _ _ Hstep); done | done |].
  cbn. intros w'' (? & Hhouse & ? & ?). rewrite Hhouse, (gs_house _ _ Hstep). done.
Qed.

(** X18.  When the ghost's thread is given a number of hunters of zero or
    less, or the house's hunter array is empty, the ghost sees nobody: run
    with no other thread between its rounds, the thread ends after the rounds
    that take its boredom to [BOREDOM_MAX], with the [gameOver] flag set and
    the house untouched, whatever is drawn and wherever the hunters are. *)
Theorem ghostBehaviour_ends_when_it_sees_nobody
    (w : World) (fuel : nat) (self numHunters : Z) (rnd : nat → Z) (n : nat) :
  world_ok w →
  numHunters ≤ 0 ∨ hsize (house_hunterArray (house w)) ≤ 0 →
  boredomTime (ghost w) < BOREDOM_MAX →
  gameOver w = 0 →
  BOREDOM_MAX - boredomTime (ghost w) ≤ Z.of_nat fuel →
  ∃ w' n' out,
    ghostBehaviour fuel self numHunters rnd n w = Exited w' n' out
    ∧ world_ok w'
    ∧ house w' = house w
    ∧ gameOver w' = 1
    ∧ boredomTime (ghost w') = BOREDOM_MAX.
Proof.
  intros Hok Hnone Hb Hflag Hfuel.
  assert (Hloop := ghostBehaviour_loop_ends fuel numHunters w rnd n Hok Hnone Hb Hflag Hfuel).
  unfold ghostBehaviour. rewrite run_bind, run_tell, run_bind.
  destruct (ghostBehaviour_loop fuel numHunters rnd n w) as [[] w' n' out | w' n' out | |];
    try done; cbn; eauto.
Qed.

(** An instance of X18: the sample world, the four hunters in the van, and a
    number of hunters of zero. *)
Lemma ghostBehaviour_ends_when_it_sees_nobody_witness :
  ∃ w' n' out,
    ghostBehaviour 100 1 0 (λ _, 0) 0%nat start_world = Exited w' n' out
    ∧ world_ok w'
    ∧ house w' = house start_world
    ∧ gameOver w' = 1
    ∧ boredomTime (ghost w') = BOREDOM_MAX.
Proof.
  apply (ghostBehaviour_ends_when_it_sees_nobody start_world 100 1 0 (λ _, 0) 0%nat).
  - exact start_world_ok.
  - left. lia.
  - reflexivity.
  - reflexivity.
  - vm_compute. discriminate.
Defined.

(** ** The start of a game *)

Lemma setup_run (junk : HunterType) (cells : list Z) (type : GhostClass)
    (room : option nat) (names : list string) (w : World) rnd n :
  setup junk cells type room names rnd n w
  = initializeHunters junk names rnd n (built junk cells type room (gameOver w)).
Proof.
  destruct w as [hp hs g flag]. unfold setup.
  rewrite run_bind.
  change (initHouse junk cells rnd n (mkWorld hp hs g flag))
    with (Done tt
            (mkWorld [] (mkHouse [] (new_hunterArray junk) (mkEvidenceArray cells 0 MAX_EV)
                           NUM_HUNTERS) g flag) n [] : Result World unit).
  cbv iota beta. rewrite run_bind.
  match goal with
  | |- context [populateRooms junk rnd n ?w1] =>
      let r := eval vm_compute in (populateRooms junk rnd n w1) in
      change (populateRooms junk rnd n w1) with r
  end.
  cbv iota beta. rewrite run_bind.
  match goal with
  | |- context [initGhost type room rnd n ?w2] =>
      change (initGhost type room rnd n w2)
        with (Done tt (built junk cells type room flag) n [] : Result World unit)
  end.
  cbv iota beta. cbn [gameOver].
  by destruct (initializeHunters junk names rnd n (built junk cells type room flag)).
Qed.

Lemma built_ok (junk : HunterType) (cells : list Z) (type : GhostClass)
    (room : option nat) (flag : Z) :
  Z.of_nat (length cells) = MAX_EV →
  (∀ r, room = Some r → (r < 13)%nat) →
  world_ok (built junk cells type room flag).
Proof.
  intros Hcells Hroom. split.
  - intros r rm arr Hrm Harr.
    do 13 (destruct r as [|r];
           [injection Hrm as <-; injection Harr as <-; vm_compute; intuition discriminate |]).
    done.
  - intros r rm Hrm.
    do 13 (destruct r as [|r];
           [injection Hrm as <-; eexists; split; [reflexivity |];
            apply (proj1 (Forall_forall _ _)); apply (bool_decide_unpack _);
            vm_compute; exact I |]).
    done.
  - vm_compute. intuition discriminate.
  - intros h Hh. by apply elem_of_nil in Hh.
  - exact Hroom.
  - by apply pool_ok_initial.
Qed.

Lemma built_rosters (junk : HunterType) (cells : list Z) (type : GhostClass)
    (room : option nat) (flag : Z) :
  rosters_agree (built junk cells type room flag).
Proof.
  split.
  - intros r Hr.
    do 13 (destruct r as [|r]; [reflexivity |]).
    exfalso. revert Hr. cbn. lia.
  - intros r rm Hrm.
    do 13 (destruct r as [|r];
           [injection Hrm as <-; eexists; split; [reflexivity |]; vm_compute;
            discriminate |]).
    done.
Qed.

Lemma initializeHunters_spec (junk : HunterType) (names : list string) :
  ∀ (w : World) (van : nat) rnd n,
    world_ok w →
    rosters_agree w →
    head (house_rooms (house w)) = Some van →
    (van < length (heap w))%nat →
    (∀ r rm arr,
       heap w !! r = Some rm → hunterArray rm = Some arr →
       hcapacity (house_hunterArray (house w)) ≤ hcapacity arr) →
    hsize (house_hunterArray (house w)) + Z.of_nat (length names)
      ≤ hcapacity (house_hunterArray (house w)) →
    Forall (λ nm, Z.of_nat (String.length nm) < MAX_STR) names →
    outcome
      (λ _ w', world_ok w' ∧ rosters_agree w'
               ∧ house_hunters w'
                 = house_hunters w
                   ++ map (λ nm, mkHunter nm EV_UNKNOWN 0 0 (Some van)) names
               ∧ ghost w' = ghost w
               ∧ hunterCount (house w') = hunterCount (house w)
               ∧ gameOver w' = gameOver w)
      (λ _, False) (initializeHunters junk names rnd n w).
Proof.
  induction names as [|hname rest IH];
    intros w van rnd n Hok Hagree Hvan Hvalid Hcaps Hfree Hshort.
  { cbn. by rewrite app_nil_r. }
  apply Forall_cons in Hshort as [Hshort Hrest].
  cbn [initializeHunters length] in *.
  step_done (run_get rnd n w). rewrite Hvan.
  rewrite run_bind. cbn [deref ret]. apply (outcome_prepend _ _ []).
  rewrite run_bind. unfold initHunter.
  rewrite (bool_decide_eq_true_2 _ Hshort). cbn [mret M_ret ret].
  apply (outcome_prepend _ _ []).
  set (h := mkHunter hname EV_UNKNOWN 0 0 (Some van)).
  destruct (ok_hunters w Hok) as [Hsize Hbuf].
  set (arr := house_hunterArray (house w)) in *.
  set (arr1 := mkHunterArray (<[Z.to_nat (hsize arr) := h]> (hunter arr))
                 (hsize arr + 1) (hcapacity arr)).
  set (w1 := set_house (set_house_hunterArray arr1 (house w)) w).
  assert (Hadd1 : zoom (λ w0, house_hunterArray (house w0))
                    (λ a w0, set_house (set_house_hunterArray a (house w0)) w0)
                    (addHunter h) rnd n w
                  = Done 0 w1 n []).
  { rewrite run_zoom. fold arr. by rewrite addHunter_run by lia. }
  step_done Hadd1.
  assert (Hhs1 : house_hunters w1 = house_hunters w ++ [h]).
  { unfold house_hunters. apply (in_use_added arr h). lia. }
  destruct (lookup_lt_is_Some_2 _ _ Hvalid) as [rm Hrm].
  destruct (ra_room w Hagree van rm Hrm) as (arrv & Harrv & _).
  destruct (ok_rosters w Hok van rm arrv Hrm Harrv) as [Hsizev Hbufv].
  assert (Hcapv := Hcaps van rm arrv Hrm Harrv).
  assert (Hfreev : hsize arrv < hcapacity arrv).
  { assert (Hlen : Z.of_nat (length (roster_names w van)) = hsize arrv).
    { unfold roster_names. rewrite Hrm, Harrv, length_map.
      by apply in_use_length. }
    rewrite (ra_names w Hagree van Hvalid) in Hlen.
    unfold names_in in Hlen. rewrite length_map in Hlen.
    assert (Hfl := length_filter (λ h0, room h0 = Some van) (house_hunters w)).
    assert (Hhs : Z.of_nat (length (house_hunters w)) = hsize arr).
    { unfold house_hunters. fold arr. rewrite length_take. lia. }
    fold arr in Hcapv. lia. }
  set (arrv1 := mkHunterArray (<[Z.to_nat (hsize arrv) := h]> (hunter arrv))
                  (hsize arrv + 1) (hcapacity arrv)).
  set (w2 := set_heap (<[van := set_hunterArray arrv1 rm]> (heap w1)) w1).
  erewrite run_bind_done;
    [| eapply (on_roster_run w1 van rm arrv arrv1); [exact Hrm | exact Harrv |];
       apply addHunter_run; lia].
  apply outcome_prepend.
  assert (Harrv1 : roster_ok arrv1).
  { split; cbn; [lia |]. rewrite length_insert. lia. }
  assert (Hok2 : world_ok w2).
  { apply (world_ok_set_roster w1 van rm arrv1); [| exact Hrm | exact Harrv1].
    destruct Hok as [Hrosters Hdoors Hhunters Hplaced Hghost Hpool]. split; try done.
    - split; cbn; [lia |]. rewrite length_insert. lia.
    - intros h0 Hh0. rewrite Hhs1 in Hh0. apply elem_of_app in Hh0 as [Hh0 | Hh0].
      + by apply Hplaced.
      + apply list_elem_of_singleton in Hh0 as ->. exists van. done. }
  assert (Hagree2 : rosters_agree w2).
  { split.
    - intros r Hr.
      assert (Hr' : (r < length (heap w))%nat).
      { revert Hr. unfold w2. cbn [heap set_heap]. rewrite length_insert. done. }
      rewrite (roster_names_set_roster w1 w2 van r rm arrv1 Hrm eq_refl).
      unfold names_in. change (house_hunters w2) with (house_hunters w1).
      rewrite Hhs1, filter_app, map_app. fold (names_in w r).
      rewrite filter_cons, filter_nil. change (room h) with (Some van).
      destruct (decide (r = van)) as [-> | Hne].
      + rewrite bool_decide_eq_true_2, decide_True by done.
        unfold arrv1. rewrite in_use_added by lia. rewrite map_app.
        apply Permutation_app; [| done].
        rewrite <- (ra_names w Hagree van Hvalid).
        unfold roster_names. by rewrite Hrm, Harrv.
      + rewrite bool_decide_eq_false_2, decide_False by congruence.
        cbn. rewrite app_nil_r.
        change (roster_names w1 r) with (roster_names w r).
        by apply (ra_names w Hagree).
    - intros r rm0 Hrm0. unfold w2 in Hrm0. cbn [heap set_heap] in Hrm0.
      change (hsize (house_hunterArray (house w2))) with (hsize arr + 1).
      destruct (decide (r = van)) as [-> | Hne].
      + rewrite list_lookup_insert_eq in Hrm0 by done. injection Hrm0 as <-.
        eexists. split; [reflexivity |]. cbn. fold arr in Hcapv. lia.
      + rewrite list_lookup_insert_ne in Hrm0 by done.
        destruct (ra_room w Hagree r rm0 Hrm0) as (arr0 & Harr0 & _).
        exists arr0. split; [done |].
        assert (Hc := Hcaps r rm0 arr0 Hrm0 Harr0). fold arr in Hc. lia. }
  assert (Hvalid2 : (van < length (heap w2))%nat)
    by (unfold w2; cbn [heap set_heap]; by rewrite length_insert).
  assert (Hcaps2 : ∀ r rm0 arr0,
            heap w2 !! r = Some rm0 → hunterArray rm0 = Some arr0 →
            hcapacity (house_hunterArray (house w2)) ≤ hcapacity arr0).
  { intros r rm0 arr0 Hrm0 Harr0. unfold w2 in Hrm0. cbn [heap set_heap] in Hrm0.
    change (hcapacity (house_hunterArray (house w2))) with (hcapacity arr).
    destruct (decide (r = van)) as [-> | Hne].
    + rewrite list_lookup_insert_eq in Hrm0 by done. injection Hrm0 as <-.
      cbn in Harr0. injection Harr0 as <-. cbn. by fold arr in Hcapv.
    + rewrite list_lookup_insert_ne in Hrm0 by done.
      by apply (Hcaps r rm0 arr0). }
  assert (Hfree2 : hsize (house_hunterArray (house w2)) + Z.of_nat (length rest)
                   ≤ hcapacity (house_hunterArray (house w2))).
  { change (hsize (house_hunterArray (house w2))) with (hsize arr + 1).
    change (hcapacity (house_hunterArray (house w2))) with (hcapacity arr). lia. }
  eapply outcome_mono;
    [exact (IH w2 van rnd n Hok2 Hagree2 Hvan Hvalid2 Hcaps2 Hfree2 Hrest) | | done].
  cbn. intros _ w' (? & ? & Hhs' & ? & ? & ?).
  split; [done |]. split; [done |]. split; [| done].
  rewrite Hhs'. change (house_hunters w2) with (house_hunters w1).
  rewrite Hhs1, <- app_assoc. done.
Qed.

(** X19.  [setup] on any names (at most [NUM_HUNTERS] of them, each shorter
    than [MAX_STR], as [fgets] delivers them) builds a well-formed world: the
    hunters are those names in order, without equipment yet, all standing in
    the van; the roster of every room lists the hunters that stand in it; the
    count of the hunters is [NUM_HUNTERS]; the ghost is of the class and in
    the room it was given. *)
Theorem setup_builds_a_well_formed_world
    (junk : HunterType) (cells : list Z) (type : GhostClass) (room : option nat)
    (names : list string) (w : World) (rnd : nat → Z) (n : nat) :
  Z.of_nat (length cells) = MAX_EV →
  (∀ r, room = Some r → (r < 13)%nat) →
  Z.of_nat (length names) ≤ NUM_HUNTERS →
  Forall (λ nm, Z.of_nat (String.length nm) < MAX_STR) names →
  ∃ w' n' out,
    setup junk cells type room names rnd n w = Done tt w' n' out
    ∧ world_ok w'
    ∧ rosters_agree w'
    ∧ house_hunters w' = map (λ nm, mkHunter nm EV_UNKNOWN 0 0 (Some 0%nat)) names
    ∧ hunterCount (house w') = NUM_HUNTERS
    ∧ ghost w' = mkGhost room type 0.
Proof.
  intros Hcells Hroom Hlen Hshort. rewrite setup_run.
  assert (Hspec : outcome
            (λ _ w', world_ok w' ∧ rosters_agree w'
               ∧ house_hunters w'
                 = house_hunters (built junk cells type room (gameOver w))
                   ++ map (λ nm, mkHunter nm EV_UNKNOWN 0 0 (Some 0%nat)) names
               ∧ ghost w' = ghost (built junk cells type room (gameOver w))
               ∧ hunterCount (house w')
                 = hunterCount (house (built junk cells type room (gameOver w)))
               ∧ gameOver w' = gameOver (built junk cells type room (gameOver w)))
            (λ _, False)
            (initializeHunters junk names rnd n
               (built junk cells type room (gameOver w)))).
  { apply initializeHunters_spec; try done.
    - by apply built_ok.
    - apply built_rosters.
    - cbn. lia.
    - intros r rm arr Hrm Harr.
      do 13 (destruct r as [|r];
             [injection Hrm as <-; injection Harr as <-; vm_compute; discriminate |]).
      done. }
  destruct (initializeHunters junk names rnd n (built junk cells type room (gameOver w)))
    as [[] w' n' out | | |]; try done.
  cbn in Hspec. destruct Hspec as (Hok & Hagree & Hhs & Hghost & Hcount & _).
  by exists w', n', out.
Qed.

(** An instance of X19: the four hunters of the sample world. *)
Lemma setup_builds_a_well_formed_world_witness :
  ∃ w' n' out,
    setup junk_hunter [0; 0; 0] BANSHEE (Some 11%nat) ["Ann"; "Bob"; "Cy"; "Di"]
      (λ _, 0) 0%nat blank_world
    = Done tt w' n' out
    ∧ world_ok w'
    ∧ rosters_agree w'
    ∧ house_hunters w'
      = map (λ nm, mkHunter nm EV_UNKNOWN 0 0 (Some 0%nat)) ["Ann"; "Bob"; "Cy"; "Di"]
    ∧ hunterCount (house w') = NUM_HUNTERS
    ∧ ghost w' = mkGhost (Some 11%nat) BANSHEE 0.
Proof.
  apply (setup_builds_a_well_formed_world junk_hunter [0; 0; 0] BANSHEE (Some 11%nat)
           ["Ann"; "Bob"; "Cy"; "Di"] blank_world (λ _, 0) 0%nat).
  - reflexivity.
  - intros r [= <-]. lia.
  - vm_compute. discriminate.
  - repeat constructor.
Defined.

(** ** Where a hunter moves *)

(** X20.  In a well-formed world whose rosters list the hunters of their
    rooms, a hunter in a room with neighbours always finds a room to move to,
    for every draw that [rand_r] can return: the move takes it to one of the
    neighbours of its room, changes nothing else in its entry of the house's
    array, and takes its name from the roster of the one room to the roster of
    the other. *)
Theorem moveToRandomRoomHunter_takes_a_door
    (w : World) (i : nat) (h : HunterType) (r : nat) (rnd : nat → Z) (n : nat) :
  world_ok w →
  rosters_agree w →
  house_hunters w !! i = Some h →
  room h = Some r →
  neighbours w r ≠ [] →
  Z.of_nat (length (neighbours w r)) ≤ 2 ^ 24 →
  0 ≤ rnd n ≤ RAND_MAX →
  ∃ w' n' out r',
    moveToRandomRoomHunter i rnd n w = Done tt w' n' out
    ∧ r' ∈ neighbours w r
    ∧ house_hunters w' !! i = Some (set_room (Some r') h)
    ∧ rosters_agree w'.
Proof.
  intros Hok Hagree Hin Hroom Hsome Hlen Hraw.
  assert (Hh : hunter (house_hunterArray (house w)) !! i = Some h)
    by (by apply house_hunters_lookup in Hin as [? _]).
  destruct (ok_placed w Hok h) as (r0 & Hroom0 & Hr); [by eapply list_elem_of_lookup_2 |].
  assert (r0 = r) as -> by congruence.
  destruct (lookup_lt_is_Some_2 _ _ Hr) as [rm Hrm].
  destruct (ok_doors w Hok r rm Hrm) as (l & Hl & Hvalid).
  assert (Hnb : neighbours w r = l) by (unfold neighbours; by rewrite Hrm, Hl).
  rewrite Hnb in *.
  assert (0 < length l)%nat by (destruct l; [done | cbn; lia]).
  unfold moveToRandomRoomHunter.
  rewrite (run_bind_done _ _ _ _ _ _ _ _ _ (read_hunter_run w i h rnd n Hh)), Hroom.
  rewrite (run_bind_done _ _ _ _ _ _ _ _ _ (read_room_run w r rm rnd n Hrm)), Hl.
  rewrite run_bind. cbn [deref ret prepend].
  unfold getRandomRoomIndex. rewrite run_bind, randInt_run.
  unfold getRoomAtIndex. rewrite getRoomAtIndex_loop_spec, Z.sub_0_r.
  assert (Hidx := randInt_of_range (Z.of_nat (length l) - 1) (rnd n) ltac:(lia) Hraw).
  destruct (lookup_lt_is_Some_2 l
              (Z.to_nat (randInt_of 0 (Z.of_nat (length l) - 1) (rnd n))) ltac:(lia))
    as [newRoom Hnew].
  rewrite Hnew.
  assert (Hmem : newRoom ∈ l) by (by eapply list_elem_of_lookup_2).
  assert (Hu := rosters_agree_relocated w i r newRoom h rnd (S n) Hok Hagree Hin Hroom
                  (Hvalid newRoom Hmem)).
  destruct (updateHunterLocation i r newRoom rnd (S n) w)
    as [[] w' n' out | | |]; try done.
  destruct Hu as [Hagree' Hentry].
  exists w', n', ([] ++ [] ++ [] ++ out), newRoom.
  split; [reflexivity |]. split; [done |]. split; [| done].
  rewrite Hentry. apply list_lookup_insert_eq. by apply lookup_lt_Some in Hin.
Qed.

(** An instance of X20: Ann leaves the van of the sample world for the
    hallway, its only neighbour. *)
Lemma moveToRandomRoomHunter_takes_a_door_witness :
  ∃ w' n' out r',
    moveToRandomRoomHunter 0 (λ _, 0) 0%nat start_world = Done tt w' n' out
    ∧ r' ∈ [1%nat]
    ∧ house_hunters w' !! 0%nat = Some (mkHunter "Ann" EV_UNKNOWN 0 0 (Some r'))
    ∧ rosters_agree w'.
Proof.
  apply (moveToRandomRoomHunter_takes_a_door start_world 0
           (mkHunter "Ann" EV_UNKNOWN 0 0 (Some 0%nat)) 0 (λ _, 0) 0%nat).
  - exact start_world_ok.
  - exact start_world_rosters.
  - reflexivity.
  - reflexivity.
  - discriminate.
  - vm_compute. discriminate.
  - unfold RAND_MAX. lia.
Defined.

(** ** The verdict *)

(** X21.  [evaluateGameOutcome] changes nothing and draws nothing, and the
    last line it prints is the verdict: the ghost has won when the house's
    hunter array is empty or holds four hunters with fear of 100 or more or
    four with boredom of 100 or more; otherwise the hunters have won when the
    pool holds three entries and the ghost's boredom is below 100; otherwise
    the ghost got bored and left. *)
Theorem evaluateGameOutcome_ends_with_the_verdict
    (w : World) (rnd : nat → Z) (n : nat) :
  0 ≤ hsize (house_hunterArray (house w))
    ≤ Z.of_nat (length (hunter (house_hunterArray (house w)))) →
  (size (house_evidenceArray (house w)) = 3 →
   (3 ≤ length (evidence (house_evidenceArray (house w))))%nat) →
  ∃ out, evaluateGameOutcome rnd n w = Done tt w n (out ++ [verdict_line w]).
Proof. exact (evaluateGameOutcome_verdict w rnd n). Qed.

(** An instance of X21: with the banshee's three kinds in the pool the
    hunters have won. *)
Lemma evaluateGameOutcome_ends_with_the_verdict_witness :
  ∃ out,
    evaluateGameOutcome (λ _, 0) 0%nat banshee_world
    = Done tt banshee_world 0%nat (out ++ [hunters_won_line]).
Proof.
  apply (evaluateGameOutcome_ends_with_the_verdict banshee_world (λ _, 0) 0%nat).
  - vm_compute. intuition discriminate.
  - intros _. vm_compute. lia.
Defined.
